(** * linode-cli: the spec compiler ([CLI.bake]) and the request translator

    A shallow embedding of [linodecli/cli.py]: the Reference Resolver
    ([_resolve_ref], [_resolve_allOf]), the two schema flatteners
    ([_parse_args], [_parse_properties]), the Operation Compiler ([bake]),
    [load_baked], the body and filter construction of [do_request], and
    the dispatch of [handle_command] and [call_operation].

    - The OpenAPI document is a JSON tree.  A Python dictionary is an
      association list in insertion order, with unique keys.
    - An exception is an outcome of its own, [Raise]; the Python operators
      the code applies to a document ([in], subscripts, [get], [items],
      iteration, [update], [+=]) are modelled on every JSON value, so that a
      malformed document raises what Python raises.  Where Python would go
      on and the model has no value for the result, the outcome is
      [Raise Unmodelled].
    - The places where the source may not come to an end take fuel: the
      loop [while "$ref" in info], which runs for ever on a reference to
      itself, and the recursion of [_parse_args], which on references that
      form a cycle ends in Python's [RecursionError].  The recursion of
      [_parse_properties] takes fuel as well; it follows no reference and
      ends on every document.  Running out of fuel is the outcome
      [OutOfFuel].
    - [bake] changes the document in two places: [resp_con.update] adds
      keys to a response schema, [required_fields +=] extends the
      [required] list of a body schema.  Both are written back to the
      place in the document they were read from.  The document is a tree,
      as a JSON file gives it: two places never hold the same object
      (the merged property maps are an exception that no later change
      reaches, which is why [update] through a reference is followed only
      for a schema at [#/components/schemas/NAME]).
    - The classes of [operation.py] and [response.py] ([URLParam],
      [CLIArg], [CLIOperation], [ModelAttr], [ResponseModel]) and
      [config.update] are not among the sources; the records are taken from
      the spec's data model, [config.update] is a parameter.

    Left out: the text written to stdout and stderr, the URL formatting
    and the HTTP exchange of [do_request] with the version advisory that
    follows it, the shell completions.  A string is a sequence of
    characters with code points below 256; a document with other
    characters is outside the model. *)

From Stdlib Require Import List String Ascii Bool ZArith Lia Arith.
Import ListNotations.
Local Open Scope string_scope.
Local Open Scope list_scope.

Set Implicit Arguments.
Set Warnings "-register-all".

(* ================================================================== *)
(** ** Outcomes *)

Inductive exn : Type :=
| KeyError (k : string)
| TypeError
| AttributeError
| ValueError
| IndexError
| SystemExit (code : Z)
| Unmodelled.  (* Python goes on, the model does not follow: a dictionary
                  key that is not a string, arithmetic on numbers, an
                  in-place update of a schema that is not a document
                  component *)

Inductive result (A : Type) : Type :=
| Ok (a : A)
| Raise (e : exn)
| OutOfFuel.

Arguments Ok {A} a.
Arguments Raise {A} e.
Arguments OutOfFuel {A}.

Definition bind {A B} (m : result A) (k : A -> result B) : result B :=
  match m with
  | Ok a => k a
  | Raise e => Raise e
  | OutOfFuel => OutOfFuel
  end.

Notation "x <- m ;; k" := (bind m (fun x => k))
  (at level 61, m at next level, right associativity).
Notation "' p <- m ;; k" := (bind m (fun x => match x with p => k end))
  (at level 61, p pattern, m at next level, right associativity).

(** [for x in l: acc = step acc x], stopping at the first exception. *)
Fixpoint foldM {A B} (step : B -> A -> result B) (l : list A) (acc : B)
  : result B :=
  match l with
  | [] => Ok acc
  | x :: l' => acc' <- step acc x ;; foldM step l' acc'
  end.

Fixpoint mapM {A B} (f : A -> result B) (l : list A) : result (list B) :=
  match l with
  | [] => Ok []
  | x :: l' => y <- f x ;; ys <- mapM f l' ;; Ok (y :: ys)
  end.

(* ================================================================== *)
(** ** JSON values *)

Inductive json : Type :=
| JNull
| JBool (b : bool)
| JInt (z : Z)
| JFloat (mantissa exponent : Z)     (* mantissa * 10 ^ exponent *)
| JStr (s : string)
| JArr (l : list json)
| JObj (d : list (string * json)).

(** Python truthiness, as used by [x or default] and [if x:]. *)
Definition truthy (v : json) : bool :=
  match v with
  | JNull => false
  | JBool b => b
  | JInt z => negb (Z.eqb z 0)
  | JFloat m _ => negb (Z.eqb m 0)
  | JStr s => negb (String.eqb s "")
  | JArr l => match l with [] => false | _ => true end
  | JObj d => match d with [] => false | _ => true end
  end.

(** [a or b] *)
Definition py_or (a b : json) : json := if truthy a then a else b.

(** [v == s] for a string literal [s]: only a string equals a string. *)
Definition eq_str (s : string) (v : json) : bool :=
  match v with
  | JStr t => String.eqb s t
  | _ => false
  end.

(* ------------------------------------------------------------------ *)
(** *** Strings *)

(** [needle in hay] on two strings. *)
Fixpoint contains (needle hay : string) : bool :=
  String.prefix needle hay ||
  match hay with
  | EmptyString => false
  | String _ hay' => contains needle hay'
  end.

(** [s.split(sep)] for a one-character separator. *)
Fixpoint str_split (sep : ascii) (s : string) : list string :=
  match s with
  | EmptyString => [EmptyString]
  | String c s' =>
      if Ascii.eqb c sep then EmptyString :: str_split sep s'
      else match str_split sep s' with
           | [] => [String c EmptyString]
           | h :: t => String c h :: t
           end
  end.

(** ["." .join(l)] *)
Definition str_join (sep : string) (l : list string) : string :=
  String.concat sep l.

(** The characters of a string, each as a one-character string. *)
Fixpoint chars (s : string) : list string :=
  match s with
  | EmptyString => []
  | String c s' => String c EmptyString :: chars s'
  end.

(** [s.replace(old, new)]: occurrences are found left to right and do not
    overlap.  [skip] counts the characters of a matched occurrence still to
    be passed over.  Both call sites have a non-empty [old]. *)
Fixpoint replace_from (old new : string) (skip : nat) (s : string) : string :=
  match s with
  | EmptyString => EmptyString
  | String c s' =>
      match skip with
      | S k => replace_from old new k s'
      | O =>
          if String.prefix old s
          then new ++ replace_from old new (String.length old - 1) s'
          else String c (replace_from old new 0 s')
      end
  end.

Definition str_replace (old new s : string) : string :=
  replace_from old new 0 s.

(* ------------------------------------------------------------------ *)
(** *** Dictionaries: insertion-ordered, keys unique *)

Section Dict.
Variable V : Type.

Fixpoint dict_get (k : string) (d : list (string * V)) : option V :=
  match d with
  | [] => None
  | (k', v) :: d' => if String.eqb k k' then Some v else dict_get k d'
  end.

Definition dict_mem (k : string) (d : list (string * V)) : bool :=
  match dict_get k d with Some _ => true | None => false end.

(** [d[k] = v]: an existing key keeps its position, a new one goes last. *)
Fixpoint dict_set (k : string) (v : V) (d : list (string * V))
  : list (string * V) :=
  match d with
  | [] => [(k, v)]
  | (k', v') :: d' =>
      if String.eqb k k' then (k, v) :: d' else (k', v') :: dict_set k v d'
  end.

(** [del d[k]] *)
Fixpoint dict_del (k : string) (d : list (string * V))
  : result (list (string * V)) :=
  match d with
  | [] => Raise (KeyError k)
  | (k', v') :: d' =>
      if String.eqb k k' then Ok d'
      else d'' <- dict_del k d' ;; Ok ((k', v') :: d'')
  end.

(** [d.update(e)] for a dictionary [e]. *)
Definition dict_update (d e : list (string * V)) : list (string * V) :=
  fold_left (fun acc kv => dict_set (fst kv) (snd kv) acc) e d.

Definition keys (d : list (string * V)) : list string := map fst d.
End Dict.

(* ------------------------------------------------------------------ *)
(** *** Python operators on JSON values *)

(** [k in x] for a string [k]. *)
Definition py_in (k : string) (x : json) : result bool :=
  match x with
  | JObj d => Ok (dict_mem k d)
  | JArr l => Ok (existsb (eq_str k) l)
  | JStr s => Ok (contains k s)
  | _ => Raise TypeError
  end.

(** [x[k]] for a string [k]. *)
Definition py_getitem (x : json) (k : string) : result json :=
  match x with
  | JObj d => match dict_get k d with
              | Some v => Ok v
              | None => Raise (KeyError k)
              end
  | _ => Raise TypeError
  end.

(** [x.get(k, default)]; [x.get(k)] is [py_get x k JNull]. *)
Definition py_get (x : json) (k : string) (default : json) : result json :=
  match x with
  | JObj d => match dict_get k d with
              | Some v => Ok v
              | None => Ok default
              end
  | _ => Raise AttributeError
  end.

(** [d.get(k, default)] on a dictionary. *)
Definition get_or (d : list (string * json)) (k : string) (default : json)
  : json :=
  match dict_get k d with Some v => v | None => default end.

(** [x.items()] *)
Definition py_items (x : json) : result (list (string * json)) :=
  match x with
  | JObj d => Ok d
  | _ => Raise AttributeError
  end.

(** [for e in x]: the elements of a list, the keys of a dictionary, the
    characters of a string. *)
Definition py_iter (x : json) : result (list json) :=
  match x with
  | JArr l => Ok l
  | JObj d => Ok (map JStr (keys d))
  | JStr s => Ok (map JStr (chars s))
  | _ => Raise TypeError
  end.

(** One element of the sequence given to [dict.update]: it must unpack
    into a key and a value. *)
Definition update_pair (e : json) : result (string * json) :=
  es <- py_iter e ;;
  match es with
  | [k; v] =>
      match k with
      | JStr s => Ok (s, v)
      | JArr _ | JObj _ => Raise TypeError      (* unhashable *)
      | _ => Raise Unmodelled
      end
  | _ => Raise ValueError
  end.

(** [ret.update(props)]: [props] is a dictionary or a sequence of pairs. *)
Definition py_update (ret : list (string * json)) (props : json)
  : result (list (string * json)) :=
  match props with
  | JObj e => Ok (dict_update ret e)
  | _ =>
      es <- py_iter props ;;
      foldM (fun acc e => '(k, v) <- update_pair e ;; Ok (dict_set k v acc))
            es ret
  end.

(** [x.split(sep)]: only strings have the method. *)
Definition py_split (x : json) (sep : ascii) : result (list string) :=
  match x with
  | JStr s => Ok (str_split sep s)
  | _ => Raise AttributeError
  end.

(* ================================================================== *)
(** ** Reference Resolver *)

(** [CLI._resolve_ref]: [ref.split("/")[1:]], then one subscript per part. *)
Definition _resolve_ref (spec : json) (ref : json) : result json :=
  parts <- py_split ref "/" ;;
  foldM py_getitem (tl parts) spec.

(** Lines 57-59: a member of an [allOf], through its reference if it is
    one. *)
Definition member_data (spec : json) (cur : json) : result json :=
  has_ref <- py_in "$ref" cur ;;
  if has_ref
  then r <- py_getitem cur "$ref" ;; _resolve_ref spec r
  else Ok cur.

(** Lines 60-67: the property map a member contributes. *)
Definition allOf_member_props (spec : json) (cur : json) : result json :=
  data <- member_data spec cur ;;
  has_props <- py_in "properties" data ;;
  if has_props then py_getitem data "properties"
  else
    has_ref <- py_in "$ref" cur ;;
    if has_ref
    then
      r <- py_getitem cur "$ref" ;;
      into_props <- py_in "/properties/" r ;;
      if into_props then Ok data else Ok (JObj [])
    else Ok (JObj []).

(** [CLI._resolve_allOf] *)
Definition _resolve_allOf (spec : json) (node : json) : result json :=
  members <- py_iter node ;;
  ret <- foldM (fun ret cur =>
                  props <- allOf_member_props spec cur ;;
                  py_update ret props)
               members [] ;;
  Ok (JObj ret).

(* ================================================================== *)
(** ** Argument Schema Flattener *)

(** The dictionary [_parse_args] stores under each dotted path. *)
Record arg_info : Type := mk_arg_info {
  ai_type : json;                 (* "type" *)
  ai_desc : json;                 (* "desc" *)
  ai_name : string;               (* "name" *)
  ai_format : json;               (* "format", [JNull] for [None] *)
  ai_item_type : option json;     (* "item_type", when set *)
  ai_list_item : option string    (* "list_item", when set *)
}.

Definition set_type (t : json) (a : arg_info) : arg_info :=
  mk_arg_info t (ai_desc a) (ai_name a) (ai_format a)
              (ai_item_type a) (ai_list_item a).
Definition set_item_type (t : json) (a : arg_info) : arg_info :=
  mk_arg_info (ai_type a) (ai_desc a) (ai_name a) (ai_format a)
              (Some t) (ai_list_item a).
Definition set_list_item (p : string) (a : arg_info) : arg_info :=
  mk_arg_info (ai_type a) (ai_desc a) (ai_name a) (ai_format a)
              (ai_item_type a) (Some p).

Definition args_t : Type := list (string * arg_info).

(** [while "$ref" in info: info = self._resolve_ref(info["$ref"])] *)
Fixpoint follow_refs (fuel : nat) (spec info : json) : result json :=
  has_ref <- py_in "$ref" info ;;
  if has_ref then
    match fuel with
    | O => OutOfFuel
    | S fuel' =>
        r <- py_getitem info "$ref" ;;
        info' <- _resolve_ref spec r ;;
        follow_refs fuel' spec info'
    end
  else Ok info.

(** Lines 101-104: a property with its [allOf] merged and its references
    followed. *)
Definition resolve_property (fuel : nat) (spec info : json) : result json :=
  has_allOf <- py_in "allOf" info ;;
  info <- (if has_allOf
           then a <- py_getitem info "allOf" ;; _resolve_allOf spec a
           else Ok info) ;;
  follow_refs fuel spec info.

(** Lines 127-136: the items schema of an input list. *)
Definition resolve_items (spec info : json) : result json :=
  items <- py_getitem info "items" ;;
  has_allOf <- py_in "allOf" items ;;
  items <- (if has_allOf
            then a <- py_getitem items "allOf" ;;
                 merged <- _resolve_allOf spec a ;;
                 Ok (JObj [("type", JStr "object"); ("items", merged)])
            else Ok items) ;;
  has_ref <- py_in "$ref" items ;;
  if has_ref
  then r <- py_getitem items "$ref" ;; _resolve_ref spec r
  else Ok items.

(** Lines 127-144: the item type of an input list and, when the items are
    objects with properties of their own that are not read-only, those
    properties. *)
Definition list_items (spec info : json) : result (json * option json) :=
  items <- resolve_items spec info ;;
  item_type <- py_getitem items "type" ;;
  ty <- py_getitem items "type" ;;
  obj_props <- (if eq_str "object" ty
                then py_in "properties" items else Ok false) ;;
  ro <- (if obj_props then py_get items "readOnly" JNull else Ok JNull) ;;
  if obj_props && negb (truthy ro)
  then item_props <- py_getitem items "properties" ;;
       Ok (item_type, Some item_props)
  else Ok (item_type, None).

(** Lines 110-118: the entry stored for a property that is a leaf. *)
Definition leaf_entry (spec : json) (arg : string) (info : json)
  : result (json * arg_info) :=
  has_ref <- py_in "$ref" info ;;
  info <- (if has_ref
           then r <- py_getitem info "$ref" ;; _resolve_ref spec r
           else Ok info) ;;
  ty <- py_get info "type" JNull ;;
  desc <- py_get info "description" JNull ;;
  fmt0 <- py_get info "format" JNull ;;
  fmt <- py_get info "x-linode-cli-format" fmt0 ;;
  Ok (info, mk_arg_info (py_or ty (JStr "string")) (py_or desc (JStr ""))
                        arg fmt None None).

(** [for _, v in item_args.items(): v["list_item"] = path] *)
Definition tag_list_item (path : string) (item_args : args_t) : args_t :=
  map (fun kv => (fst kv, set_list_item path (snd kv))) item_args.

(** [CLI._parse_args].  [args] is the dictionary being filled; the
    recursive call for item properties starts from an empty one. *)
Fixpoint _parse_args (fuel : nat) (spec : json) (node : json)
         (prefix : list string) (args : args_t) : result args_t :=
  match fuel with
  | O => OutOfFuel
  | S fuel' =>
      props <- py_items node ;;
      foldM
        (fun args (kv : string * json) =>
           let (arg, info) := kv in
           info <- resolve_property fuel' spec info ;;
           has_props <- py_in "properties" info ;;
           if has_props then
             sub <- py_getitem info "properties" ;;
             _parse_args fuel' spec sub (prefix ++ [arg]) args
           else
             ro <- py_get info "readOnly" JNull ;;
             if truthy ro then Ok args
             else
               '(info, entry) <- leaf_entry spec arg info ;;
               let path := str_join "." (prefix ++ [arg]) in
               let args := dict_set path entry args in
               if eq_str "json" (ai_format entry) then
                 Ok (dict_set path (set_type (JStr "object") entry) args)
               else
                 has_items <- (if eq_str "array" (ai_type entry)
                               then py_in "items" info else Ok false) ;;
                 if has_items then
                   '(item_type, item_props) <- list_items spec info ;;
                   let args :=
                     dict_set path (set_item_type item_type entry) args in
                   match item_props with
                   | Some item_props =>
                       item_args <- _parse_args fuel' spec item_props
                                                (prefix ++ [arg]) [] ;;
                       dict_del path
                         (dict_update args (tag_list_item path item_args))
                   | None => Ok args
                   end
                 else Ok args)
        props args
  end.

(* ================================================================== *)
(** ** Response Schema Flattener *)

(** Modelled from the spec: the class [ModelAttr] of [response.py] is not
    part of the sources at hand; the record keeps the constructor's
    arguments, as the spec's AttributeColumn does. *)
Record ModelAttr : Type := mk_ModelAttr {
  attr_name : string;
  attr_filterable : json;
  attr_display : json;
  attr_datatype : json;
  attr_color_map : json;
  attr_item_type : json
}.

(** Modelled from the spec: the class [ResponseModel] of [response.py],
    the spec's ResponseModel. *)
Record ResponseModel : Type := mk_ResponseModel {
  attrs : list ModelAttr;
  rows : json;
  nested_list : json
}.

(** [CLI._parse_properties] *)
Fixpoint _parse_properties (fuel : nat) (node : json) (prefix : list string)
  : result (list ModelAttr) :=
  match fuel with
  | O => OutOfFuel
  | S fuel' =>
      props <- py_items node ;;
      foldM
        (fun attrs (kv : string * json) =>
           let (name, info) := kv in
           has_props <- py_in "properties" info ;;
           if has_props then
             sub <- py_getitem info "properties" ;;
             more <- _parse_properties fuel' sub (prefix ++ [name]) ;;
             Ok (attrs ++ more)
           else
             item_container <- py_get info "items" JNull ;;
             item_type <- (if truthy item_container
                           then py_get item_container "type" JNull
                           else Ok JNull) ;;
             filterable <- py_get info "x-linode-filterable" JNull ;;
             display <- py_get info "x-linode-cli-display" JNull ;;
             ty <- py_get info "type" JNull ;;
             color <- py_get info "x-linode-cli-color" JNull ;;
             Ok (attrs ++
                 [mk_ModelAttr (str_join "." (prefix ++ [name]))
                               (py_or filterable (JBool false))
                               (py_or display (JBool false))
                               (py_or ty (JStr "string"))
                               color item_type]))
        props []
  end.

(* ================================================================== *)
(** ** Operations *)

(** Modelled from the spec: the classes [URLParam], [CLIArg] and
    [CLIOperation] of [operation.py] are not part of the sources at hand.
    The records keep what [bake] passes to the constructors and the
    attributes it assigns afterwards ([required], [arg_item_type], [name]);
    they are the spec's URLParam, Argument and Operation. *)
Record URLParam : Type := mk_URLParam {
  param_name : json;
  param_type : json
}.

Definition clone (p : URLParam) : URLParam :=
  mk_URLParam (param_name p) (param_type p).

Record CLIArg : Type := mk_CLIArg {
  arg_name : string;
  arg_type : json;
  arg_description : string;
  arg_path : string;
  arg_format : json;
  arg_list_item : option string;
  arg_required : bool;
  arg_item_type : option json
}.

(** [CLIArg(name, arg_type, description, path, arg_format, list_item=...)]:
    a new argument is neither required nor a list. *)
Definition new_CLIArg (name : string) (ty : json) (description path : string)
           (fmt : json) (list_item : option string) : CLIArg :=
  mk_CLIArg name ty description path fmt list_item false None.

Definition set_required (a : CLIArg) : CLIArg :=
  mk_CLIArg (arg_name a) (arg_type a) (arg_description a) (arg_path a)
            (arg_format a) (arg_list_item a) true (arg_item_type a).

Definition set_arg_item_type (t : json) (a : CLIArg) : CLIArg :=
  mk_CLIArg (arg_name a) (arg_type a) (arg_description a) (arg_path a)
            (arg_format a) (arg_list_item a) (arg_required a) (Some t).

(** The spec gives [actionAliases] as a list of names: the [None] that
    [bake] passes for an operation with a single name is the empty list. *)
Record CLIOperation : Type := mk_CLIOperation {
  op_command : string;
  op_action : string;
  op_method : string;
  op_url : string;
  op_summary : json;
  op_args : list CLIArg;
  op_response_model : option ResponseModel;
  op_params : list URLParam;
  op_servers : list json;
  op_docs_url : option string;
  op_allowed_defaults : json;
  op_action_aliases : list json
}.

Definition new_CLIOperation (command action m url : string) (summary : json)
           (cli_args : list CLIArg) (response_model : option ResponseModel)
           (params : list URLParam) (servers : list json)
           (docs_url : option string) (allowed_defaults : json)
           (action_aliases : option (list json)) : CLIOperation :=
  mk_CLIOperation command action m url summary cli_args response_model
                  params servers docs_url allowed_defaults
                  (match action_aliases with Some l => l | None => [] end).

Definition METHODS : list string := ["get"; "post"; "put"; "delete"].

(* ------------------------------------------------------------------ *)
(** *** Small Python operations used by [bake] *)

(** [len(x)] *)
Definition py_len (x : json) : result nat :=
  match x with
  | JArr l => Ok (List.length l)
  | JObj d => Ok (List.length d)
  | JStr s => Ok (String.length s)
  | _ => Raise TypeError
  end.

(** [x[0]] *)
Definition py_first (x : json) : result json :=
  match x with
  | JArr (v :: _) => Ok v
  | JArr [] => Raise IndexError
  | JStr (String c _) => Ok (JStr (String c EmptyString))
  | JStr EmptyString => Raise IndexError
  | JObj _ => Raise (KeyError "0")
  | _ => Raise TypeError
  end.

(** A value used as a dictionary key. *)
Definition as_key (x : json) : result string :=
  match x with
  | JStr s => Ok s
  | JArr _ | JObj _ => Raise TypeError
  | _ => Raise Unmodelled
  end.

(** [[c["url"] for c in servers]] *)
Definition server_urls (servers : json) : result (list json) :=
  cs <- py_iter servers ;;
  mapM (fun c => py_getitem c "url") cs.

(** [str.lower] on one character.  Below 256 the upper-case letters are
    [A] to [Z] and the code points 192 to 222 without 215, the
    multiplication sign; each has its lower-case letter 32 places on, and
    no other character changes. *)
Definition lower_char (c : ascii) : ascii :=
  let n := nat_of_ascii c in
  if ((65 <=? n)%nat && (n <=? 90)%nat)
     || ((192 <=? n)%nat && (n <=? 222)%nat && negb (n =? 215)%nat)
  then ascii_of_nat (n + 32) else c.

Definition is_lower_or_space (c : ascii) : bool :=
  let n := nat_of_ascii c in
  ((97 <=? n)%nat && (n <=? 122)%nat) || (n =? 32)%nat.

Fixpoint str_map (f : ascii -> ascii) (s : string) : string :=
  match s with
  | EmptyString => EmptyString
  | String c s' => String (f c) (str_map f s')
  end.

Fixpoint str_filter (f : ascii -> bool) (s : string) : string :=
  match s with
  | EmptyString => EmptyString
  | String c s' => if f c then String c (str_filter f s') else str_filter f s'
  end.

(** [CLI._flatten_url_path]: lower-case, drop what is not a letter or a
    space, turn spaces into hyphens. *)
Definition _flatten_url_path (tag : json) : result string :=
  match tag with
  | JStr t =>
      Ok (str_replace " " "-" (str_filter is_lower_or_space (str_map lower_char t)))
  | _ => Raise AttributeError
  end.

(** Lines 233-241: the documentation URL. *)
Definition docs_url_of (op : json) (summary : json) : result (option string) :=
  tags <- py_get op "tags" JNull ;;
  match tags with
  | JNull => Ok None
  | _ =>
      n <- py_len tags ;;
      if (0 <? n)%nat then
        k <- py_len summary ;;
        if (0 <? k)%nat then
          t0 <- py_first tags ;;
          tag_path <- _flatten_url_path t0 ;;
          summary_path <- _flatten_url_path summary ;;
          Ok (Some ("https://www.linode.com/docs/api/" ++ tag_path ++ "/#"
                    ++ summary_path)%string)
        else Ok None
      else Ok None
  end.

(** Replace the value at a location of the document; the location is one
    the value was read from. *)
Fixpoint set_at (loc : list string) (v : json) (doc : json) : json :=
  match loc with
  | [] => v
  | k :: loc' =>
      match doc with
      | JObj d =>
          match dict_get k d with
          | Some sub => JObj (dict_set k (set_at loc' v sub) d)
          | None => doc
          end
      | _ => doc
      end
  end.

(* ================================================================== *)
(** ** Operation Compiler *)

(** [required_fields += x] *)
Definition iadd (rf x : json) : result json :=
  match rf with
  | JArr l => xs <- py_iter x ;; Ok (JArr (l ++ xs))
  | JStr s => match x with
              | JStr t => Ok (JStr (s ++ t))
              | _ => Raise TypeError
              end
  | JBool _ | JInt _ | JFloat _ _ =>
      match x with
      | JBool _ | JInt _ | JFloat _ _ => Raise Unmodelled
      | _ => Raise TypeError
      end
  | JNull | JObj _ => Raise TypeError
  end.

(** [if "required" in body_schema: required_fields += body_schema["required"]].
    [same] says that [required_fields] is the very list stored in
    [body_schema], which [+=] extends in place. *)
Definition add_required (rf schema : json) (same : bool) : result json :=
  has <- py_in "required" schema ;;
  if has then
    x <- (if same then Ok rf else py_getitem schema "required") ;;
    iadd rf x
  else Ok rf.

Definition is_arr (x : json) : bool :=
  match x with JArr _ => true | _ => false end.

(** Lines 262-276.  Returns [required_fields], the node handed to
    [_parse_args], and the body schema as the in-place [+=] leaves it. *)
Definition gather_required (spec raw : json) : result (json * json * json) :=
  has0 <- py_in "required" raw ;;
  rf <- (if has0 then py_getitem raw "required" else Ok (JArr [])) ;;
  let shared := has0 && is_arr rf in
  has_allOf <- py_in "allOf" raw ;;
  schema <- (if has_allOf
             then a <- py_getitem raw "allOf" ;; _resolve_allOf spec a
             else Ok raw) ;;
  let is_raw := negb has_allOf in
  rf <- add_required rf schema (shared && is_raw) ;;
  has_ref <- py_in "$ref" schema ;;
  schema <- (if has_ref
             then r <- py_getitem schema "$ref" ;; _resolve_ref spec r
             else Ok schema) ;;
  let is_raw := is_raw && negb has_ref in
  rf <- add_required rf schema (shared && is_raw) ;;
  has_props <- py_in "properties" schema ;;
  schema <- (if has_props then py_getitem schema "properties" else Ok schema) ;;
  let is_raw := is_raw && negb has_props in
  rf <- add_required rf schema (shared && is_raw) ;;
  Ok (rf, schema,
      match raw with
      | JObj d => if shared then JObj (dict_set "required" rf d) else raw
      | _ => raw
      end).

(** Lines 249-278: the request body of a [post] or [put]. *)
Definition compile_request (fuel : nat) (spec : json) (op_loc : list string)
           (m : string) (op : json)
  : result (args_t * json * json * json) :=
  has_body <- (if String.eqb m "post" || String.eqb m "put"
               then py_in "requestBody" op else Ok false) ;;
  if has_body then
    body <- py_getitem op "requestBody" ;;
    allowed_defaults <- py_get body "x-linode-cli-allowed-defaults" JNull ;;
    content <- py_getitem body "content" ;;
    is_json <- py_in "application/json" content ;;
    if is_json then
      cj <- py_getitem content "application/json" ;;
      raw <- py_getitem cj "schema" ;;
      '(rf, node, raw') <- gather_required spec raw ;;
      let spec :=
        set_at (op_loc ++ ["requestBody"; "content"; "application/json";
                           "schema"]) raw' spec in
      args <- _parse_args fuel spec node [] [] ;;
      Ok (args, rf, allowed_defaults, spec)
    else Ok ([], JArr [], allowed_defaults, spec)
  else Ok ([], JArr [], JNull, spec).

Definition is_component (loc : list string) : bool :=
  match loc with
  | [a; b; _] => String.eqb a "components" && String.eqb b "schemas"
  | _ => false
  end.

(** Lines 303-306: the response schema with its reference resolved and its
    [allOf] merged into it.  The [update] changes the schema inside the
    document, at the location [loc] it was read from.  Python updates
    whatever the reference leads to, the root of the document or its
    [info] as well; the model follows the update of a schema at
    [#/components/schemas/NAME] and stops with [Unmodelled] at any
    other. *)
Definition resolve_response (spec : json) (loc : list string) (resp_con : json)
  : result (json * json) :=
  has_ref <- py_in "$ref" resp_con ;;
  '(resp_con, loc, via_ref) <-
    (if has_ref
     then r <- py_getitem resp_con "$ref" ;;
          v <- _resolve_ref spec r ;;
          parts <- py_split r "/" ;;
          Ok (v, tl parts, true)
     else Ok (resp_con, loc, false)) ;;
  has_allOf <- py_in "allOf" resp_con ;;
  if has_allOf
  then match resp_con with
       | JObj d =>
           a <- py_getitem resp_con "allOf" ;;
           merged <- _resolve_allOf spec a ;;
           d' <- py_update d merged ;;
           if via_ref && negb (is_component loc) then Raise Unmodelled
           else Ok (JObj d', set_at loc (JObj d') spec)
       | _ => Raise AttributeError      (* no [update] but on a dictionary *)
       end
  else Ok (resp_con, spec).

(** Lines 307-319: through a pagination envelope to the schema of a row. *)
Definition unwrap_envelope (spec : json) (resp_con : json) : result json :=
  has_props <- py_in "properties" resp_con ;;
  in_pages <- (if has_props
               then p <- py_getitem resp_con "properties" ;; py_in "pages" p
               else Ok false) ;;
  resp_con <- (if in_pages then py_getitem resp_con "properties"
               else Ok resp_con) ;;
  has_pages <- py_in "pages" resp_con ;;
  has_data <- (if has_pages then py_in "data" resp_con else Ok false) ;;
  if has_data
  then d <- py_getitem resp_con "data" ;;
       items <- py_getitem d "items" ;;
       item_ref <- py_in "$ref" items ;;
       if item_ref
       then r <- py_getitem items "$ref" ;; _resolve_ref spec r
       else Ok items
  else Ok resp_con.

(** Lines 281-301: the JSON content of the 200 response, if any, and the
    schema that defines the columns, with the place it is stored at. *)
Definition response_content (op_loc : list string) (op : json)
  : result (option (json * json * list string)) :=
  responses <- py_getitem op "responses" ;;
  has200 <- py_in "200" responses ;;
  is_json <- (if has200
              then r200 <- py_getitem responses "200" ;;
                   content <- py_getitem r200 "content" ;;
                   py_in "application/json" content
              else Ok false) ;;
  if is_json then
    r200 <- py_getitem responses "200" ;;
    content <- py_getitem r200 "content" ;;
    cj <- py_getitem content "application/json" ;;
    let cj_loc := op_loc ++ ["responses"; "200"; "content"; "application/json"] in
    schema <- py_getitem cj "schema" ;;
    use <- py_in "x-linode-cli-use-schema" cj ;;
    if use
    then v <- py_getitem cj "x-linode-cli-use-schema" ;;
         Ok (Some (cj, v, cj_loc ++ ["x-linode-cli-use-schema"]))
    else Ok (Some (cj, schema, cj_loc ++ ["schema"]))
  else Ok None.

(** Lines 321-339: the model built from the row schema. *)
Definition model_of_row (fuel : nat) (cj resp_con : json)
  : result (option ResponseModel) :=
  has_props <- py_in "properties" resp_con ;;
  if has_props then
    p <- py_getitem resp_con "properties" ;;
    attrs <- _parse_properties fuel p [] ;;
    rows <- py_get cj "x-linode-cli-rows" JNull ;;
    nested <- py_get cj "x-linode-cli-nested-list" JNull ;;
    Ok (Some (mk_ResponseModel attrs (py_or rows JNull) (py_or nested JNull)))
  else Ok None.

(** Lines 280-339: the response model of the 200/JSON response. *)
Definition compile_response (fuel : nat) (spec : json) (op_loc : list string)
           (op : json) : result (option ResponseModel * json) :=
  found <- response_content op_loc op ;;
  match found with
  | Some (cj, resp_con, loc) =>
      '(resp_con, spec) <- resolve_response spec loc resp_con ;;
      resp_con <- unwrap_envelope spec resp_con ;;
      model <- model_of_row fuel cj resp_con ;;
      Ok (model, spec)
  | None => Ok (None, spec)
  end.

(** Lines 341-359: one [CLIArg] per entry of [args], in order. *)
Definition build_cli_arg (required_fields : json) (kv : string * arg_info)
  : result CLIArg :=
  let (arg, info) := kv in
  pieces <- py_split (ai_desc info) "." ;;
  let new_arg :=
    new_CLIArg (ai_name info) (ai_type info)
               (hd EmptyString pieces ++ ".") arg (ai_format info)
               (ai_list_item info) in
  req <- py_in arg required_fields ;;
  let new_arg := if req then set_required new_arg else new_arg in
  Ok (match ai_item_type info with
      | Some t => set_arg_item_type t new_arg
      | None => new_arg
      end).

Definition build_cli_args (required_fields : json) (args : args_t)
  : result (list CLIArg) :=
  mapM (build_cli_arg required_fields) args.

(** Lines 361-375: parameters whose name is also an argument get an
    underscore, in the parameter and in the URL. *)
Definition collision_step (args : args_t) (acc : list URLParam * string)
           (p : URLParam) : result (list URLParam * string) :=
  let (done, use_path) := acc in
  match param_name p with
  | JStr n =>
      if dict_mem n args
      then Ok (done ++ [mk_URLParam (JStr (n ++ "_")) (param_type p)],
               str_replace ("{" ++ n ++ "}") ("{" ++ n ++ "_}") use_path)
      else Ok (done ++ [p], use_path)
  | JArr _ | JObj _ => Raise TypeError
  | _ => Ok (done ++ [p], use_path)
  end.

Definition collision_pass (args : args_t) (params : list URLParam)
           (path : string) : result (list URLParam * string) :=
  foldM (collision_step args) (map clone params) ([], path).

(** [action = data[m].get("x-linode-cli-action") or data[m].get("operationId")]
    and lines 219-231: the canonical name and the aliases, or nothing when
    the method is skipped with a warning. *)
Definition action_of (op : json) : result (option (json * option (list json))) :=
  a <- py_get op "x-linode-cli-action" JNull ;;
  action <- (if truthy a then Ok a else py_get op "operationId" JNull) ;;
  match action with
  | JNull => Ok None
  | JArr [] => Ok None
  | JArr (first :: others) => Ok (Some (first, Some others))
  | _ => Ok (Some (action, None))
  end.

(** The body of [for m in METHODS] for a method present in [data]. *)
Definition bake_method (fuel : nat) (spec : json) (default_servers : list json)
           (path : string) (data : json) (command : string)
           (params : list URLParam) (m : string)
  : result (option (string * CLIOperation) * json) :=
  op <- py_getitem data m ;;
  skip <- py_get op "x-linode-cli-skip" JNull ;;
  if truthy skip then Ok (None, spec)
  else
    named <- action_of op ;;
    match named with
    | None => Ok (None, spec)
    | Some (action, action_aliases) =>
        s <- py_get op "summary" JNull ;;
        let summary := py_or s (JStr "") in
        docs_url <- docs_url_of op summary ;;
        has_servers <- py_in "servers" op ;;
        use_servers <- (if has_servers
                        then sv <- py_getitem op "servers" ;; server_urls sv
                        else Ok default_servers) ;;
        let op_loc := ["paths"; path; m] in
        '(args, required_fields, allowed_defaults, spec) <-
          compile_request fuel spec op_loc m op ;;
        '(response_model, spec) <- compile_response fuel spec op_loc op ;;
        cli_args <- build_cli_args required_fields args ;;
        '(use_params, use_path) <- collision_pass args params path ;;
        key <- as_key action ;;
        Ok (Some (key,
                  new_CLIOperation command key m use_path summary cli_args
                                   response_model use_params use_servers
                                   docs_url allowed_defaults action_aliases),
            spec)
    end.

(** Lines 203-208: the URL parameters of a path. *)
Definition url_params (spec data : json) : result (list URLParam) :=
  has <- py_in "parameters" data ;;
  if has then
    ps <- py_getitem data "parameters" ;;
    infos <- py_iter ps ;;
    mapM (fun info =>
            has_ref <- py_in "$ref" info ;;
            info <- (if has_ref
                     then r <- py_getitem info "$ref" ;; _resolve_ref spec r
                     else Ok info) ;;
            n <- py_getitem info "name" ;;
            sch <- py_getitem info "schema" ;;
            t <- py_getitem sch "type" ;;
            Ok (mk_URLParam n t))
         infos
  else Ok [].

Definition ops_t : Type := list (string * list (string * CLIOperation)).

(** [self.ops[command][action] = operation] *)
Definition register (command action : string) (o : CLIOperation) (ops : ops_t)
  : result ops_t :=
  match dict_get command ops with
  | Some actions => Ok (dict_set command (dict_set action o actions) ops)
  | None => Raise (KeyError command)
  end.

(** The body of [for path, data in self.spec["paths"].items()]. *)
Definition bake_path (fuel : nat) (default_servers : list json)
           (st : ops_t * json) (kv : string * json) : result (ops_t * json) :=
  let (ops, spec) := st in
  let (path, data) := kv in
  c <- py_get data "x-linode-cli-command" JNull ;;
  command <- as_key (py_or c (JStr "default")) ;;
  let ops := if dict_mem command ops then ops else dict_set command [] ops in
  params <- url_params spec data ;;
  foldM (fun (st : ops_t * json) m =>
           let (ops, spec) := st in
           present <- py_in m data ;;
           if present then
             '(made, spec) <- bake_method fuel spec default_servers path data
                                          command params m ;;
             match made with
             | Some (action, o) =>
                 ops <- register command action o ops ;; Ok (ops, spec)
             | None => Ok (ops, spec)
             end
           else Ok (ops, spec))
        METHODS (ops, spec).

(** What the baked file holds under each key: the actions of a command, or
    one of the two scalars [_base_url] and [_spec_version]. *)
Inductive ops_entry : Type :=
| Actions (a : list (string * CLIOperation))
| Scalar (v : json).

Definition registry : Type := list (string * ops_entry).

(** [bake] up to the point where the file is opened: the registry to be
    pickled. *)
Definition bake_ops (fuel : nat) (spec : json) : result registry :=
  servers <- py_getitem spec "servers" ;;
  default_servers <- server_urls servers ;;
  paths <- py_getitem spec "paths" ;;
  items <- py_items paths ;;
  '(ops, spec) <- foldM (bake_path fuel default_servers) items ([], spec) ;;
  let ops :=
    filter (fun kv => negb (Nat.eqb (List.length (snd kv)) 0)) ops in
  servers <- py_getitem spec "servers" ;;
  s0 <- py_first servers ;;
  base_url <- py_getitem s0 "url" ;;
  info <- py_getitem spec "info" ;;
  version <- py_getitem info "version" ;;
  Ok (dict_set "_spec_version" (Scalar version)
        (dict_set "_base_url" (Scalar base_url)
           (map (fun kv => (fst kv, Actions (snd kv))) ops))).

(** [CLI.bake], on the content of the data file ([None]: no file yet).
    The file is opened and written after the last path has been compiled;
    an exception before that leaves the function at once. *)
Definition bake (fuel : nat) (spec : json) (data_file : option registry)
  : result unit * option registry :=
  match bake_ops fuel spec with
  | Ok ops => (Ok tt, Some ops)
  | Raise e => (Raise e, data_file)
  | OutOfFuel => (OutOfFuel, data_file)
  end.

(* ================================================================== *)
(** ** Request Translator *)

(** [cur[k] = v] *)
Definition py_setitem (cur : json) (k : string) (v : json) : result json :=
  match cur with
  | JObj d => Ok (JObj (dict_set k v d))
  | _ => Raise TypeError
  end.

(** The inner loop of lines 601-607 for one key: walk down [parts],
    creating the dictionaries that are missing, and assign at [last].  The
    dictionaries walked through are changed in place, so each level is
    stored back where it was read. *)
Fixpoint assign_path (parts : list string) (last : string) (v : json)
         (cur : json) : result json :=
  match parts with
  | [] => py_setitem cur last v
  | part :: parts' =>
      present <- py_in part cur ;;
      cur <- (if present then Ok cur else py_setitem cur part (JObj [])) ;;
      sub <- py_getitem cur part ;;
      sub <- assign_path parts' last v sub ;;
      py_setitem cur part sub
  end.

(** Lines 599-607: [expanded_json]. *)
Definition expand_paths (to_json : list (string * json)) : result json :=
  foldM (fun expanded (kv : string * json) =>
           let (k, v) := kv in
           let parts := str_split "." k in
           assign_path (removelast parts) (last parts EmptyString) v expanded)
        to_json (JObj []).

Definition is_None (v : json) : bool :=
  match v with JNull => true | _ => false end.

(** [{k: v for k, v in d.items() if v is not None}] *)
Definition drop_None (d : list (string * json)) : list (string * json) :=
  filter (fun kv => negb (is_None (snd kv))) d.

(** Lines 583-585: [if p.name in filters: del filters[p.name]]. *)
Definition remove_url_param (filters : list (string * json)) (p : URLParam)
  : result (list (string * json)) :=
  match param_name p with
  | JStr n => if dict_mem n filters then dict_del n filters else Ok filters
  | JArr _ | JObj _ => Raise TypeError
  | _ => Ok filters
  end.

(** What [do_request] sends besides the URL: the [X-Filter] header of a
    [get] (when there is one), the body of any other method. *)
Inductive payload : Type :=
| XFilter (f : option json)
| Body (b : json).

Section DoRequest.
(** [self.config.update] of [configuration.py], which overlays saved
    defaults on the parsed arguments. *)
Variable config_update :
  list (string * json) -> json -> list (string * json).

(** [CLI.do_request], lines 574-609.  [parsed_args] is
    [vars(operation.parse_args(args))]. *)
Definition do_request (defaults : bool) (operation : CLIOperation)
           (parsed_args : list (string * json)) (filter_header : option json)
  : result payload :=
  if String.eqb (op_method operation) "get" then
    match filter_header with
    | Some f => Ok (XFilter (Some f))
    | None =>
        filters <- foldM remove_url_param (op_params operation) parsed_args ;;
        let filters := drop_None filters in
        match filters with
        | [] => Ok (XFilter None)
        | _ => Ok (XFilter (Some (JObj filters)))
        end
    end
  else
    let parsed_args :=
      if defaults
      then config_update parsed_args (op_allowed_defaults operation)
      else parsed_args in
    let to_json := drop_None parsed_args in
    expanded_json <- expand_paths to_json ;;
    Ok (Body expanded_json).
End DoRequest.

(* ================================================================== *)
(** ** Dispatch *)

(** [CLI.handle_command] up to the call of [do_request]: the operation it
    goes on with, or [sys.exit(1)]. *)
Definition handle_command (ops : ops_t) (command action : string)
  : result CLIOperation :=
  match dict_get command ops with
  | None => Raise (SystemExit 1)
  | Some actions =>
      match dict_get action actions with
      | Some operation => Ok operation
      | None =>
          match find (fun o => existsb (eq_str action) (op_action_aliases o))
                     (map snd actions) with
          | Some operation => Ok operation
          | None => Raise (SystemExit 1)
          end
      end
  end.

(** [CLI.call_operation] up to the call of [do_request]. *)
Definition call_operation (ops : ops_t) (command action : string)
  : result CLIOperation :=
  match dict_get command ops with
  | None => Raise ValueError
  | Some actions =>
      match dict_get action actions with
      | Some operation => Ok operation
      | None => Raise ValueError
      end
  end.

(* ================================================================== *)
(** ** The claims' own notions *)




(** The character [c] does not occur in [s]. *)
Fixpoint lacks (c : ascii) (s : string) : bool :=
  match s with
  | EmptyString => true
  | String a s' => negb (Ascii.eqb a c) && lacks c s'
  end.

(** The nested shape of a request body, as its schema describes it.  A
    property is a leaf, an object with properties of its own, an object
    put together by [allOf], or a list.  A leaf is a value given as a
    whole: a scalar, an opaque [json] blob, a list without an item schema,
    or a list whose item schema is given in place, names its type and has
    no properties.  [RList] is any other list, a list of objects among
    them: its value is put together from the command line by
    [operation.parse_args], which is not among the sources.  Leaves and
    objects may be read-only. *)
Inductive rtree : Type :=
| RLeaf (read_only : bool)
| RObj (read_only : bool) (fields : list (string * rtree))
| RComposed (fields : list (string * rtree))
| RList.

(** The value at a path of keys below [doc]. *)
Fixpoint lookup_path (segments : list string) (doc : json) : option json :=
  match segments with
  | [] => Some doc
  | key :: rest =>
      match doc with
      | JObj d =>
          match dict_get key d with
          | Some v => lookup_path rest v
          | None => None
          end
      | _ => None
      end
  end.

(** What a pointer such as [#/components/schemas/Disk] stands for: the
    text is cut at every ["/"], the first part names the document, the
    others are the keys to follow from its root. *)
Definition pointer_target (spec : json) (pointer : string) : option json :=
  lookup_path (tl (str_split "/" pointer)) spec.











(** The paths, as lists of segments, of the leaves that are not
    read-only. *)
Fixpoint leaves (t : rtree) : list (list string) :=
  match t with
  | RLeaf ro => if ro then [] else [[]]
  | RObj _ fields =>
      flat_map (fun kv => map (cons (fst kv)) (leaves (snd kv))) fields
  | RComposed fields =>
      flat_map (fun kv => map (cons (fst kv)) (leaves (snd kv))) fields
  | RList => []
  end.

Definition leaves_fields (fields : list (string * rtree))
  : list (list string) :=
  flat_map (fun kv => map (cons (fst kv)) (leaves (snd kv))) fields.







(** A path template seen as literal text and placeholders. *)
Inductive token : Type :=
| Lit (s : string)
| Hole (name : string).

Definition render_token (t : token) : string :=
  match t with
  | Lit s => s
  | Hole n => "{" ++ n ++ "}"
  end.

Fixpoint render (ts : list token) : string :=
  match ts with
  | [] => EmptyString
  | t :: ts' => render_token t ++ render ts'
  end.

Definition brace_free (s : string) : bool := lacks "{" s && lacks "}" s.

Definition wf_token (t : token) : bool :=
  match t with
  | Lit s => brace_free s
  | Hole n => brace_free n
  end.

(** The name a URL parameter or a placeholder ends up with: an underscore
    is appended when the name is the path of an argument and the name of
    one of the URL parameters. *)
Definition disambiguate (args : args_t) (names : list string) (n : string)
  : string :=
  if dict_mem n args && existsb (String.eqb n) names then n ++ "_" else n.

Definition disambiguate_token (args : args_t) (names : list string)
           (t : token) : token :=
  match t with
  | Lit s => Lit s
  | Hole n => Hole (disambiguate args names n)
  end.

Definition disambiguate_param (args : args_t) (names : list string)
           (p : URLParam) : URLParam :=
  match param_name p with
  | JStr n => mk_URLParam (JStr (disambiguate args names n)) (param_type p)
  | _ => p
  end.

(** The collision invariant as the spec words it: after the collision
    pass, no URL parameter is named as the first segment of an argument's
    dotted path. *)
Definition collision_invariant (args : args_t) (params : list URLParam)
           (path : string) : Prop :=
  forall use_params use_path p k,
    collision_pass args params path = Ok (use_params, use_path) ->
    In p use_params -> In k (keys args) ->
    param_name p <> JStr (hd EmptyString (str_split "." k)).

(* ================================================================== *)
(** ** Notions of the statements and proofs, and sample data *)

(** An [allOf] of two members that both define [size]: an object, then a
    reference to the component [Disk] of [disk_document]. *)
Definition two_member_allOf : list json :=
  [ JObj [("properties", JObj [("label", JObj [("type", JStr "string")]);
                              ("size", JObj [("type", JStr "string")])])];
    JObj [("$ref", JStr "#/components/schemas/Disk")] ].

Definition disk_document : json :=
  JObj [("components",
         JObj [("schemas",
                JObj [("Disk",
                       JObj [("properties",
                              JObj [("size", JObj [("type", JStr "integer")])])])])])].

(** The properties map of the list-of-objects scenario. *)
Definition disks_schema : json :=
  JObj [("disks",
         JObj [("type", JStr "array");
               ("items",
                JObj [("type", JStr "object");
                      ("properties",
                       JObj [("label", JObj [("type", JStr "string")]);
                             ("size", JObj [("type", JStr "integer")])])])])].

(** The scenario of the URL parameter [region] given together with
    [label]. *)
Definition region_param : URLParam := mk_URLParam (JStr "region") (JStr "string").

Definition region_operation (m : string) : CLIOperation :=
  new_CLIOperation "things" "update" m "/things/{region}" (JStr "") []
                   None [region_param] [] None JNull None.

Definition region_arguments : list (string * json) :=
  [("region", JStr "us-east"); ("label", JStr "x")].

(** A document whose first path compiles and whose second path refers to a
    component that does not exist. *)
Definition broken_document : json :=
  JObj [("servers", JArr [JObj [("url", JStr "https://api.example/v4")]]);
        ("info", JObj [("version", JStr "1.0.0")]);
        ("paths",
         JObj [("/things",
                JObj [("get", JObj [("operationId", JStr "list");
                                    ("responses", JObj [])])]);
               ("/things/{id}",
                JObj [("put",
                       JObj [("operationId", JStr "update");
                             ("requestBody",
                              JObj [("content",
                                     JObj [("application/json",
                                            JObj [("schema",
                                                   JObj [("$ref",
                                                          JStr "#/components/schemas/Missing")])])])]);
                             ("responses", JObj [])])])]);
        ("components", JObj [("schemas", JObj [])])].

Definition earlier_registry : registry :=
  [("_base_url", Scalar (JStr "https://api.example/v4"));
   ("_spec_version", Scalar (JStr "0.9.0"))].

(** [s] is [d] cut before its first full stop, with a full stop put at the
    end: [d] is [first ++ rest], there is no ["."] in [first], [rest] is
    empty or begins with ["."], and [s] is [first ++ "."]. *)
Definition first_sentence (d s : string) : Prop :=
  exists first rest : string,
    d = (first ++ rest)%string /\
    contains "." first = false /\
    (rest = EmptyString \/ exists r, rest = String "." r) /\
    s = (first ++ ".")%string.



(** A registry in which the operation [list] has the alias [ls]. *)
Definition plain_operation (command action : string)
           (aliases : option (list json)) : CLIOperation :=
  new_CLIOperation command action "get" "/linode/instances" (JStr "") []
                   None [] [] None JNull aliases.

Definition aliased_registry : ops_t :=
  [("linodes",
    [("view", plain_operation "linodes" "view" None);
     ("list", plain_operation "linodes" "list" (Some [JStr "ls"]));
     ("create", plain_operation "linodes" "create" None)])].

(** The claim as the spec words it: every alias resolves as the canonical
    name does. *)
Definition alias_resolves_as_canonical (ops : ops_t) : Prop :=
  forall command actions canonical o alias,
    dict_get command ops = Some actions ->
    dict_get canonical actions = Some o ->
    In (JStr alias) (op_action_aliases o) ->
    handle_command ops command alias = handle_command ops command canonical.

(** An operation registered under the name [ls] takes precedence over the
    alias [ls] of the operation [list]. *)
Definition shadowed_registry : ops_t :=
  [("linodes",
    [("list", plain_operation "linodes" "list" (Some [JStr "ls"]));
     ("ls", plain_operation "linodes" "ls" None)])].



(** Rename the placeholders called [n]. *)
Definition rename_hole (n : string) (t : token) : token :=
  match t with
  | Lit s => Lit s
  | Hole m => Hole (if String.eqb m n then n ++ "_" else m)
  end.

(** No colliding parameter is named as another colliding parameter with an
    underscore appended. *)
Definition no_chain (args : args_t) (names : list string) : Prop :=
  forall n, In n names -> dict_mem n args = true ->
            In (n ++ "_")%string names ->
            dict_mem (n ++ "_") args = true -> False.

(** Two top-level arguments, [region] and [label]. *)
Definition region_entries : args_t :=
  [("region", mk_arg_info (JStr "string") (JStr "") "region" JNull None None);
   ("label", mk_arg_info (JStr "string") (JStr "") "label" JNull None None)].

(** The body schema with the object [region], whose one property is [id];
    the URL parameter [region] keeps its name beside the argument
    [region.id]. *)
Definition nested_region_schema : json :=
  JObj [("region",
         JObj [("properties", JObj [("id", JObj [("type", JStr "string")])])])].

Definition nested_region_entries : args_t :=
  [("region.id", mk_arg_info (JStr "string") (JStr "") "id" JNull None None)].

(** The body schema with the two properties [region] and [region_]. *)
Definition underscore_schema : json :=
  JObj [("region", JObj [("type", JStr "string")]);
        ("region_", JObj [("type", JStr "string")])].

Definition underscore_entries : args_t :=
  [("region", mk_arg_info (JStr "string") (JStr "") "region" JNull None None);
   ("region_",
    mk_arg_info (JStr "string") (JStr "") "region_" JNull None None)].






(** The body of the loop of [_parse_args], with the recursive calls as a
    parameter. *)
Definition parse_step
           (rec : json -> list string -> args_t -> result args_t)
           (fuel : nat) (spec : json) (prefix : list string)
           (args : args_t) (kv : string * json) : result args_t :=
  let (arg, info) := kv in
  info <- resolve_property fuel spec info ;;
  has_props <- py_in "properties" info ;;
  if has_props then
    sub <- py_getitem info "properties" ;;
    rec sub (prefix ++ [arg]) args
  else
    ro <- py_get info "readOnly" JNull ;;
    if truthy ro then Ok args
    else
      '(info, entry) <- leaf_entry spec arg info ;;
      let path := str_join "." (prefix ++ [arg]) in
      let args := dict_set path entry args in
      if eq_str "json" (ai_format entry) then
        Ok (dict_set path (set_type (JStr "object") entry) args)
      else
        has_items <- (if eq_str "array" (ai_type entry)
                      then py_in "items" info else Ok false) ;;
        if has_items then
          '(item_type, item_props) <- list_items spec info ;;
          let args := dict_set path (set_item_type item_type entry) args in
          match item_props with
          | Some item_props =>
              item_args <- rec item_props (prefix ++ [arg]) [] ;;
              dict_del path (dict_update args (tag_list_item path item_args))
          | None => Ok args
          end
        else Ok args.

(** What the loop does with a property once it is resolved. *)
Definition parse_rest
           (rec : json -> list string -> args_t -> result args_t)
           (spec : json) (prefix : list string) (args : args_t)
           (arg : string) (info : json) : result args_t :=
  has_props <- py_in "properties" info ;;
  if has_props then
    sub <- py_getitem info "properties" ;;
    rec sub (prefix ++ [arg]) args
  else
    ro <- py_get info "readOnly" JNull ;;
    if truthy ro then Ok args
    else
      '(info, entry) <- leaf_entry spec arg info ;;
      let path := str_join "." (prefix ++ [arg]) in
      let args := dict_set path entry args in
      if eq_str "json" (ai_format entry) then
        Ok (dict_set path (set_type (JStr "object") entry) args)
      else
        has_items <- (if eq_str "array" (ai_type entry)
                      then py_in "items" info else Ok false) ;;
        if has_items then
          '(item_type, item_props) <- list_items spec info ;;
          let args := dict_set path (set_item_type item_type entry) args in
          match item_props with
          | Some item_props =>
              item_args <- rec item_props (prefix ++ [arg]) [] ;;
              dict_del path (dict_update args (tag_list_item path item_args))
          | None => Ok args
          end
        else Ok args.


Definition paths (prefix : list string) (fields : list (string * rtree))
  : list string :=
  map (fun segs => str_join "." (prefix ++ segs)) (leaves_fields fields).







(* ================================================================== *)
(** ** Further notions: references *)

(** The text of a reference with the given segments after its first one. *)
Definition ref_text (first : string) (segments : list string) : string :=
  String.concat "/" (first :: segments).

(* ================================================================== *)
(** ** Further notions: the flatteners' entries *)

(** What type, format and item type of one argument entry have to do with
    each other. *)
Definition typed_entry (e : arg_info) : Prop :=
  truthy (ai_type e) = true /\
  (ai_format e = JStr "json" ->
   ai_type e = JStr "object" /\ ai_item_type e = None) /\
  (ai_item_type e <> None -> ai_type e = JStr "array").

(** Where an entry sits below the prefix [p0]: its key ends in its own
    name, and a list it belongs to lies strictly between the two. *)
Definition placed_entry (p0 : list string) (k : string) (e : arg_info)
  : Prop :=
  (exists rest, k = str_join "." (p0 ++ rest ++ [ai_name e])) /\
  (forall p, ai_list_item e = Some p ->
     exists r1 r2, r1 <> [] /\ r2 <> [] /\
       p = str_join "." (p0 ++ r1) /\ k = str_join "." (p0 ++ r1 ++ r2)).

Definition entry_ok (p0 : list string) (kv : string * arg_info) : Prop :=
  typed_entry (snd kv) /\ placed_entry p0 (fst kv) (snd kv).

(** One round of the loop of [_parse_properties], with the recursive call
    as a parameter. *)
Definition attr_step (rec : json -> list string -> result (list ModelAttr))
           (prefix : list string) (attrs : list ModelAttr)
           (kv : string * json) : result (list ModelAttr) :=
  let (name, info) := kv in
  has_props <- py_in "properties" info ;;
  if has_props then
    sub <- py_getitem info "properties" ;;
    more <- rec sub (prefix ++ [name]) ;;
    Ok (attrs ++ more)
  else
    item_container <- py_get info "items" JNull ;;
    item_type <- (if truthy item_container
                  then py_get item_container "type" JNull
                  else Ok JNull) ;;
    filterable <- py_get info "x-linode-filterable" JNull ;;
    display <- py_get info "x-linode-cli-display" JNull ;;
    ty <- py_get info "type" JNull ;;
    color <- py_get info "x-linode-cli-color" JNull ;;
    Ok (attrs ++
        [mk_ModelAttr (str_join "." (prefix ++ [name]))
                      (py_or filterable (JBool false))
                      (py_or display (JBool false))
                      (py_or ty (JStr "string"))
                      color item_type]).

(** How deep a document nests. *)
Fixpoint depth (j : json) : nat :=
  match j with
  | JObj d => S (list_max (map (fun kv => depth (snd kv)) d))
  | JArr l => S (list_max (map depth l))
  | _ => 0
  end.

(** A document whose component [Loop] is a reference to itself, and a
    body schema with a property that refers to it. *)
Definition loop_document : json :=
  JObj [("components",
         JObj [("schemas",
                JObj [("Loop",
                       JObj [("$ref", JStr "#/components/schemas/Loop")])])])].

Definition loop_property : json :=
  JObj [("$ref", JStr "#/components/schemas/Loop")].

(** A row schema of three columns, the second nested. *)
Definition row_schema_head : list (string * json) :=
  [("id", JObj [("type", JStr "integer")])].

Definition row_schema_tail : list (string * json) :=
  [("specs", JObj [("properties",
                    JObj [("disk", JObj [("type", JStr "integer")])])]);
   ("tags", JObj [("type", JStr "array");
                  ("items", JObj [("type", JStr "string")])])].

(** A body schema with a free-form argument, a list of strings and a list
    of objects. *)
Definition mixed_schema : json :=
  JObj [("config", JObj [("type", JStr "string"); ("format", JStr "json")]);
        ("tags", JObj [("type", JStr "array");
                       ("items", JObj [("type", JStr "string")])]);
        ("disks",
         JObj [("type", JStr "array");
               ("items",
                JObj [("type", JStr "object");
                      ("properties",
                       JObj [("label", JObj [("type", JStr "string")]);
                             ("size", JObj [("type", JStr "integer")])])])])].

Definition config_entry : arg_info :=
  mk_arg_info (JStr "object") (JStr "") "config" (JStr "json") None None.

Definition disk_label_entry : arg_info :=
  mk_arg_info (JStr "string") (JStr "") "label" JNull None (Some "disks").

(* ================================================================== *)
(** ** Further notions: documentation URLs, requests *)

(** Every character of [s] passes [f]. *)
Fixpoint str_forallb (f : ascii -> bool) (s : string) : bool :=
  match s with
  | EmptyString => true
  | String c s' => f c && str_forallb f s'
  end.

Definition is_lower_or_hyphen (c : ascii) : bool :=
  let n := nat_of_ascii c in
  ((97 <=? n)%nat && (n <=? 122)%nat) || (n =? 45)%nat.

(** The parsed arguments [do_request] builds a body from: with the saved
    defaults laid over them when defaults are in use. *)
Definition with_defaults
           (config_update : list (string * json) -> json -> list (string * json))
           (defaults : bool) (operation : CLIOperation)
           (parsed_args : list (string * json)) : list (string * json) :=
  if defaults
  then config_update parsed_args (op_allowed_defaults operation)
  else parsed_args.

(** What is left of the parsed arguments of a [get]: no URL parameter, no
    argument that was not given. *)
Definition kept_filters (names : list string)
           (parsed_args : list (string * json)) : list (string * json) :=
  filter (fun kv => negb (existsb (String.eqb (fst kv)) names)
                    && negb (is_None (snd kv)))
         parsed_args.

(** Two operations of a command, a [get] with a URL parameter and a
    [post]. *)
Definition view_operation : CLIOperation :=
  new_CLIOperation "linodes" "view" "get" "/linode/instances/{linodeId}"
                   (JStr "") [] None
                   [mk_URLParam (JStr "linodeId") (JStr "integer")] []
                   None JNull None.

Definition create_operation : CLIOperation :=
  new_CLIOperation "linodes" "create" "post" "/linode/instances" (JStr "")
                   [] None [] [] None JNull None.

(* ================================================================== *)
(** ** Loading what was baked *)

(** The attributes of [CLI] that [load_baked] sets.  [ops] is [None] when
    there is no data file. *)
Record cli_state : Type := mk_cli_state {
  cli_ops : option registry;
  cli_base_url : ops_entry;
  cli_spec_version : ops_entry
}.

(** [if k in self.ops: x = self.ops[k]; del self.ops[k]] *)
Definition take_entry (k : string) (ops : registry) (old : ops_entry)
  : result (registry * ops_entry) :=
  if dict_mem k ops then
    match dict_get k ops with
    | Some v => ops' <- dict_del k ops ;; Ok (ops', v)
    | None => Raise (KeyError k)
    end
  else Ok (ops, old).

(** [CLI.load_baked], on the content of the data file. *)
Definition load_baked (data_file : option registry) (self : cli_state)
  : result cli_state :=
  match data_file with
  | Some ops =>
      '(ops, base_url) <- take_entry "_base_url" ops (cli_base_url self) ;;
      '(ops, spec_version) <-
        take_entry "_spec_version" ops (cli_spec_version self) ;;
      Ok (mk_cli_state (Some ops) base_url spec_version)
  | None =>
      Ok (mk_cli_state None (cli_base_url self) (cli_spec_version self))
  end.

(* ================================================================== *)
(** ** Further notions: the registry *)

(** An operation knows the names it is registered under. *)
Definition named (command action : string) (o : CLIOperation) : Prop :=
  op_command o = command /\ op_action o = action /\
  In (op_method o) METHODS.

Definition ops_ok (ops : ops_t) : Prop :=
  NoDup (keys ops) /\
  Forall (fun ca =>
            Forall (fun ao => named (fst ca) (fst ao) (snd ao)) (snd ca))
         ops.

(** Two documents agree outside [paths] and [components]. *)
Definition top_frame (spec spec' : json) : Prop :=
  forall k, k <> "paths" -> k <> "components" ->
            py_getitem spec' k = py_getitem spec k.

Definition baked_entry_ok (kv : string * ops_entry) : Prop :=
  match snd kv with
  | Actions acts =>
      acts <> [] /\
      Forall (fun ao => named (fst kv) (fst ao) (snd ao)) acts
  | Scalar _ => True
  end.

(** A document with two paths under the command [things]. *)
Definition label_body : json :=
  JObj [("content",
         JObj [("application/json",
                JObj [("schema",
                       JObj [("properties",
                              JObj [("label",
                                     JObj [("type", JStr "string")])])])])])].

Definition things_path : json :=
  JObj [("x-linode-cli-command", JStr "things");
        ("get", JObj [("operationId", JStr "list");
                      ("responses", JObj [])]);
        ("post", JObj [("operationId", JStr "create");
                       ("requestBody", label_body);
                       ("responses", JObj [])])].

Definition thing_path : json :=
  JObj [("x-linode-cli-command", JStr "things");
        ("parameters",
         JArr [JObj [("name", JStr "id");
                     ("schema", JObj [("type", JStr "integer")])]]);
        ("delete", JObj [("operationId", JStr "delete");
                         ("requestBody", label_body);
                         ("responses", JObj [])])].

Definition things_document : json :=
  JObj [("servers", JArr [JObj [("url", JStr "https://api.example/v4")]]);
        ("info", JObj [("version", JStr "1.0.0")]);
        ("paths",
         JObj [("/things", things_path);
               ("/things/{id}", thing_path);
               ("/unused", JObj [("x-linode-cli-command", JStr "unused")])]);
        ("components", JObj [("schemas", JObj [])])].

Definition things_list : CLIOperation :=
  new_CLIOperation "things" "list" "get" "/things" (JStr "") [] None []
                   [JStr "https://api.example/v4"] None JNull None.

Definition things_create : CLIOperation :=
  new_CLIOperation "things" "create" "post" "/things" (JStr "")
                   [new_CLIArg "label" (JStr "string") "." "label" JNull None]
                   None [] [JStr "https://api.example/v4"] None JNull None.

Definition things_delete : CLIOperation :=
  new_CLIOperation "things" "delete" "delete" "/things/{id}" (JStr "") []
                   None [mk_URLParam (JStr "id") (JStr "integer")]
                   [JStr "https://api.example/v4"] None JNull None.

Definition things_actions : list (string * CLIOperation) :=
  [("list", things_list); ("create", things_create);
   ("delete", things_delete)].

Definition things_registry : registry :=
  [("things", Actions things_actions);
   ("_base_url", Scalar (JStr "https://api.example/v4"));
   ("_spec_version", Scalar (JStr "1.0.0"))].

Definition fresh_cli : cli_state :=
  mk_cli_state (Some []) (Scalar (JStr "https://api.linode.com/v4"))
               (Scalar (JStr "None")).

(* ================================================================== *)
(** ** Further notions: columns, the required list *)

(** What every column of [_parse_properties] satisfies below the prefix
    [p0]: a type, flags that are set or [False], and a name that is a
    dotted path below the prefix. *)
Definition column_ok (p0 : list string) (a : ModelAttr) : Prop :=
  truthy (attr_datatype a) = true /\
  attr_filterable a <> JNull /\
  attr_display a <> JNull /\
  exists rest, rest <> [] /\ attr_name a = str_join "." (p0 ++ rest).

(** A body schema given in place, with a [required] list. *)
Definition labelled_schema : list (string * json) :=
  [("required", JArr [JStr "label"]);
   ("properties", JObj [("label", JObj [("type", JStr "string")])])].

(* ================================================================== *)
(** ** Further notions: schemas both flatteners read alike *)

(** A property made of objects and plain leaves only: no [allOf], no
    reference, and at a leaf no [readOnly], no format [json], no list with
    [items]. *)
Inductive simple_info : json -> Prop :=
| simple_leaf d :
    dict_get "allOf" d = None ->
    dict_get "$ref" d = None ->
    dict_get "properties" d = None ->
    truthy (get_or d "readOnly" JNull) = false ->
    eq_str "json" (get_or d "x-linode-cli-format" (get_or d "format" JNull))
    = false ->
    eq_str "array" (py_or (get_or d "type" JNull) (JStr "string"))
    && dict_mem "items" d = false ->
    simple_info (JObj d)
| simple_object d sub :
    dict_get "allOf" d = None ->
    dict_get "$ref" d = None ->
    dict_get "properties" d = Some (JObj sub) ->
    Forall (fun kv => simple_info (snd kv)) sub ->
    simple_info (JObj d).

(** A properties map with a leaf and a nested object. *)
Definition specs_schema : list (string * json) :=
  [("id", JObj [("type", JStr "integer")]);
   ("specs", JObj [("properties",
                    JObj [("disk", JObj [("type", JStr "integer")])])])].

(* ================================================================== *)
(** ** The claims' own notions: the schema an argument comes from *)

(** The schema a property stands for: its own, or the one its chain of
    references ends in. *)
Inductive ends_in (spec : json) : json -> json -> Prop :=
| ends_here d :
    dict_get "$ref" d = None -> ends_in spec (JObj d) (JObj d)
| ends_step d r target node :
    dict_get "$ref" d = Some (JStr r) ->
    pointer_target spec r = Some target ->
    ends_in spec target node ->
    ends_in spec (JObj d) node.

(** The item schema of a list: the one given, or the one it refers to. *)
Definition item_schema (spec : json) (items : list (string * json))
  : option json :=
  match dict_get "$ref" items with
  | Some (JStr r) => pointer_target spec r
  | Some _ => None
  | None => Some (JObj items)
  end.

(** Where in a properties map the schema of a path of names is found:
    at the property of the first name, then down the properties of
    objects and of list items.  The schema found is the one the last
    property stands for.  There is none to point at ([None]) once the way
    leads through a property given by [allOf], which stands for no single
    schema. *)
Inductive source_at (spec : json)
  : list (string * json) -> list string -> option json -> Prop :=
| at_composed props name d rest :
    In (name, JObj d) props ->
    dict_get "allOf" d <> None ->
    source_at spec props (name :: rest) None
| at_leaf props name d node :
    In (name, JObj d) props ->
    dict_get "allOf" d = None ->
    ends_in spec (JObj d) (JObj node) ->
    dict_get "properties" node = None ->
    source_at spec props [name] (Some (JObj node))
| at_field props name d node sub path o :
    In (name, JObj d) props ->
    dict_get "allOf" d = None ->
    ends_in spec (JObj d) (JObj node) ->
    dict_get "properties" node = Some (JObj sub) ->
    source_at spec sub path o ->
    source_at spec props (name :: path) o
| at_item props name d node items target sub path o :
    In (name, JObj d) props ->
    dict_get "allOf" d = None ->
    ends_in spec (JObj d) (JObj node) ->
    dict_get "properties" node = None ->
    dict_get "items" node = Some (JObj items) ->
    dict_get "allOf" items = None ->
    item_schema spec items = Some (JObj target) ->
    dict_get "properties" target = Some (JObj sub) ->
    source_at spec sub path o ->
    source_at spec props (name :: path) o.

(** The text [d] is the description a schema carries: its [description],
    or the empty text when it has none or one that counts as false. *)
Definition schema_description (schema : json) (d : string) : Prop :=
  match schema with
  | JObj node =>
      match dict_get "description" node with
      | Some (JStr text) => d = text
      | Some v => if truthy v then False else d = EmptyString
      | None => d = EmptyString
      end
  | _ => False
  end.

(** The claim as the spec words it, for the properties of a body schema:
    the argument of a property that carries a description has the first
    sentence of that description. *)
Definition own_description_kept (fuel : nat) (spec : json)
           (props : list (string * json)) : Prop :=
  forall args cli_args required_fields name d text a,
    _parse_args fuel spec (JObj props) [] [] = Ok args ->
    build_cli_args required_fields args = Ok cli_args ->
    In (name, JObj d) props ->
    dict_get "description" d = Some (JStr text) ->
    In a cli_args -> arg_path a = name ->
    first_sentence text (arg_description a).

(** What an entry's description has to be, given where it comes from. *)
Definition described_by (origin : option json) (desc : json) : Prop :=
  match origin with
  | Some (JObj node) =>
      desc = py_or (get_or node "description" JNull) (JStr "")
  | Some _ => False
  | None => True
  end.

Definition described (spec : json) (props : list (string * json))
           (prefix : list string) (k : string) (desc : json) : Prop :=
  exists path origin,
    k = str_join "." (prefix ++ path) /\
    source_at spec props path origin /\
    described_by origin desc.

(** A document and a body schema with descriptions: on a property given in
    place, on a property of a component referred to, on a property of the
    items of a list, and on a property given through [allOf]. *)
Definition described_document : json :=
  JObj [("components",
         JObj [("schemas",
                JObj [("Disk",
                       JObj [("properties",
                              JObj [("size",
                                     JObj [("type", JStr "integer");
                                           ("description",
                                            JStr "Size in MB. At least 1.")])])])])])].

Definition volume_items : json :=
  JObj [("type", JStr "object");
        ("properties",
         JObj [("name", JObj [("type", JStr "string");
                              ("description", JStr "Its name.")])])].

Definition described_schema : list (string * json) :=
  [("label", JObj [("type", JStr "string");
                   ("description",
                    JStr "The label of the disk. It must be unique.")]);
   ("disk", JObj [("$ref", JStr "#/components/schemas/Disk")]);
   ("volumes", JObj [("type", JStr "array"); ("items", volume_items)]);
   ("tags", JObj [("type", JStr "array");
                  ("items", JObj [("type", JStr "string")])])].

Definition composed_described_schema : list (string * json) :=
  [("disk",
    JObj [("allOf", JArr [JObj [("$ref", JStr "#/components/schemas/Disk")]]);
          ("description", JStr "The disk. Its size is fixed.")])].

(* ================================================================== *)
(** * Properties *)

(** ** The outcome monad *)

Lemma bind_Ok {A B} (m : result A) (k : A -> result B) (b : B) :
  bind m k = Ok b -> exists a, m = Ok a /\ k a = Ok b.
Proof.
  destruct m as [a| |]; simpl; intro H; try discriminate.
  exists a; split; [reflexivity | exact H].
Qed.

Lemma bind_ext {A B} (m : result A) (k k' : A -> result B) :
  (forall a, k a = k' a) -> bind m k = bind m k'.
Proof. intro H. destruct m; simpl; auto. Qed.

(** Peel the successful steps of a computation found in hypothesis [H]. *)
Ltac inv_bind H :=
  let a := fresh "x" in
  let E := fresh "E" in
  apply bind_Ok in H; destruct H as [a [E H]].

Tactic Notation "bind_inv" hyp(H) "as" ident(a) ident(E) :=
  apply bind_Ok in H; destruct H as [a [E H]].

Lemma foldM_app {A B} (step : B -> A -> result B) (l1 l2 : list A) (acc : B) :
  foldM step (l1 ++ l2) acc = bind (foldM step l1 acc) (foldM step l2).
Proof.
  revert acc; induction l1 as [|x l1 IH]; intro acc; simpl.
  - reflexivity.
  - destruct (step acc x) as [acc'| |]; simpl; auto.
Qed.

Lemma mapM_Forall2 {A B} (f : A -> result B) (l : list A) (l' : list B) :
  mapM f l = Ok l' -> Forall2 (fun x y => f x = Ok y) l l'.
Proof.
  revert l'; induction l as [|x l IH]; simpl; intros l' H.
  - inversion H; constructor.
  - inv_bind H. inv_bind H. inversion H; subst.
    constructor; auto.
Qed.

(** ** Dictionaries *)

Section DictFacts.
Variable V : Type.
Implicit Types (d e : list (string * V)) (k : string) (v : V).

Lemma dict_get_set_same k v d : dict_get k (dict_set k v d) = Some v.
Proof.
  induction d as [|[k' v'] d IH]; simpl.
  - rewrite String.eqb_refl; reflexivity.
  - destruct (String.eqb k k') eqn:E; simpl.
    + rewrite String.eqb_refl; reflexivity.
    + rewrite E; exact IH.
Qed.

Lemma dict_get_set_other k k' v d :
  k <> k' -> dict_get k (dict_set k' v d) = dict_get k d.
Proof.
  intro Hne. induction d as [|[k2 v2] d IH]; simpl.
  - apply String.eqb_neq in Hne; rewrite Hne; reflexivity.
  - destruct (String.eqb k' k2) eqn:E; simpl.
    + apply String.eqb_eq in E; subst k2.
      apply String.eqb_neq in Hne; rewrite Hne; reflexivity.
    + destruct (String.eqb k k2); auto.
Qed.

Lemma dict_get_None_notin k d : dict_get k d = None <-> ~ In k (keys d).
Proof.
  induction d as [|[k' v'] d IH]; simpl.
  - tauto.
  - destruct (String.eqb k k') eqn:E.
    + apply String.eqb_eq in E; subst; split; [discriminate | tauto].
    + apply String.eqb_neq in E. rewrite IH. split.
      * intros H [H1 | H1]; [congruence | tauto].
      * tauto.
Qed.

Lemma dict_set_notin k v d :
  dict_get k d = None -> dict_set k v d = d ++ [(k, v)].
Proof.
  induction d as [|[k' v'] d IH]; simpl; [reflexivity|].
  destruct (String.eqb k k'); [discriminate|].
  intro H; rewrite IH; auto.
Qed.

Lemma dict_get_app k d e :
  dict_get k (d ++ e) =
  match dict_get k d with Some v => Some v | None => dict_get k e end.
Proof.
  induction d as [|[k' v'] d IH]; simpl; [reflexivity|].
  destruct (String.eqb k k'); auto.
Qed.

Lemma dict_update_get_notin k d e :
  dict_get k e = None -> dict_get k (dict_update d e) = dict_get k d.
Proof.
  unfold dict_update. revert d.
  induction e as [|[k' v'] e IH]; simpl; intros d Hk; [reflexivity|].
  destruct (String.eqb k k') eqn:E; [discriminate|].
  rewrite IH by assumption.
  apply dict_get_set_other. apply String.eqb_neq; assumption.
Qed.

Lemma dict_update_get_in k v d e :
  NoDup (keys e) -> dict_get k e = Some v ->
  dict_get k (dict_update d e) = Some v.
Proof.
  revert d.
  induction e as [|[k' v'] e IH]; simpl; intros d Hnd Hk; [discriminate|].
  inversion Hnd as [|? ? Hnotin Hnd']; subst.
  change (dict_update d ((k', v') :: e))
    with (dict_update (dict_set k' v' d) e).
  destruct (String.eqb k k') eqn:E.
  - apply String.eqb_eq in E; subst k'. inversion Hk; subst v'.
    rewrite dict_update_get_notin.
    + apply dict_get_set_same.
    + apply dict_get_None_notin; assumption.
  - apply IH; assumption.
Qed.
End DictFacts.

(** ** Reference Resolver *)

Lemma member_props_of_properties spec cur data props :
  member_data spec cur = Ok data ->
  py_getitem data "properties" = Ok props ->
  allOf_member_props spec cur = Ok props.
Proof.
  intros Hd Hp. unfold allOf_member_props. rewrite Hd; simpl.
  destruct data; simpl in Hp; try discriminate.
  unfold py_in, dict_mem.
  destruct (dict_get "properties" d) eqn:E; [|discriminate].
  simpl. rewrite E. exact Hp.
Qed.

(** Members that do not define [k] leave the entry of [k] alone. *)
Lemma allOf_fold_keeps spec k (members : list json) :
  Forall (fun m => exists data p,
            member_data spec m = Ok data /\
            py_getitem data "properties" = Ok (JObj p) /\
            dict_get k p = None) members ->
  forall ret ret',
    foldM (fun ret cur =>
             props <- allOf_member_props spec cur ;; py_update ret props)
          members ret = Ok ret' ->
    dict_get k ret' = dict_get k ret.
Proof.
  induction 1 as [|m members [data [p [Hd [Hp Hk]]]] _ IH];
    simpl; intros ret ret' H.
  - inversion H; reflexivity.
  - erewrite member_props_of_properties in H by eassumption. simpl in H.
    apply IH in H. rewrite H. apply dict_update_get_notin; assumption.
Qed.

(** C5 (last-write-wins).  When a member of an [allOf] (through its
    reference, if it is one) is an object whose property map gives [k] the
    definition [v], and no later member defines [k], the merged map gives
    [k] the definition [v], whatever the earlier members say about [k].
    The property map is a dictionary: its keys are distinct. *)
Theorem allOf_last_write_wins :
  forall spec before cur after data props k v ret,
    member_data spec cur = Ok data ->
    py_getitem data "properties" = Ok (JObj props) ->
    NoDup (keys props) ->
    dict_get k props = Some v ->
    Forall (fun m => exists data' p,
              member_data spec m = Ok data' /\
              py_getitem data' "properties" = Ok (JObj p) /\
              dict_get k p = None) after ->
    _resolve_allOf spec (JArr (before ++ cur :: after)) = Ok ret ->
    py_getitem ret k = Ok v.
Proof.
  intros spec before cur after data props k v ret Hd Hp Hnd Hk Hafter H.
  unfold _resolve_allOf in H. simpl in H.
  inv_bind H. inversion H; subst ret; clear H.
  rewrite foldM_app in E. inv_bind E. simpl in E.
  erewrite member_props_of_properties in E by eassumption. simpl in E.
  eapply allOf_fold_keeps in E; [|eassumption].
  simpl. rewrite E. erewrite dict_update_get_in by eassumption. reflexivity.
Qed.

Lemma allOf_last_write_wins_witness :
  exists ret,
    _resolve_allOf disk_document (JArr two_member_allOf) = Ok ret /\
    py_getitem ret "size" = Ok (JObj [("type", JStr "integer")]).
Proof.
  eexists. split; [reflexivity|].
  apply (@allOf_last_write_wins disk_document
           [nth 0 two_member_allOf JNull] (nth 1 two_member_allOf JNull) []
           (JObj [("properties",
                   JObj [("size", JObj [("type", JStr "integer")])])])
           [("size", JObj [("type", JStr "integer")])]
           "size" (JObj [("type", JStr "integer")])).
  - reflexivity.
  - reflexivity.
  - repeat constructor; simpl; tauto.
  - reflexivity.
  - constructor.
  - reflexivity.
Defined.

(** ** Argument Schema Flattener: the list of objects *)

(** C7.  Whatever the document, and with any fuel from two up, the schema
    with the one property [disks], a list of objects with the properties
    [label] and [size], flattens to exactly two entries, [disks.label] and
    [disks.size], both with [list_item] set to [disks]; there is no entry at
    [disks]; and the two arguments built from them carry the same paths and
    the same [list_item]. *)
Theorem disks_flatten_to_list_items :
  forall fuel spec,
    _parse_args (S (S fuel)) spec disks_schema [] [] =
      Ok [("disks.label",
           mk_arg_info (JStr "string") (JStr "") "label" JNull None
                       (Some "disks"));
          ("disks.size",
           mk_arg_info (JStr "integer") (JStr "") "size" JNull None
                       (Some "disks"))]
    /\ build_cli_args (JArr [])
         [("disks.label",
           mk_arg_info (JStr "string") (JStr "") "label" JNull None
                       (Some "disks"));
          ("disks.size",
           mk_arg_info (JStr "integer") (JStr "") "size" JNull None
                       (Some "disks"))] =
      Ok [mk_CLIArg "label" (JStr "string") "." "disks.label" JNull
                    (Some "disks") false None;
          mk_CLIArg "size" (JStr "integer") "." "disks.size" JNull
                    (Some "disks") false None].
Proof.
  intros fuel spec. split; [|reflexivity].
  destruct fuel; reflexivity.
Qed.

(** ** Request Translator: URL parameters *)

(** C3.  With the flat arguments [region = us-east], [label = x] and the
    URL parameter [region], the body built for a [put] holds both entries,
    [region] included: with saved defaults switched off, and also with them
    on when the configuration has nothing to add; the same for a [post].
    The [get] branch of the same function does remove the URL parameter:
    its filter holds [label] alone. *)
Theorem url_parameter_stays_in_body :
  (forall config_update,
      do_request config_update false (region_operation "put")
                 region_arguments None
      = Ok (Body (JObj [("region", JStr "us-east"); ("label", JStr "x")])))
  /\ (forall defaults,
      do_request (fun parsed_args _ => parsed_args) defaults
                 (region_operation "put") region_arguments None
      = Ok (Body (JObj [("region", JStr "us-east"); ("label", JStr "x")])))
  /\ (forall config_update,
      do_request config_update false (region_operation "post")
                 region_arguments None
      = Ok (Body (JObj [("region", JStr "us-east"); ("label", JStr "x")])))
  /\ (forall config_update defaults,
      do_request config_update defaults (region_operation "get")
                 region_arguments None
      = Ok (XFilter (Some (JObj [("label", JStr "x")])))).
Proof.
  repeat split; try reflexivity.
  intros defaults; destruct defaults; reflexivity.
Qed.

(** ** Operation Compiler: the parts of a compiled operation *)

(** The arguments, the response model, the URL parameters and the URL of a
    compiled operation are what the steps of [bake] give for its method. *)
Lemma bake_method_parts fuel spec servers path data command params m key o
      spec' :
  bake_method fuel spec servers path data command params m
  = Ok (Some (key, o), spec') ->
  exists op args required_fields allowed_defaults spec1,
    py_getitem data m = Ok op /\
    compile_request fuel spec ["paths"; path; m] m op
    = Ok (args, required_fields, allowed_defaults, spec1) /\
    compile_response fuel spec1 ["paths"; path; m] op
    = Ok (op_response_model o, spec') /\
    build_cli_args required_fields args = Ok (op_args o) /\
    collision_pass args params path = Ok (op_params o, op_url o).
Proof.
  unfold bake_method. intro H.
  bind_inv H as op Eop. bind_inv H as skip Eskip.
  destruct (truthy skip); [discriminate|].
  bind_inv H as named Enamed.
  destruct named as [[action aliases]|]; [|discriminate].
  bind_inv H as summary Es. bind_inv H as docs Ed.
  bind_inv H as has_servers Ehs. bind_inv H as use_servers Eus.
  bind_inv H as req Ereq. destruct req as [[[args rf] ad] spec1].
  bind_inv H as resp Eresp. destruct resp as [model spec2].
  bind_inv H as cli_args Ecli.
  bind_inv H as coll Ecoll. destruct coll as [use_params use_path].
  bind_inv H as k Ek.
  inversion H; subst; clear H. simpl.
  exists op, args, rf, ad, spec1. repeat split; assumption.
Qed.

(** ** Operation Compiler: nothing is written by a bake that fails *)

(** C8.  If [bake] ends in anything but a normal return, an exception such
    as the [KeyError] of a reference to an absent component or a
    computation that does not end, the data file is what it was before the
    call; and a file that changed means that the whole document compiled
    and the file holds that registry. *)
Theorem bake_all_or_nothing :
  forall fuel spec data_file r data_file',
    bake fuel spec data_file = (r, data_file') ->
    (r <> Ok tt -> data_file' = data_file)
    /\ (data_file' <> data_file ->
        r = Ok tt /\ exists ops, bake_ops fuel spec = Ok ops /\
                                data_file' = Some ops).
Proof.
  intros fuel spec data_file r data_file' H. unfold bake in H.
  destruct (bake_ops fuel spec) as [ops| |]; inversion H; subst; clear H.
  - split; [congruence|]. intros _. split; [reflexivity|].
    exists ops; split; reflexivity.
  - split; [reflexivity | congruence].
  - split; [reflexivity | congruence].
Qed.

Lemma bake_all_or_nothing_witness :
  fst (bake 5 broken_document (Some earlier_registry))
  = Raise (KeyError "Missing")
  /\ snd (bake 5 broken_document (Some earlier_registry))
     = Some earlier_registry.
Proof.
  split; [reflexivity|].
  apply (proj1 (@bake_all_or_nothing 5 broken_document (Some earlier_registry)
                  (fst (bake 5 broken_document (Some earlier_registry)))
                  (snd (bake 5 broken_document (Some earlier_registry)))
                  eq_refl)).
  simpl; discriminate.
Defined.


(** ** Strings: [split] *)

Lemma str_split_cons sep s : exists h t, str_split sep s = h :: t.
Proof.
  induction s as [|c s [h [t IH]]]; simpl.
  - eauto.
  - destruct (Ascii.eqb c sep); [eauto|]. rewrite IH. eauto.
Qed.

Lemma prefix_String a s1 b s2 :
  String.prefix (String a s1) (String b s2) =
  if Ascii.eqb a b then String.prefix s1 s2 else false.
Proof.
  simpl. destruct (ascii_dec a b) as [->|Hne].
  - rewrite Ascii.eqb_refl; reflexivity.
  - apply Ascii.eqb_neq in Hne; rewrite Hne; reflexivity.
Qed.

Lemma prefix_empty s : String.prefix EmptyString s = true.
Proof. destruct s; reflexivity. Qed.

Lemma contains_dot_String c s :
  contains "." (String c s) = Ascii.eqb "." c || contains "." s.
Proof.
  change (contains "." (String c s))
    with (String.prefix "." (String c s) || contains "." s).
  rewrite prefix_String, prefix_empty.
  destruct (Ascii.eqb "." c); reflexivity.
Qed.

Lemma append_dot_inj (s t : string) :
  (s ++ ".")%string = (t ++ ".")%string -> s = t.
Proof.
  revert t; induction s as [|a s IH]; destruct t as [|b t];
    simpl; intro H; try reflexivity.
  - inversion H. destruct t; discriminate.
  - inversion H. destruct s; discriminate.
  - inversion H; subst. f_equal; auto.
Qed.

Lemma split_head_first_sentence d :
  first_sentence d (hd EmptyString (str_split "." d) ++ ".").
Proof.
  unfold first_sentence.
  induction d as [|c d IH].
  - exists EmptyString, EmptyString. repeat split; auto.
  - cbn [str_split]. destruct (Ascii.eqb c ".") eqn:E.
    + apply Ascii.eqb_eq in E; subst c.
      exists EmptyString, (String "." d). repeat split; eauto.
    + destruct IH as [first [rest [Hd [Hno [Hrest Hs]]]]].
      destruct (str_split_cons "." d) as [h [t Hsplit]].
      rewrite Hsplit in *. cbn [hd] in *.
      apply append_dot_inj in Hs. subst h.
      exists (String c first), rest.
      rewrite Hd. repeat split; auto.
      rewrite contains_dot_String, Hno.
      rewrite Ascii.eqb_sym, E. reflexivity.
Qed.

(** ** Operation Compiler: descriptions *)

(** ** Operation Compiler: required arguments *)

Lemma existsb_eq_str p (l : list json) :
  existsb (eq_str p) l = true <-> In (JStr p) l.
Proof.
  rewrite existsb_exists. split.
  - intros [x [Hin Hx]]. destruct x; simpl in Hx; try discriminate.
    apply String.eqb_eq in Hx; subst; assumption.
  - intro Hin. exists (JStr p). split; [assumption|].
    simpl. apply String.eqb_refl.
Qed.









(** ** Dispatch: aliases *)

Lemma find_first {A} (f : A -> bool) (l1 l2 : list A) (x : A) :
  Forall (fun y => f y = false) l1 -> f x = true ->
  find f (l1 ++ x :: l2) = Some x.
Proof.
  induction 1 as [|y l1 Hy _ IH]; simpl; intro Hx.
  - rewrite Hx; reflexivity.
  - rewrite Hy; auto.
Qed.

Lemma find_none_Forall {A} (f : A -> bool) (l : list A) :
  find f l = None <-> Forall (fun y => f y = false) l.
Proof.
  induction l as [|y l IH]; simpl.
  - split; auto.
  - destruct (f y) eqn:E.
    + split; [discriminate|]. intro H; inversion H; congruence.
    + rewrite IH. split; intro H; [constructor; auto | inversion H; auto].
Qed.

(** C9, as the code has it.  An alias of an operation resolves to that
    operation, as its canonical name does, when no operation of the command
    is registered under the alias itself and no operation registered
    earlier lists the same alias.  [handle_command] gives up exactly when
    the command is unknown, or the name is neither the name of an operation
    of the command nor an alias of one. *)
Theorem alias_resolves_unless_shadowed :
  (forall ops command before canonical o after alias,
      dict_get command ops = Some (before ++ (canonical, o) :: after) ->
      dict_get canonical before = None ->
      In (JStr alias) (op_action_aliases o) ->
      dict_get alias (before ++ (canonical, o) :: after) = None ->
      Forall (fun kv => ~ In (JStr alias) (op_action_aliases (snd kv)))
             before ->
      handle_command ops command alias = Ok o /\
      handle_command ops command canonical = Ok o)
  /\ (forall ops command name,
      (exists e, handle_command ops command name = Raise e) <->
      (dict_get command ops = None \/
       exists actions,
         dict_get command ops = Some actions /\
         dict_get name actions = None /\
         Forall (fun kv => ~ In (JStr name) (op_action_aliases (snd kv)))
                actions)).
Proof.
  split.
  - intros ops command before canonical o after alias Hc Hcanon Hin Hnone Hb.
    unfold handle_command. rewrite Hc. split.
    + rewrite Hnone. rewrite map_app. simpl.
      rewrite find_first; auto.
      * clear - Hb. induction Hb as [|kv before H _ IH]; simpl;
          constructor; auto.
        destruct (existsb (eq_str alias) (op_action_aliases (snd kv))) eqn:E;
          auto.
        apply existsb_eq_str in E. contradiction.
      * apply existsb_eq_str; assumption.
    + rewrite dict_get_app, Hcanon. simpl. rewrite String.eqb_refl.
      reflexivity.
  - intros ops command name. unfold handle_command.
    destruct (dict_get command ops) as [actions|] eqn:Hc.
    + destruct (dict_get name actions) as [o|] eqn:Hn.
      * split.
        -- intros [e He]; discriminate.
        -- intros [H|[a [Ha [Hna _]]]]; [discriminate|].
           inversion Ha; subst a. congruence.
      * destruct (find _ (map snd actions)) as [o|] eqn:Hf.
        -- split.
           ++ intros [e He]; discriminate.
           ++ intros [H|[a [Ha [_ Hall]]]]; [discriminate|].
              inversion Ha; subst a. exfalso.
              apply find_some in Hf. destruct Hf as [Hin Hl].
              apply in_map_iff in Hin. destruct Hin as [kv [<- Hkv]].
              rewrite Forall_forall in Hall. apply (Hall kv Hkv).
              apply existsb_eq_str; assumption.
        -- split.
           ++ intros _. right. exists actions. repeat split; auto.
              apply find_none_Forall in Hf.
              rewrite Forall_forall in *. intros kv Hkv Hin.
              assert (G : In (snd kv) (map snd actions))
                by (apply in_map; assumption).
              specialize (Hf _ G). simpl in Hf.
              apply existsb_eq_str in Hin. congruence.
           ++ intros _. eauto.
    + split; eauto.
Qed.

Lemma alias_resolves_unless_shadowed_witness :
  handle_command aliased_registry "linodes" "ls"
  = Ok (plain_operation "linodes" "list" (Some [JStr "ls"]))
  /\ handle_command aliased_registry "linodes" "list"
     = Ok (plain_operation "linodes" "list" (Some [JStr "ls"])).
Proof.
  apply (proj1 alias_resolves_unless_shadowed aliased_registry "linodes"
               [("view", plain_operation "linodes" "view" None)]
               "list" (plain_operation "linodes" "list" (Some [JStr "ls"]))
               [("create", plain_operation "linodes" "create" None)] "ls").
  - reflexivity.
  - reflexivity.
  - simpl; auto.
  - reflexivity.
  - repeat constructor. simpl; tauto.
Defined.

(** C9 as worded fails on [shadowed_registry]: [ls] resolves to the
    operation [ls], [list] to the operation [list]. *)
Lemma alias_shadowed_by_action :
  ~ alias_resolves_as_canonical shadowed_registry.
Proof.
  intro H.
  specialize (H "linodes" _ "list" _ "ls" eq_refl eq_refl
                (or_introl eq_refl)).
  discriminate H.
Qed.


(** ** Response Schema Flattener: the pagination envelope *)







(** ** Strings: [replace] on a path template *)

Lemma prefix_app s t : String.prefix s (s ++ t) = true.
Proof.
  induction s as [|c s IH]; simpl.
  - apply prefix_empty.
  - destruct (ascii_dec c c); [assumption | congruence].
Qed.

Lemma replace_from_skip old new u t :
  replace_from old new (String.length u) (u ++ t) = replace_from old new 0 t.
Proof.
  induction u as [|c u IH]; simpl; [reflexivity | exact IH].
Qed.

Lemma replace_from_match c old' new t :
  replace_from (String c old') new 0 (String c old' ++ t)
  = (new ++ replace_from (String c old') new 0 t)%string.
Proof.
  change (String c old' ++ t)%string with (String c (old' ++ t)).
  cbn [replace_from].
  change (String c (old' ++ t)) with (String c old' ++ t)%string.
  rewrite prefix_app.
  replace (String.length (String c old') - 1) with (String.length old')
    by (simpl; lia).
  rewrite replace_from_skip. reflexivity.
Qed.

Lemma replace_from_other c old' new a t :
  Ascii.eqb c a = false ->
  replace_from (String c old') new 0 (String a t)
  = String a (replace_from (String c old') new 0 t).
Proof.
  intro H. cbn [replace_from]. rewrite prefix_String, H. reflexivity.
Qed.

(** Text without the first character of [old] passes through unchanged. *)
Lemma replace_from_lacks c old' new s t :
  lacks c s = true ->
  replace_from (String c old') new 0 (s ++ t)
  = (s ++ replace_from (String c old') new 0 t)%string.
Proof.
  induction s as [|a s IH]; intro H.
  - reflexivity.
  - simpl in H. apply andb_true_iff in H. destruct H as [Ha Hs].
    change (String a s ++ t)%string with (String a (s ++ t)).
    rewrite replace_from_other.
    + rewrite IH by assumption. reflexivity.
    + rewrite Ascii.eqb_sym. apply negb_true_iff. assumption.
Qed.

(** Two placeholders that begin alike are the same placeholder. *)
Lemma prefix_hole_inj n m t :
  lacks "}" n = true -> lacks "}" m = true ->
  String.prefix (n ++ "}") (m ++ String "}" t) = true -> n = m.
Proof.
  revert m. induction n as [|a n IH]; intros m Hn Hm H.
  - destruct m as [|b m]; [reflexivity|].
    simpl in Hm. change (String b m ++ String "}" t)%string
      with (String b (m ++ String "}" t)) in H.
    change (EmptyString ++ "}")%string with (String "}" EmptyString) in H.
    rewrite prefix_String in H.
    destruct (Ascii.eqb "}" b) eqn:E; [|discriminate].
    rewrite Ascii.eqb_sym in E. rewrite E in Hm. discriminate.
  - simpl in Hn. apply andb_true_iff in Hn. destruct Hn as [Ha Hn].
    change (String a n ++ "}")%string with (String a (n ++ "}")) in H.
    destruct m as [|b m].
    + change (EmptyString ++ String "}" t)%string with (String "}" t) in H.
      rewrite prefix_String in H.
      destruct (Ascii.eqb a "}") eqn:E; [discriminate | discriminate].
    + simpl in Hm. apply andb_true_iff in Hm. destruct Hm as [Hb Hm].
      change (String b m ++ String "}" t)%string
        with (String b (m ++ String "}" t)) in H.
      rewrite prefix_String in H.
      destruct (Ascii.eqb a b) eqn:E; [|discriminate].
      apply Ascii.eqb_eq in E. subst b. f_equal. eapply IH; eauto.
Qed.

Lemma append_assoc (a b c : string) :
  ((a ++ b) ++ c)%string = (a ++ (b ++ c))%string.
Proof. induction a; simpl; congruence. Qed.

Lemma lacks_app c s t : lacks c (s ++ t) = lacks c s && lacks c t.
Proof.
  induction s as [|a s IH]; simpl; [reflexivity|].
  rewrite IH. apply andb_assoc.
Qed.

(** On a well-formed template, replacing the text of a placeholder renames
    the placeholders of that name and nothing else. *)
Lemma replace_render n ts :
  brace_free n = true -> forallb wf_token ts = true ->
  str_replace ("{" ++ n ++ "}") ("{" ++ n ++ "_}") (render ts)
  = render (map (rename_hole n) ts).
Proof.
  intros Hn Hts. unfold str_replace.
  apply andb_true_iff in Hn. destruct Hn as [Hn1 Hn2].
  induction ts as [|t ts IH]; [reflexivity|].
  simpl in Hts. apply andb_true_iff in Hts. destruct Hts as [Ht Hts].
  specialize (IH Hts). cbn [render map].
  destruct t as [s|m]; simpl in Ht.
  - apply andb_true_iff in Ht. destruct Ht as [Hs1 Hs2].
    cbn [render_token rename_hole].
    change ("{" ++ n ++ "}")%string with (String "{" (n ++ "}")).
    rewrite replace_from_lacks by assumption.
    change (String "{" (n ++ "}")) with ("{" ++ n ++ "}")%string.
    rewrite IH. reflexivity.
  - apply andb_true_iff in Ht. destruct Ht as [Hm1 Hm2].
    cbn [render_token rename_hole].
    destruct (String.eqb m n) eqn:E.
    + apply String.eqb_eq in E. subst m.
      change ("{" ++ n ++ "}")%string with (String "{" (n ++ "}")).
      rewrite replace_from_match.
      change (String "{" (n ++ "}")) with ("{" ++ n ++ "}")%string.
      rewrite IH. rewrite (append_assoc n "_" "}"). reflexivity.
    + change (("{" ++ m ++ "}") ++ render ts)%string
        with (String "{" ((m ++ "}") ++ render ts)).
      change ("{" ++ n ++ "}")%string with (String "{" (n ++ "}")).
      cbn [replace_from].
      rewrite prefix_String, Ascii.eqb_refl.
      rewrite !append_assoc.
      change ("}" ++ render ts)%string with (String "}" (render ts)).
      destruct (String.prefix (n ++ "}") (m ++ String "}" (render ts)))
        eqn:P.
      * apply prefix_hole_inj in P; auto. subst m.
        rewrite String.eqb_refl in E. discriminate.
      * rewrite replace_from_lacks by assumption.
        rewrite replace_from_other by reflexivity.
        change (String "{" (n ++ "}")) with ("{" ++ n ++ "}")%string.
        rewrite IH. reflexivity.
Qed.


(** ** Operation Compiler: the collision pass *)

Lemma map_clone params : map clone params = params.
Proof.
  induction params as [|[n t] params IH]; simpl; [reflexivity|].
  rewrite IH. reflexivity.
Qed.

Lemma brace_free_underscore n :
  brace_free n = true -> brace_free (n ++ "_") = true.
Proof.
  unfold brace_free. rewrite !lacks_app. intro H.
  apply andb_true_iff in H. destruct H as [-> ->]. reflexivity.
Qed.

Lemma wf_disambiguate_token args names t :
  wf_token t = true -> wf_token (disambiguate_token args names t) = true.
Proof.
  destruct t as [s|n]; simpl; auto.
  unfold disambiguate.
  destruct (dict_mem n args && existsb (String.eqb n) names); auto.
  apply brace_free_underscore.
Qed.

Lemma existsb_eqb_In (x : string) (l : list string) :
  existsb (String.eqb x) l = true <-> In x l.
Proof.
  rewrite existsb_exists. split.
  - intros [y [Hy E]]. apply String.eqb_eq in E. subst; assumption.
  - intro H. exists x. split; [assumption | apply String.eqb_refl].
Qed.

(** Renaming one more colliding name, on top of those already seen. *)
Lemma rename_hole_disambiguate args names seen n t :
  dict_mem n args = true -> In n names -> no_chain args names ->
  (forall x, In x seen -> In x names) ->
  rename_hole n (disambiguate_token args seen t)
  = disambiguate_token args (seen ++ [n]) t.
Proof.
  intros Hn Hin Hchain Hseen. destruct t as [s|x]; simpl; [reflexivity|].
  f_equal. unfold disambiguate. rewrite existsb_app. simpl.
  rewrite orb_false_r.
  destruct (dict_mem x args) eqn:Hx; simpl.
  - destruct (existsb (String.eqb x) seen) eqn:Hs; simpl.
    + destruct (String.eqb (x ++ "_") n) eqn:E; [|reflexivity].
      apply String.eqb_eq in E. subst n. exfalso.
      apply existsb_eqb_In in Hs.
      apply (Hchain x); auto.
    + destruct (String.eqb x n) eqn:E; [|reflexivity].
      apply String.eqb_eq in E. subst; reflexivity.
  - destruct (String.eqb x n) eqn:E; [|reflexivity].
    apply String.eqb_eq in E. subst. congruence.
Qed.

Lemma disambiguate_token_skip args seen n t :
  dict_mem n args = false ->
  disambiguate_token args seen t = disambiguate_token args (seen ++ [n]) t.
Proof.
  intro Hn. destruct t as [s|x]; simpl; [reflexivity|].
  f_equal. unfold disambiguate. rewrite existsb_app. simpl.
  rewrite orb_false_r.
  destruct (String.eqb x n) eqn:E.
  - apply String.eqb_eq in E. subst. rewrite Hn. reflexivity.
  - rewrite orb_false_r. reflexivity.
Qed.

Lemma collision_fold args toks names :
  forallb wf_token toks = true ->
  no_chain args names ->
  forall rest rest_names seen done,
    names = seen ++ rest_names ->
    map param_name rest = map JStr rest_names ->
    forallb brace_free rest_names = true ->
    foldM (collision_step args) rest
          (done, render (map (disambiguate_token args seen) toks))
    = Ok (done ++ map (disambiguate_param args names) rest,
          render (map (disambiguate_token args names) toks)).
Proof.
  intros Htoks Hchain.
  induction rest as [|p rest IH]; intros rest_names seen done Hnames Hmap Hbf.
  - destruct rest_names; [|discriminate].
    rewrite app_nil_r in Hnames. subst. simpl. rewrite app_nil_r.
    reflexivity.
  - destruct rest_names as [|n rest_names]; [discriminate|].
    simpl in Hmap. inversion Hmap as [[Hp Hrest]]. clear Hmap.
    simpl in Hbf. apply andb_true_iff in Hbf. destruct Hbf as [Hn Hbf].
    assert (Hin : In n names)
      by (subst names; apply in_or_app; right; left; reflexivity).
    assert (Hnames' : names = (seen ++ [n]) ++ rest_names)
      by (rewrite <- app_assoc; exact Hnames).
    cbn [foldM]. unfold collision_step at 1. rewrite Hp.
    assert (Hdp : disambiguate_param args names p
                  = if dict_mem n args
                    then mk_URLParam (JStr (n ++ "_")) (param_type p)
                    else p).
    { unfold disambiguate_param, disambiguate. rewrite Hp.
      apply existsb_eqb_In in Hin. rewrite Hin, andb_true_r.
      destruct (dict_mem n args); [reflexivity|].
      destruct p; simpl in *; congruence. }
    destruct (dict_mem n args) eqn:Hargs; cbn [bind].
    + rewrite replace_render; auto.
      2:{ rewrite forallb_forall in *. intros t Ht.
          apply in_map_iff in Ht. destruct Ht as [t0 [<- Ht0]].
          apply wf_disambiguate_token; auto. }
      rewrite map_map.
      rewrite (map_ext _ (disambiguate_token args (seen ++ [n]))).
      2:{ intro t. eapply rename_hole_disambiguate; eauto.
          intros x Hx. subst names. apply in_or_app; auto. }
      rewrite (IH rest_names (seen ++ [n])) by assumption.
      cbn [map]. rewrite Hdp, <- app_assoc. reflexivity.
    + rewrite (map_ext _ (disambiguate_token args (seen ++ [n]))).
      2:{ intro t. apply disambiguate_token_skip; assumption. }
      rewrite (IH rest_names (seen ++ [n])) by assumption.
      cbn [map]. rewrite Hdp, <- app_assoc. reflexivity.
Qed.

(** C2, as the code has it.  On a path template made of brace-free text
    and brace-free placeholders, with URL parameters that have brace-free
    names of which none is another colliding name with an underscore
    appended: the collision pass gives every URL parameter and every
    placeholder of the template the same new name, which is the old name
    with an underscore appended when the name is the full dotted path of
    an argument and the name of a URL parameter, and the old name
    otherwise. *)
Theorem collision_renames_param_and_placeholder :
  forall args params names toks,
    map param_name params = map JStr names ->
    forallb brace_free names = true ->
    forallb wf_token toks = true ->
    no_chain args names ->
    collision_pass args params (render toks)
    = Ok (map (disambiguate_param args names) params,
          render (map (disambiguate_token args names) toks)).
Proof.
  intros args params names toks Hmap Hbf Htoks Hchain.
  unfold collision_pass. rewrite map_clone.
  assert (Hid : map (disambiguate_token args []) toks = toks).
  { clear. induction toks as [|[s|n] toks IH]; simpl;
      unfold disambiguate; simpl; rewrite ?andb_false_r; congruence. }
  rewrite <- Hid at 1.
  rewrite (@collision_fold args toks names Htoks Hchain params names [] []);
    auto.
Qed.

Lemma collision_renames_param_and_placeholder_witness :
  collision_pass region_entries
                 [mk_URLParam (JStr "region") (JStr "string");
                  mk_URLParam (JStr "id") (JStr "integer")]
                 "/regions/{region}/things/{id}"
  = Ok ([mk_URLParam (JStr "region_") (JStr "string");
         mk_URLParam (JStr "id") (JStr "integer")],
        "/regions/{region_}/things/{id}").
Proof.
  apply (@collision_renames_param_and_placeholder region_entries
           [mk_URLParam (JStr "region") (JStr "string");
            mk_URLParam (JStr "id") (JStr "integer")]
           ["region"; "id"]
           [Lit "/regions/"; Hole "region"; Lit "/things/"; Hole "id"]).
  - reflexivity.
  - reflexivity.
  - reflexivity.
  - intros n Hn Hargs Hn' Hargs'. simpl in Hn.
    destruct Hn as [<-|[<-|[]]]; simpl in Hargs'; discriminate.
Defined.

(** C2 as worded fails: after the collision pass the URL parameter is
    still called [region], the first segment of the argument
    [region.id].  It fails on top-level names as well: beside the
    arguments [region] and [region_], the URL parameter [region] is
    renamed to [region_], the name of the second argument. *)
Lemma collision_invariant_fails :
  (_parse_args 3 (JObj []) nested_region_schema [] [] = Ok nested_region_entries
   /\ ~ collision_invariant nested_region_entries [region_param]
                            "/things/{region}")
  /\ (_parse_args 3 (JObj []) underscore_schema [] [] = Ok underscore_entries
      /\ ~ collision_invariant underscore_entries [region_param]
                               "/things/{region}").
Proof.
  split; (split; [reflexivity|]); intro H.
  - apply (H [region_param] "/things/{region}" region_param "region.id"
             eq_refl (or_introl eq_refl) (or_introl eq_refl)).
    reflexivity.
  - apply (H [mk_URLParam (JStr "region_") (JStr "string")]
             "/things/{region_}"
             (mk_URLParam (JStr "region_") (JStr "string")) "region_"
             eq_refl (or_introl eq_refl) (or_intror (or_introl eq_refl))).
    reflexivity.
Qed.


(** ** Flattening and re-nesting *)

(** *** Dotted paths *)

Lemma str_split_lacks s : lacks "." s = true -> str_split "." s = [s].
Proof.
  induction s as [|c s IH]; simpl; intro H; [reflexivity|].
  apply andb_true_iff in H. destruct H as [Hc Hs].
  apply negb_true_iff in Hc. rewrite Hc, (IH Hs). reflexivity.
Qed.

Lemma str_split_dot s t :
  lacks "." s = true ->
  str_split "." (s ++ String "." t) = s :: str_split "." t.
Proof.
  induction s as [|c s IH]; simpl; intro H; [reflexivity|].
  apply andb_true_iff in H. destruct H as [Hc Hs].
  apply negb_true_iff in Hc. rewrite Hc, (IH Hs). reflexivity.
Qed.



(** *** Induction on schema shapes *)














(** *** Re-nesting the leaves of a shape *)













(** *** The flattener walks the shape *)

Lemma _parse_args_S fuel spec node prefix args :
  _parse_args (S fuel) spec node prefix args
  = (props <- py_items node ;;
     foldM (parse_step (_parse_args fuel spec) fuel spec prefix) props args).
Proof. reflexivity. Qed.









(* ================================================================== *)
(** * Further properties of the code *)

(** ** Strings: [split] and [join] with any separator *)

Lemma str_split_none c s : lacks c s = true -> str_split c s = [s].
Proof.
  induction s as [|a s IH]; simpl; intro H; [reflexivity|].
  apply andb_true_iff in H. destruct H as [Ha Hs].
  apply negb_true_iff in Ha. rewrite Ha, (IH Hs). reflexivity.
Qed.

Lemma str_split_first c s t :
  lacks c s = true ->
  str_split c (s ++ String c t) = s :: str_split c t.
Proof.
  induction s as [|a s IH]; simpl; intro H.
  - rewrite Ascii.eqb_refl. reflexivity.
  - apply andb_true_iff in H. destruct H as [Ha Hs].
    apply negb_true_iff in Ha. rewrite Ha, (IH Hs). reflexivity.
Qed.

Lemma str_split_last c r p :
  lacks c p = true ->
  str_split c (r ++ String c p) = str_split c r ++ [p].
Proof.
  intro Hp. induction r as [|a r IH]; simpl.
  - rewrite Ascii.eqb_refl, (str_split_none _ _ Hp). reflexivity.
  - rewrite IH. destruct (Ascii.eqb a c); [reflexivity|].
    destruct (str_split_cons c r) as [h [t E]]. rewrite E. reflexivity.
Qed.

Lemma split_concat c segs :
  segs <> [] -> forallb (lacks c) segs = true ->
  str_split c (String.concat (String c EmptyString) segs) = segs.
Proof.
  induction segs as [|s segs IH]; intros Hne H; [congruence|].
  simpl in H. apply andb_true_iff in H. destruct H as [Hs Hsegs].
  destruct segs as [|s' segs].
  - simpl. apply str_split_none; assumption.
  - change (String.concat (String c EmptyString) (s :: s' :: segs))
      with (s ++ String c (String.concat (String c EmptyString) (s' :: segs)))%string.
    rewrite str_split_first by assumption.
    rewrite IH; [reflexivity | discriminate | assumption].
Qed.

(** ** Reference Resolver: lookups and failures *)

Lemma resolve_ref_parts spec first segments :
  forallb (lacks "/") (first :: segments) = true ->
  _resolve_ref spec (JStr (ref_text first segments))
  = foldM py_getitem segments spec.
Proof.
  intro H. unfold _resolve_ref, ref_text. cbn [py_split bind].
  rewrite (@split_concat "/" (first :: segments)) by (congruence || assumption).
  reflexivity.
Qed.

(** X1.  A reference whose segments can be followed down to a dictionary
    that lacks the next segment raises [KeyError] for that segment, whatever
    comes after it. *)
Theorem resolve_ref_missing_segment :
  forall spec first found missing rest d,
    forallb (lacks "/") (first :: found ++ missing :: rest) = true ->
    foldM py_getitem found spec = Ok (JObj d) ->
    dict_get missing d = None ->
    _resolve_ref spec (JStr (ref_text first (found ++ missing :: rest)))
    = Raise (KeyError missing).
Proof.
  intros spec first found missing rest d Hs Hfound Hmiss.
  rewrite resolve_ref_parts by assumption.
  rewrite foldM_app, Hfound. simpl. rewrite Hmiss. reflexivity.
Qed.

Lemma resolve_ref_missing_segment_witness :
  _resolve_ref disk_document (JStr "#/components/schemas/Volume/properties")
  = Raise (KeyError "Volume").
Proof.
  apply (@resolve_ref_missing_segment disk_document "#"
           ["components"; "schemas"] "Volume" ["properties"]
           [("Disk",
             JObj [("properties",
                    JObj [("size", JObj [("type", JStr "integer")])])])]);
    reflexivity.
Defined.

(** X2.  Resolving a reference with one more segment is resolving the
    reference and taking the segment from what it gives. *)
Theorem resolve_ref_step :
  forall spec r p,
    lacks "/" p = true ->
    _resolve_ref spec (JStr (r ++ "/" ++ p))
    = (v <- _resolve_ref spec (JStr r) ;; py_getitem v p).
Proof.
  intros spec r p Hp. unfold _resolve_ref. cbn [py_split bind].
  change (r ++ "/" ++ p)%string with (r ++ String "/" p)%string.
  rewrite str_split_last by assumption.
  destruct (str_split_cons "/" r) as [h [t E]]. rewrite E. cbn [tl app].
  rewrite foldM_app. apply bind_ext. intro v. simpl.
  destruct (py_getitem v p); reflexivity.
Qed.

Lemma resolve_ref_step_witness :
  _resolve_ref disk_document (JStr ("#/components/schemas" ++ "/" ++ "Disk"))
  = (v <- _resolve_ref disk_document (JStr "#/components/schemas") ;;
     py_getitem v "Disk").
Proof. apply resolve_ref_step. reflexivity. Defined.

(** X3.  What stands before the first ["/"] of a reference is never looked
    at: two references that differ only there resolve alike. *)
Theorem resolve_ref_ignores_first_segment :
  forall spec a b rest,
    lacks "/" a = true -> lacks "/" b = true ->
    _resolve_ref spec (JStr (a ++ "/" ++ rest))
    = _resolve_ref spec (JStr (b ++ "/" ++ rest)).
Proof.
  intros spec a b rest Ha Hb. unfold _resolve_ref. cbn [py_split bind].
  change (a ++ "/" ++ rest)%string with (a ++ String "/" rest)%string.
  change (b ++ "/" ++ rest)%string with (b ++ String "/" rest)%string.
  rewrite !str_split_first by assumption. reflexivity.
Qed.

Lemma resolve_ref_ignores_first_segment_witness :
  _resolve_ref disk_document (JStr ("#" ++ "/" ++ "components/schemas/Disk"))
  = _resolve_ref disk_document
                 (JStr ("other.yaml#" ++ "/" ++ "components/schemas/Disk")).
Proof. apply resolve_ref_ignores_first_segment; reflexivity. Defined.

(** X4.  A member of an [allOf] that is a dictionary with neither
    [properties] nor [$ref] adds nothing: the result is that of the list
    without it. *)
Theorem allOf_member_without_properties :
  forall spec before d after,
    dict_get "$ref" d = None ->
    dict_get "properties" d = None ->
    _resolve_allOf spec (JArr (before ++ JObj d :: after))
    = _resolve_allOf spec (JArr (before ++ after)).
Proof.
  intros spec before d after Href Hprops.
  unfold _resolve_allOf. cbn [py_iter bind].
  rewrite !foldM_app.
  destruct (foldM _ before []) as [ret| |]; cbn [bind]; try reflexivity.
  cbn [foldM].
  assert (E : allOf_member_props spec (JObj d) = Ok (JObj [])).
  { unfold allOf_member_props, member_data, py_in, dict_mem.
    rewrite Href. cbn [bind]. rewrite Hprops. reflexivity. }
  rewrite E. reflexivity.
Qed.

Lemma allOf_member_without_properties_witness :
  _resolve_allOf disk_document
    (JArr ([nth 0 two_member_allOf JNull]
             ++ JObj [("description", JStr "A disk.")]
             :: [nth 1 two_member_allOf JNull]))
  = _resolve_allOf disk_document
      (JArr ([nth 0 two_member_allOf JNull] ++ [nth 1 two_member_allOf JNull])).
Proof. apply allOf_member_without_properties; reflexivity. Defined.

(** ** Invariants of a loop and of a dictionary *)

Lemma foldM_inv {A B} (I : B -> Prop) (step : B -> A -> result B) l :
  (forall acc x acc', In x l -> I acc -> step acc x = Ok acc' -> I acc') ->
  forall acc r, I acc -> foldM step l acc = Ok r -> I r.
Proof.
  induction l as [|x l IH]; intros Hstep acc r Hacc H; simpl in H.
  - inversion H; subst; assumption.
  - bind_inv H as acc' E.
    apply (IH (fun a y a' Hy => Hstep a y a' (or_intror Hy)) acc' r);
      [|assumption].
    apply (Hstep acc x acc'); [left; reflexivity | assumption | assumption].
Qed.

Section DictForall.
Variable V : Type.
Variable P : string * V -> Prop.

Lemma Forall_dict_set k v (d : list (string * V)) :
  Forall P d -> P (k, v) -> Forall P (dict_set k v d).
Proof.
  intros Hd Hkv. induction d as [|[k' v'] d IH]; simpl.
  - constructor; [assumption | constructor].
  - inversion Hd; subst.
    destruct (String.eqb k k'); constructor; auto.
Qed.

Lemma dict_set_twice k v v' (d : list (string * V)) :
  dict_set k v (dict_set k v' d) = dict_set k v d.
Proof.
  induction d as [|[k' w] d IH]; simpl.
  - rewrite String.eqb_refl. reflexivity.
  - destruct (String.eqb k k') eqn:E; simpl.
    + rewrite String.eqb_refl. reflexivity.
    + rewrite E, IH. reflexivity.
Qed.

Lemma Forall_dict_del k (d d' : list (string * V)) :
  Forall P d -> dict_del k d = Ok d' -> Forall P d'.
Proof.
  revert d'. induction d as [|[k' v'] d IH]; simpl; intros d' Hd H.
  - discriminate.
  - inversion Hd; subst. destruct (String.eqb k k').
    + inversion H; subst; assumption.
    + bind_inv H as d'' E. inversion H; subst. constructor; auto.
Qed.

Lemma Forall_dict_update (d e : list (string * V)) :
  Forall P d -> Forall P e -> Forall P (dict_update d e).
Proof.
  unfold dict_update. revert d.
  induction e as [|[k v] e IH]; simpl; intros d Hd He; [assumption|].
  inversion He; subst. apply IH; [|assumption].
  apply Forall_dict_set; assumption.
Qed.
End DictForall.

Lemma eq_str_true s v : eq_str s v = true -> v = JStr s.
Proof.
  destruct v; simpl; try discriminate.
  intro H. apply String.eqb_eq in H. congruence.
Qed.

Lemma eq_str_false s v : eq_str s v = false -> v <> JStr s.
Proof.
  intros H E. subst v. simpl in H. rewrite String.eqb_refl in H.
  discriminate.
Qed.

Lemma truthy_py_or a b : truthy b = true -> truthy (py_or a b) = true.
Proof. unfold py_or. destruct (truthy a) eqn:E; auto. Qed.

Lemma join_app (a b : list string) :
  a <> [] -> b <> [] ->
  str_join "." (a ++ b) = (str_join "." a ++ "." ++ str_join "." b)%string.
Proof.
  unfold str_join. induction a as [|x a IH]; intros Ha Hb; [congruence|].
  destruct a as [|y a].
  - destruct b as [|z b]; [congruence|]. reflexivity.
  - change (String.concat "." ((x :: y :: a) ++ b))
      with (x ++ "." ++ String.concat "." ((y :: a) ++ b))%string.
    rewrite IH by (assumption || discriminate).
    change (String.concat "." (x :: y :: a))
      with (x ++ "." ++ String.concat "." (y :: a))%string.
    rewrite !append_assoc. reflexivity.
Qed.

(** ** Argument Schema Flattener: what every entry looks like *)

Lemma leaf_entry_shape spec arg info info' e :
  leaf_entry spec arg info = Ok (info', e) ->
  ai_name e = arg /\ truthy (ai_type e) = true /\
  ai_item_type e = None /\ ai_list_item e = None.
Proof.
  unfold leaf_entry. intro H.
  bind_inv H as has_ref E1. bind_inv H as i E2. bind_inv H as ty E3.
  bind_inv H as desc E4. bind_inv H as fmt0 E5. bind_inv H as fmt E6.
  inversion H; subst; simpl.
  repeat split. apply truthy_py_or. reflexivity.
Qed.

Lemma tag_list_item_ok p0 ext arg item_args :
  Forall (entry_ok ((p0 ++ ext) ++ [arg])) item_args ->
  Forall (entry_ok p0)
         (tag_list_item (str_join "." ((p0 ++ ext) ++ [arg])) item_args).
Proof.
  unfold tag_list_item. intro H. apply Forall_map.
  eapply Forall_impl; [|exact H].
  intros [k e] [Ht [[rest Hk] _]]. simpl in *.
  split; [exact Ht|]. split.
  - exists (ext ++ [arg] ++ rest). rewrite Hk.
    rewrite <- !app_assoc. reflexivity.
  - intros p Hp. inversion Hp; subst p.
    exists (ext ++ [arg]), (rest ++ [ai_name e]).
    repeat split.
    + destruct ext; discriminate.
    + destruct rest; discriminate.
    + rewrite <- !app_assoc. reflexivity.
    + rewrite Hk, <- !app_assoc. reflexivity.
Qed.

Lemma parse_args_entries spec fuel :
  forall node p0 ext args r,
    Forall (entry_ok p0) args ->
    _parse_args fuel spec node (p0 ++ ext) args = Ok r ->
    Forall (entry_ok p0) r.
Proof.
  induction fuel as [|fuel IH]; intros node p0 ext args r Hargs H;
    [discriminate|].
  rewrite _parse_args_S in H. bind_inv H as props Eprops.
  revert args r Hargs H. apply foldM_inv.
  intros acc [arg info] acc' _ Hacc H. unfold parse_step in H.
  bind_inv H as info1 E1. bind_inv H as has_props E2.
  destruct has_props.
  { bind_inv H as sub E3. rewrite <- app_assoc in H.
    eapply IH; eassumption. }
  bind_inv H as ro E3. destruct (truthy ro).
  { inversion H; subst; assumption. }
  bind_inv H as leaf E4. destruct leaf as [info2 entry].
  destruct (leaf_entry_shape _ _ _ E4) as [Hname [Hty [Hit Hli]]].
  assert (Hplaced : forall e, ai_name e = arg -> ai_list_item e = None ->
            placed_entry p0 (str_join "." ((p0 ++ ext) ++ [arg])) e).
  { intros e Hn Hl. split.
    - exists ext. rewrite Hn, <- app_assoc. reflexivity.
    - intros p Hp. congruence. }
  destruct (eq_str "json" (ai_format entry)) eqn:Ejson.
  { inversion H; subst acc'. rewrite dict_set_twice.
    apply Forall_dict_set; [assumption|].
    split; [|apply Hplaced; assumption]. simpl.
    split; [reflexivity|]. split; [intros _; split; [reflexivity | exact Hit]|].
    intro Hne. elim Hne. exact Hit. }
  apply eq_str_false in Ejson.
  assert (Hentry : entry_ok p0 (str_join "." ((p0 ++ ext) ++ [arg]), entry)).
  { split; [|apply Hplaced; assumption]. simpl.
    split; [exact Hty|]. split; [intro; contradiction|].
    intro Hne. elim Hne. exact Hit. }
  bind_inv H as has_items E5. destruct has_items.
  2:{ inversion H; subst acc'. apply Forall_dict_set; assumption. }
  destruct (eq_str "array" (ai_type entry)) eqn:Earr; [|discriminate].
  apply eq_str_true in Earr.
  bind_inv H as li E6. destruct li as [item_type item_props].
  assert (Hset : Forall (entry_ok p0)
            (dict_set (str_join "." ((p0 ++ ext) ++ [arg]))
               (set_item_type item_type entry)
               (dict_set (str_join "." ((p0 ++ ext) ++ [arg])) entry acc))).
  { repeat apply Forall_dict_set; try assumption.
    split; [|apply Hplaced; assumption]. simpl.
    split; [exact Hty|]. split; [intro; contradiction | intros _; exact Earr]. }
  destruct item_props as [item_props|].
  2:{ inversion H; subst acc'. exact Hset. }
  bind_inv H as item_args E7.
  eapply Forall_dict_del; [|exact H].
  apply Forall_dict_update; [exact Hset|].
  apply tag_list_item_ok.
  apply (IH item_props ((p0 ++ ext) ++ [arg]) [] [] item_args);
    [constructor|]. rewrite app_nil_r. exact E7.
Qed.

(** X5.  In what [_parse_args] returns, an argument's type is never empty;
    an argument of format [json] has type [object] and no item type; and
    only an argument of type [array] has an item type. *)
Theorem parse_args_entry_types :
  forall fuel spec node prefix args k e,
    _parse_args fuel spec node prefix [] = Ok args ->
    In (k, e) args ->
    truthy (ai_type e) = true /\
    (ai_format e = JStr "json" ->
     ai_type e = JStr "object" /\ ai_item_type e = None) /\
    (ai_item_type e <> None -> ai_type e = JStr "array").
Proof.
  intros fuel spec node prefix args k e H Hin.
  assert (Hall : Forall (entry_ok prefix) args).
  { apply (@parse_args_entries spec fuel node prefix [] [] args);
      [constructor|]. rewrite app_nil_r. exact H. }
  rewrite Forall_forall in Hall. destruct (Hall _ Hin) as [Ht _]. exact Ht.
Qed.

Lemma parse_args_entry_types_witness :
  truthy (ai_type config_entry) = true /\
  (ai_format config_entry = JStr "json" ->
   ai_type config_entry = JStr "object" /\ ai_item_type config_entry = None) /\
  (ai_item_type config_entry <> None -> ai_type config_entry = JStr "array").
Proof.
  apply (@parse_args_entry_types 3 disk_document mixed_schema []
           [("config", config_entry);
            ("tags", mk_arg_info (JStr "array") (JStr "") "tags" JNull
                                 (Some (JStr "string")) None);
            ("disks.label", disk_label_entry);
            ("disks.size",
             mk_arg_info (JStr "integer") (JStr "") "size" JNull None
                         (Some "disks"))]
           "config" config_entry).
  - reflexivity.
  - left. reflexivity.
Defined.

(** X6.  In what [_parse_args] returns, every key is the dotted path made
    of the prefix, the names of the properties descended through, and last
    the entry's own name. *)
Theorem parse_args_key_ends_in_name :
  forall fuel spec node prefix args k e,
    _parse_args fuel spec node prefix [] = Ok args ->
    In (k, e) args ->
    exists rest, k = str_join "." (prefix ++ rest ++ [ai_name e]).
Proof.
  intros fuel spec node prefix args k e H Hin.
  assert (Hall : Forall (entry_ok prefix) args).
  { apply (@parse_args_entries spec fuel node prefix [] [] args);
      [constructor|]. rewrite app_nil_r. exact H. }
  rewrite Forall_forall in Hall.
  destruct (Hall _ Hin) as [_ [Hk _]]. exact Hk.
Qed.

Lemma parse_args_key_ends_in_name_witness :
  exists rest,
    "disks.label" = str_join "." ([] ++ rest ++ [ai_name disk_label_entry]).
Proof.
  apply (@parse_args_key_ends_in_name 3 disk_document mixed_schema []
           [("config", config_entry);
            ("tags", mk_arg_info (JStr "array") (JStr "") "tags" JNull
                                 (Some (JStr "string")) None);
            ("disks.label", disk_label_entry);
            ("disks.size",
             mk_arg_info (JStr "integer") (JStr "") "size" JNull None
                         (Some "disks"))]
           "disks.label" disk_label_entry).
  - reflexivity.
  - right. right. left. reflexivity.
Defined.

(** X7.  An entry of what [_parse_args] returns that belongs to a list has
    a key that continues the list's path: the key is the list's path, a
    full stop and more, and the list's path lies below the prefix. *)
Theorem parse_args_list_item_is_ancestor :
  forall fuel spec node prefix args k e p,
    _parse_args fuel spec node prefix [] = Ok args ->
    In (k, e) args ->
    ai_list_item e = Some p ->
    (exists q, k = (p ++ "." ++ q)%string) /\
    (exists r, r <> [] /\ p = str_join "." (prefix ++ r)).
Proof.
  intros fuel spec node prefix args k e p H Hin Hp.
  assert (Hall : Forall (entry_ok prefix) args).
  { apply (@parse_args_entries spec fuel node prefix [] [] args);
      [constructor|]. rewrite app_nil_r. exact H. }
  rewrite Forall_forall in Hall.
  destruct (Hall _ Hin) as [_ [_ Hl]].
  destruct (Hl p Hp) as [r1 [r2 [Hr1 [Hr2 [Ep Ek]]]]]. simpl in Ek.
  split.
  - exists (str_join "." r2). rewrite Ek, Ep, app_assoc.
    apply join_app; [|assumption].
    destruct prefix; [simpl; assumption | discriminate].
  - exists r1. split; assumption.
Qed.

Lemma parse_args_list_item_is_ancestor_witness :
  (exists q, "disks.label" = ("disks" ++ "." ++ q)%string) /\
  (exists r, r <> [] /\ "disks" = str_join "." ([] ++ r)).
Proof.
  apply (@parse_args_list_item_is_ancestor 3 disk_document mixed_schema []
           [("config", config_entry);
            ("tags", mk_arg_info (JStr "array") (JStr "") "tags" JNull
                                 (Some (JStr "string")) None);
            ("disks.label", disk_label_entry);
            ("disks.size",
             mk_arg_info (JStr "integer") (JStr "") "size" JNull None
                         (Some "disks"))]
           "disks.label" disk_label_entry "disks").
  - reflexivity.
  - right. right. left. reflexivity.
  - reflexivity.
Defined.

(** ** Argument Schema Flattener: a reference to itself *)

Lemma follow_refs_self spec info r :
  py_in "$ref" info = Ok true ->
  py_getitem info "$ref" = Ok r ->
  _resolve_ref spec r = Ok info ->
  forall fuel, follow_refs fuel spec info = OutOfFuel.
Proof.
  intros Hin Hget Hres fuel. induction fuel as [|fuel IH]; simpl.
  - rewrite Hin. reflexivity.
  - rewrite Hin. cbn [bind]. rewrite Hget. cbn [bind]. rewrite Hres.
    cbn [bind]. exact IH.
Qed.

(** X8.  [_parse_args] does not return on a schema with a property that is
    a reference resolving to itself: the loop [while "$ref" in info] never
    ends, unless an earlier property has raised before. *)
Theorem parse_args_self_reference_never_returns :
  forall spec before arg info after r prefix args,
    py_in "allOf" info = Ok false ->
    py_in "$ref" info = Ok true ->
    py_getitem info "$ref" = Ok r ->
    _resolve_ref spec r = Ok info ->
    forall fuel out,
      _parse_args fuel spec (JObj (before ++ (arg, info) :: after))
                  prefix args <> Ok out.
Proof.
  intros spec before arg info after r prefix args Hall Hin Hget Hres fuel out.
  destruct fuel as [|fuel]; [discriminate|].
  rewrite _parse_args_S. cbn [py_items bind]. rewrite foldM_app.
  destruct (foldM _ before args) as [acc| |]; cbn [bind]; try discriminate.
  cbn [foldM]. unfold parse_step at 1, resolve_property.
  rewrite Hall. cbn [bind].
  rewrite (follow_refs_self spec Hin Hget Hres). discriminate.
Qed.

Lemma parse_args_self_reference_never_returns_witness :
  _parse_args 100 loop_document
              (JObj ([("label", JObj [("type", JStr "string")])]
                       ++ ("next", loop_property) :: []))
              [] [] <> Ok [].
Proof.
  apply (@parse_args_self_reference_never_returns loop_document
           [("label", JObj [("type", JStr "string")])] "next" loop_property
           [] (JStr "#/components/schemas/Loop") [] []); reflexivity.
Defined.

(** ** Response Schema Flattener: order of the columns, termination *)

Lemma _parse_properties_S fuel node prefix :
  _parse_properties (S fuel) node prefix
  = (props <- py_items node ;;
     foldM (attr_step (_parse_properties fuel) prefix) props []).
Proof. reflexivity. Qed.

Lemma bind_assoc {A B C} (m : result A) (f : A -> result B)
      (g : B -> result C) :
  bind (bind m f) g = bind m (fun a => bind (f a) g).
Proof. destruct m; reflexivity. Qed.

Lemma attr_step_acc rec prefix acc kv :
  attr_step rec prefix acc kv
  = (more <- attr_step rec prefix [] kv ;; Ok (acc ++ more)).
Proof.
  destruct kv as [name info]. unfold attr_step.
  repeat (rewrite bind_assoc; apply bind_ext; intro).
  match goal with |- context [if ?b then _ else _] => destruct b end;
    repeat (rewrite bind_assoc; apply bind_ext; intro); reflexivity.
Qed.

Lemma attr_fold_acc rec prefix l : forall acc,
  foldM (attr_step rec prefix) l acc
  = (more <- foldM (attr_step rec prefix) l [] ;; Ok (acc ++ more)).
Proof.
  induction l as [|kv l IH]; intro acc; simpl.
  - rewrite app_nil_r. reflexivity.
  - rewrite (attr_step_acc rec prefix acc kv).
    rewrite bind_assoc.
    destruct (attr_step rec prefix [] kv) as [m| |]; cbn [bind];
      try reflexivity.
    rewrite (IH (acc ++ m)), (IH m). rewrite bind_assoc.
    apply bind_ext. intro more. cbn [bind]. rewrite app_assoc. reflexivity.
Qed.

(** X9.  The columns of a properties map come in the order of its
    properties: those of the first properties, then those of the rest, and
    the flattening fails where either part fails. *)
Theorem parse_properties_concatenates :
  forall fuel p1 p2 prefix,
    _parse_properties fuel (JObj (p1 ++ p2)) prefix
    = (a1 <- _parse_properties fuel (JObj p1) prefix ;;
       a2 <- _parse_properties fuel (JObj p2) prefix ;;
       Ok (a1 ++ a2)).
Proof.
  intros [|fuel] p1 p2 prefix; [reflexivity|].
  rewrite !_parse_properties_S. cbn [py_items bind].
  rewrite foldM_app. apply bind_ext. intro a1.
  apply attr_fold_acc.
Qed.

Lemma foldM_agree {A B} (s1 s2 : B -> A -> result B) l :
  (forall x acc, In x l ->
     s1 acc x = s2 acc x /\ s1 acc x <> OutOfFuel) ->
  forall acc,
    foldM s1 l acc = foldM s2 l acc /\ foldM s1 l acc <> OutOfFuel.
Proof.
  induction l as [|x l IH]; intros Hstep acc; simpl.
  - split; [reflexivity | discriminate].
  - destruct (Hstep x acc (or_introl eq_refl)) as [E Hne]. rewrite <- E.
    destruct (s1 acc x) as [acc'| |]; cbn [bind].
    + apply IH. intros y a Hy. apply Hstep. right. exact Hy.
    + split; [reflexivity | discriminate].
    + congruence.
Qed.

Lemma dict_get_In {V} k (d : list (string * V)) v :
  dict_get k d = Some v -> In (k, v) d.
Proof.
  induction d as [|[k' v'] d IH]; simpl; [discriminate|].
  destruct (String.eqb k k') eqn:E.
  - apply String.eqb_eq in E. intro H. inversion H; subst. left. reflexivity.
  - intro H. right. apply IH. exact H.
Qed.

Lemma depth_In k v d : In (k, v) d -> depth v < depth (JObj d).
Proof.
  intro H. cbn [depth]. apply Nat.lt_succ_r.
  assert (Hall : Forall (fun n => n <= list_max (map (fun kv => depth (snd kv)) d))
                        (map (fun kv => depth (snd kv)) d)).
  { apply list_max_le. apply Nat.le_refl. }
  rewrite Forall_forall in Hall. apply Hall.
  apply (in_map (fun kv => depth (snd kv)) d (k, v)). exact H.
Qed.

Lemma py_get_returns x k dflt : py_get x k dflt <> OutOfFuel.
Proof.
  destruct x; try discriminate. simpl.
  destruct (dict_get k d); discriminate.
Qed.

Lemma parse_properties_fuel :
  forall f1 f2 node prefix,
    depth node < f1 -> depth node < f2 ->
    _parse_properties f1 node prefix = _parse_properties f2 node prefix /\
    _parse_properties f1 node prefix <> OutOfFuel.
Proof.
  induction f1 as [|f1 IH]; intros f2 node prefix H1 H2; [lia|].
  destruct f2 as [|f2]; [lia|].
  rewrite !_parse_properties_S.
  destruct node as [| | | | |l|d]; cbn [py_items bind];
    try (split; [reflexivity | discriminate]).
  apply foldM_agree. intros [name info] acc Hin.
  apply depth_In in Hin. unfold attr_step.
  destruct (py_in "properties" info) as [[|]| |] eqn:Ein; cbn [bind];
    try (split; [reflexivity | discriminate]);
    [ | | destruct info; discriminate Ein ].
  - destruct info as [| | | | s|l|d']; cbn [py_getitem bind];
      try (split; [reflexivity | discriminate]).
    destruct (dict_get "properties" d') as [sub|] eqn:Eget; cbn [bind];
      [|split; [reflexivity | discriminate]].
    apply dict_get_In, depth_In in Eget.
    destruct (IH f2 sub (prefix ++ [name])) as [E Hne]; [lia | lia |].
    rewrite <- E.
    destruct (_parse_properties f1 sub (prefix ++ [name])); cbn [bind];
      split; (reflexivity || discriminate || congruence).
  - split; [reflexivity|].
    assert (Hitem : forall c,
              (if truthy c then py_get c "type" JNull else Ok JNull)
              <> OutOfFuel).
    { intro c. destruct (truthy c);
        [apply py_get_returns | discriminate]. }
    repeat match goal with
           | |- bind ?m _ <> _ =>
               let E := fresh "E" in
               destruct m eqn:E; cbn [bind];
               [ | discriminate
                 | exfalso; revert E;
                   first [apply py_get_returns | apply Hitem] ]
           end.
    discriminate.
Qed.

(** X10.  [_parse_properties] comes to an end on every document: with more
    fuel than the document is deep the outcome is a list of columns or an
    exception, and it is the same for every such amount of fuel. *)
Theorem parse_properties_terminates :
  forall fuel node prefix,
    depth node < fuel ->
    _parse_properties fuel node prefix <> OutOfFuel /\
    _parse_properties fuel node prefix
    = _parse_properties (S (depth node)) node prefix.
Proof.
  intros fuel node prefix H.
  destruct (@parse_properties_fuel fuel (S (depth node)) node prefix H
              (Nat.lt_succ_diag_r _)) as [E Hne].
  split; assumption.
Qed.

Lemma parse_properties_terminates_witness :
  _parse_properties 7 (JObj (row_schema_head ++ row_schema_tail)) []
  <> OutOfFuel /\
  _parse_properties 7 (JObj (row_schema_head ++ row_schema_tail)) []
  = _parse_properties
      (S (depth (JObj (row_schema_head ++ row_schema_tail))))
      (JObj (row_schema_head ++ row_schema_tail)) [].
Proof.
  apply parse_properties_terminates. vm_compute. lia.
Defined.

(** ** Documentation URLs *)

Lemma lower_or_space_cases c :
  is_lower_or_space c = true ->
  (if Ascii.eqb " " c then true else is_lower_or_hyphen c) = true.
Proof.
  destruct c as [[] [] [] [] [] [] [] []]; vm_compute; auto.
Qed.

Lemma replace_space_alphabet s :
  str_forallb is_lower_or_space s = true ->
  str_forallb is_lower_or_hyphen (replace_from " " "-" 0 s) = true.
Proof.
  induction s as [|c s IH]; intro H; [reflexivity|].
  cbn [str_forallb] in H. apply andb_true_iff in H. destruct H as [Hc Hs].
  cbn [replace_from]. rewrite prefix_String, prefix_empty.
  apply lower_or_space_cases in Hc.
  destruct (Ascii.eqb " " c).
  - change (str_forallb is_lower_or_hyphen
              (String "-" (replace_from " " "-" 0 s)) = true).
    cbn [str_forallb]. rewrite (IH Hs). reflexivity.
  - cbn [str_forallb]. rewrite Hc, (IH Hs). reflexivity.
Qed.

Lemma str_filter_forallb f s : str_forallb f (str_filter f s) = true.
Proof.
  induction s as [|c s IH]; simpl; [reflexivity|].
  destruct (f c) eqn:E; simpl; [rewrite E|]; assumption.
Qed.

Lemma replace_space_length s :
  String.length (replace_from " " "-" 0 s) = String.length s.
Proof.
  induction s as [|c s IH]; [reflexivity|].
  cbn [replace_from]. rewrite prefix_String, prefix_empty.
  destruct (Ascii.eqb " " c).
  - change (String.length (String "-" (replace_from " " "-" 0 s))
            = String.length (String c s)).
    simpl. rewrite IH. reflexivity.
  - simpl. rewrite IH. reflexivity.
Qed.

Lemma str_filter_length f s :
  String.length (str_filter f s) <= String.length s.
Proof.
  induction s as [|c s IH]; simpl; [lia|].
  destruct (f c); simpl; lia.
Qed.

Lemma str_map_length f s : String.length (str_map f s) = String.length s.
Proof. induction s as [|c s IH]; simpl; congruence. Qed.

(** X11.  The path made of a tag or of a summary, a string of characters
    with code points below 256, holds nothing but the letters [a] to [z]
    and hyphens, and is no longer than the text it is made of. *)
Theorem flatten_url_path_alphabet :
  forall t,
    exists s,
      _flatten_url_path (JStr t) = Ok s /\
      str_forallb is_lower_or_hyphen s = true /\
      String.length s <= String.length t.
Proof.
  intro t. eexists. split; [reflexivity|]. unfold str_replace. split.
  - apply replace_space_alphabet, str_filter_forallb.
  - rewrite replace_space_length.
    rewrite <- (str_map_length lower_char t). apply str_filter_length.
Qed.

(** ** Dispatch: [call_operation] beside [handle_command] *)

(** X12.  [call_operation] finds an operation by its canonical name only:
    what it finds, [handle_command] finds as well, and for any other name,
    an alias included, it raises [ValueError]. *)
Theorem call_operation_is_canonical_lookup :
  forall ops command action,
    (exists o acts,
        dict_get command ops = Some acts /\ dict_get action acts = Some o /\
        call_operation ops command action = Ok o /\
        handle_command ops command action = Ok o)
    \/ (call_operation ops command action = Raise ValueError /\
        forall acts, dict_get command ops = Some acts ->
                     dict_get action acts = None).
Proof.
  intros ops command action. unfold call_operation, handle_command.
  destruct (dict_get command ops) as [acts|] eqn:Ec.
  - destruct (dict_get action acts) as [o|] eqn:Ea.
    + left. exists o, acts. repeat split; (assumption || reflexivity).
    + right. split; [reflexivity|]. intros acts' H.
      inversion H; subst. exact Ea.
  - right. split; [reflexivity|]. intros acts' H. discriminate.
Qed.

(** ** Request Translator: the filter of a [get] *)

Section DictDel.
Variable V : Type.

Lemma filter_key_notin n (d : list (string * V)) :
  ~ In n (keys d) ->
  filter (fun kv => negb (String.eqb (fst kv) n)) d = d.
Proof.
  induction d as [|[k v] d IH]; simpl; intro H; [reflexivity|].
  destruct (String.eqb k n) eqn:E.
  - apply String.eqb_eq in E. tauto.
  - simpl. rewrite IH; tauto.
Qed.

Lemma dict_del_filter n (d : list (string * V)) :
  NoDup (keys d) -> dict_mem n d = true ->
  dict_del n d = Ok (filter (fun kv => negb (String.eqb (fst kv) n)) d).
Proof.
  unfold dict_mem.
  induction d as [|[k v] d IH]; simpl; intros Hnd H; [discriminate|].
  inversion Hnd as [|? ? Hnotin Hnd']; subst.
  rewrite (String.eqb_sym k n).
  destruct (String.eqb n k) eqn:E; simpl.
  - apply String.eqb_eq in E. subst k.
    rewrite filter_key_notin by assumption. reflexivity.
  - rewrite (IH Hnd' H). reflexivity.
Qed.

Lemma NoDup_keys_filter f (d : list (string * V)) :
  NoDup (keys d) -> NoDup (keys (filter f d)).
Proof.
  induction d as [|[k v] d IH]; simpl; intro H; [constructor|].
  inversion H as [|? ? Hnotin Hnd]; subst.
  destruct (f (k, v)); simpl; [|auto].
  constructor; [|auto]. intro Hin. apply Hnotin.
  unfold keys in *. apply in_map_iff in Hin.
  destruct Hin as [[k' v'] [Ek Hin]]. apply filter_In in Hin.
  apply in_map_iff. exists (k', v'). tauto.
Qed.
End DictDel.

Lemma remove_url_params names :
  forall params (d : list (string * json)),
    map param_name params = map JStr names ->
    NoDup (keys d) ->
    foldM remove_url_param params d
    = Ok (filter (fun kv => negb (existsb (String.eqb (fst kv)) names)) d).
Proof.
  induction names as [|n names IH]; intros params d Hmap Hnd.
  - destruct params; [|discriminate]. simpl.
    f_equal. clear. induction d as [|kv d IHd]; simpl; [reflexivity|].
    f_equal. exact IHd.
  - destruct params as [|p params]; [discriminate|].
    simpl in Hmap. inversion Hmap as [[Hp Hrest]].
    cbn [foldM]. unfold remove_url_param at 1. rewrite Hp.
    assert (E : (if dict_mem n d then dict_del n d else Ok d)
                = Ok (filter (fun kv => negb (String.eqb (fst kv) n)) d)).
    { destruct (dict_mem n d) eqn:Em.
      - apply dict_del_filter; assumption.
      - rewrite filter_key_notin; [reflexivity|].
        apply dict_get_None_notin. unfold dict_mem in Em.
        destruct (dict_get n d); [discriminate | reflexivity]. }
    rewrite E. cbn [bind].
    rewrite (IH params _ Hrest (@NoDup_keys_filter _ _ _ Hnd)).
    f_equal. clear. induction d as [|[k v] d IHd]; simpl; [reflexivity|].
    destruct (String.eqb k n); simpl; [exact IHd|].
    destruct (existsb (String.eqb k) names); simpl;
      [exact IHd | f_equal; exact IHd].
Qed.

(** X13.  The filter of a [get] without a filter of the caller's own is
    made of the parsed arguments that are not URL parameters and have a
    value, in their order; there is no filter when none is left. *)
Theorem get_filter_is_arguments_without_url_params :
  forall config_update defaults operation parsed_args names,
    op_method operation = "get" ->
    NoDup (keys parsed_args) ->
    map param_name (op_params operation) = map JStr names ->
    do_request config_update defaults operation parsed_args None
    = Ok (XFilter match kept_filters names parsed_args with
                  | [] => None
                  | _ :: _ => Some (JObj (kept_filters names parsed_args))
                  end).
Proof.
  intros config_update defaults operation parsed_args names Hm Hnd Hnames.
  unfold do_request. rewrite Hm. cbn [String.eqb Ascii.eqb Bool.eqb].
  rewrite (@remove_url_params names _ _ Hnames Hnd). cbn [bind].
  assert (E : drop_None
                (filter (fun kv => negb (existsb (String.eqb (fst kv)) names))
                        parsed_args)
              = kept_filters names parsed_args).
  { unfold drop_None, kept_filters. clear.
    induction parsed_args as [|[k v] d IH]; simpl; [reflexivity|].
    destruct (existsb (String.eqb k) names); simpl; [assumption|].
    destruct (is_None v); simpl; congruence. }
  rewrite E. destruct (kept_filters names parsed_args); reflexivity.
Qed.

Lemma get_filter_is_arguments_without_url_params_witness :
  do_request (fun parsed_args _ => parsed_args) true view_operation
             [("linodeId", JInt 12); ("label", JStr "web"); ("region", JNull)]
             None
  = Ok (XFilter (Some (JObj [("label", JStr "web")]))).
Proof.
  apply (@get_filter_is_arguments_without_url_params
           (fun parsed_args _ => parsed_args) true view_operation
           [("linodeId", JInt 12); ("label", JStr "web"); ("region", JNull)]
           ["linodeId"]).
  - reflexivity.
  - repeat constructor; simpl; intuition discriminate.
  - reflexivity.
Defined.

(** ** Request Translator: bodies of flat arguments, clashing paths *)

Lemma expand_flat :
  forall (l d : list (string * json)),
    NoDup (keys (d ++ l)) ->
    Forall (fun k => lacks "." k = true) (keys l) ->
    foldM (fun expanded (kv : string * json) =>
             let (k, v) := kv in
             let parts := str_split "." k in
             assign_path (removelast parts) (last parts EmptyString) v
                         expanded)
          l (JObj d)
    = Ok (JObj (d ++ l)).
Proof.
  induction l as [|[k v] l IH]; intros d Hnd Hflat.
  - rewrite app_nil_r. reflexivity.
  - inversion Hflat as [|? ? Hk Hl]; subst.
    cbn [foldM]. rewrite (str_split_lacks _ Hk).
    cbn [removelast last assign_path py_setitem bind].
    assert (Hnotin : dict_get k d = None).
    { apply dict_get_None_notin. unfold keys in *. rewrite map_app in Hnd.
      apply NoDup_remove_2 in Hnd. intro Hin. apply Hnd.
      apply in_or_app. left. exact Hin. }
    rewrite (@dict_set_notin _ k v d Hnotin).
    assert (Hnd' : NoDup (keys ((d ++ [(k, v)]) ++ l))).
    { rewrite <- app_assoc. exact Hnd. }
    transitivity (Ok (JObj ((d ++ [(k, v)]) ++ l)));
      [exact (IH (d ++ [(k, v)]) Hnd' Hl)|].
    rewrite <- app_assoc. reflexivity.
Qed.

Lemma Forall_keys_filter {V} (P : string -> Prop) f (d : list (string * V)) :
  Forall P (keys d) -> Forall P (keys (filter f d)).
Proof.
  induction d as [|[k v] d IH]; simpl; intro H; [constructor|].
  inversion H; subst. destruct (f (k, v)); simpl; auto.
Qed.

(** X14.  When no argument name holds a full stop, the body of a request
    that is not a [get] is the dictionary of the arguments that have a
    value, in their order, saved defaults included. *)
Theorem flat_arguments_are_the_body :
  forall config_update defaults operation parsed_args filter_header,
    String.eqb (op_method operation) "get" = false ->
    NoDup (keys (with_defaults config_update defaults operation parsed_args)) ->
    Forall (fun k => lacks "." k = true)
           (keys (with_defaults config_update defaults operation parsed_args)) ->
    do_request config_update defaults operation parsed_args filter_header
    = Ok (Body (JObj (drop_None
                        (with_defaults config_update defaults operation
                                       parsed_args)))).
Proof.
  intros config_update defaults operation parsed_args filter_header
         Hm Hnd Hflat.
  unfold do_request. rewrite Hm.
  fold (with_defaults config_update defaults operation parsed_args).
  unfold expand_paths.
  rewrite (@expand_flat (drop_None _) []).
  - reflexivity.
  - apply NoDup_keys_filter. exact Hnd.
  - apply Forall_keys_filter. exact Hflat.
Qed.

Lemma flat_arguments_are_the_body_witness :
  do_request (fun parsed_args _ => parsed_args) true create_operation
             [("label", JStr "web"); ("region", JStr "us-east");
              ("tags", JNull)]
             None
  = Ok (Body (JObj [("label", JStr "web"); ("region", JStr "us-east")])).
Proof.
  apply (@flat_arguments_are_the_body (fun parsed_args _ => parsed_args) true
           create_operation
           [("label", JStr "web"); ("region", JStr "us-east");
            ("tags", JNull)] None).
  - reflexivity.
  - repeat constructor; simpl; intuition discriminate.
  - repeat constructor.
Defined.

Lemma assign_path_non_dict parts lst v x :
  (forall d, x <> JObj d) ->
  assign_path parts lst v x = Raise TypeError.
Proof.
  intro Hx. destruct parts as [|part parts]; cbn [assign_path].
  - destruct x; try reflexivity. elim (Hx d). reflexivity.
  - destruct x; try reflexivity.
    + cbn [py_in bind]. destruct (contains part s); reflexivity.
    + cbn [py_in bind]. destruct (existsb (eq_str part) l); reflexivity.
    + elim (Hx d). reflexivity.
Qed.

(** X15.  An argument [a] whose value is not a dictionary, followed by an
    argument below it ([a.b], [a.b.c], ...), makes the body construction
    of a request that is not a [get] raise [TypeError]. *)
Theorem nested_under_scalar_raises_TypeError :
  forall config_update defaults operation parsed_args filter_header
         flat a rest x v after,
    String.eqb (op_method operation) "get" = false ->
    drop_None (with_defaults config_update defaults operation parsed_args)
    = flat ++ ((a ++ "." ++ rest)%string, v) :: after ->
    NoDup (keys flat) ->
    Forall (fun k => lacks "." k = true) (keys flat) ->
    lacks "." a = true ->
    dict_get a flat = Some x ->
    (forall d, x <> JObj d) ->
    do_request config_update defaults operation parsed_args filter_header
    = Raise TypeError.
Proof.
  intros config_update defaults operation parsed_args filter_header
         flat a rest x v after Hm Hargs Hnd Hflat Ha Hget Hx.
  unfold do_request. rewrite Hm.
  fold (with_defaults config_update defaults operation parsed_args).
  rewrite Hargs. unfold expand_paths. rewrite foldM_app.
  pose proof (@expand_flat flat [] Hnd Hflat) as Hf.
  cbv zeta in Hf. rewrite Hf. clear Hf.
  cbn [bind app foldM].
  change (a ++ "." ++ rest)%string with (a ++ String "." rest)%string.
  rewrite (@str_split_dot a rest Ha).
  destruct (str_split_cons "." rest) as [h [t E]]. rewrite E.
  change (removelast (a :: h :: t)) with (a :: removelast (h :: t)).
  cbn [assign_path py_in]. unfold dict_mem. rewrite Hget. cbn [bind].
  cbn [py_getitem]. rewrite Hget. cbn [bind].
  rewrite (@assign_path_non_dict _ _ v x Hx). reflexivity.
Qed.

Lemma nested_under_scalar_raises_TypeError_witness :
  do_request (fun parsed_args _ => parsed_args) false create_operation
             [("label", JStr "web"); ("image", JStr "debian");
              ("image.id", JInt 7)]
             None
  = Raise TypeError.
Proof.
  apply (@nested_under_scalar_raises_TypeError
           (fun parsed_args _ => parsed_args) false create_operation
           [("label", JStr "web"); ("image", JStr "debian");
            ("image.id", JInt 7)]
           None
           [("label", JStr "web"); ("image", JStr "debian")]
           "image" "id" (JStr "debian") (JInt 7) []).
  - reflexivity.
  - reflexivity.
  - repeat constructor; simpl; intuition discriminate.
  - repeat constructor.
  - reflexivity.
  - reflexivity.
  - intros d H. discriminate H.
Defined.

(** ** Operation Compiler: what a bake keeps *)

Lemma top_frame_refl spec : top_frame spec spec.
Proof. intros k _ _. reflexivity. Qed.

Lemma top_frame_trans s1 s2 s3 :
  top_frame s1 s2 -> top_frame s2 s3 -> top_frame s1 s3.
Proof.
  intros H12 H23 k Hp Hc. rewrite (H23 k Hp Hc). apply H12; assumption.
Qed.

Lemma set_at_frame k0 loc v doc k :
  k <> k0 -> py_getitem (set_at (k0 :: loc) v doc) k = py_getitem doc k.
Proof.
  intro Hne. destruct doc; try reflexivity. cbn [set_at].
  destruct (dict_get k0 d) eqn:E; [|reflexivity].
  cbn [py_getitem]. rewrite dict_get_set_other by assumption. reflexivity.
Qed.

Lemma set_at_paths loc v doc : top_frame doc (set_at ("paths" :: loc) v doc).
Proof. intros k Hp _. apply set_at_frame. exact Hp. Qed.

Lemma compile_request_frame fuel spec path m op args rf ad spec' :
  compile_request fuel spec ["paths"; path; m] m op = Ok (args, rf, ad, spec') ->
  top_frame spec spec'.
Proof.
  unfold compile_request. intro H.
  bind_inv H as has_body E1. destruct has_body.
  2:{ inversion H; subst. apply top_frame_refl. }
  bind_inv H as body E2. bind_inv H as allowed E3.
  bind_inv H as content E4. bind_inv H as is_json E5.
  destruct is_json.
  2:{ inversion H; subst. apply top_frame_refl. }
  bind_inv H as cj E6. bind_inv H as raw E7.
  bind_inv H as gathered E8. destruct gathered as [[rf0 node] raw'].
  bind_inv H as args0 E9.
  assert (Hs : spec' = set_at (["paths"; path; m]
                                 ++ ["requestBody"; "content";
                                     "application/json"; "schema"])
                              raw' spec) by congruence.
  rewrite Hs. exact (set_at_paths _ raw' spec).
Qed.

Lemma resolve_response_frame spec loc resp_con resp_con' spec' :
  resolve_response spec ("paths" :: loc) resp_con = Ok (resp_con', spec') ->
  top_frame spec spec'.
Proof.
  unfold resolve_response. intro H.
  bind_inv H as has_ref E1. bind_inv H as found E2.
  destruct found as [[rc loc'] via_ref].
  bind_inv H as has_allOf E3. destruct has_allOf.
  2:{ inversion H; subst. apply top_frame_refl. }
  destruct rc as [| | | | | |d]; try discriminate.
  bind_inv H as a E4. bind_inv H as merged E5. bind_inv H as d' E6.
  destruct (via_ref && negb (is_component loc')) eqn:Eguard;
    [discriminate|].
  inversion H; subst. clear H.
  destruct has_ref.
  - bind_inv E2 as r Er. bind_inv E2 as v Ev. bind_inv E2 as parts Eparts.
    inversion E2; subst. simpl in Eguard.
    apply negb_false_iff in Eguard.
    destruct (tl parts) as [|a1 [|a2 [|a3 [|]]]]; try discriminate.
    simpl in Eguard. apply andb_true_iff in Eguard.
    destruct Eguard as [Ea _]. apply String.eqb_eq in Ea. subst a1.
    intros k _ Hc. apply set_at_frame. exact Hc.
  - inversion E2; subst. apply set_at_paths.
Qed.

Lemma response_content_loc path m op cj resp_con loc :
  response_content ["paths"; path; m] op = Ok (Some (cj, resp_con, loc)) ->
  exists rest, loc = "paths" :: rest.
Proof.
  unfold response_content. intro H.
  bind_inv H as responses E1. bind_inv H as has200 E2.
  bind_inv H as is_json E3. destruct is_json; [|discriminate].
  bind_inv H as r200 E4. bind_inv H as content E5. bind_inv H as cj0 E6.
  bind_inv H as schema E7. bind_inv H as use E8.
  destruct use.
  - bind_inv H as v E9. inversion H; subst. eexists. reflexivity.
  - inversion H; subst. eexists. reflexivity.
Qed.

Lemma compile_response_frame fuel spec path m op model spec' :
  compile_response fuel spec ["paths"; path; m] op = Ok (model, spec') ->
  top_frame spec spec'.
Proof.
  unfold compile_response. intro H.
  bind_inv H as found E1. destruct found as [[[cj resp_con] loc]|].
  2:{ inversion H; subst. apply top_frame_refl. }
  destruct (response_content_loc _ _ _ E1) as [rest ->].
  bind_inv H as resolved E2. destruct resolved as [resp_con' spec1].
  bind_inv H as row E3. bind_inv H as mdl E4. inversion H; subst.
  eapply resolve_response_frame. exact E2.
Qed.

(** What [bake_method] returns: the document changes below [paths] and
    [components] only, and an operation carries the names and the method
    it was made for. *)
Lemma bake_method_shape fuel spec servers path data command params m made
      spec' :
  bake_method fuel spec servers path data command params m
  = Ok (made, spec') ->
  top_frame spec spec' /\
  forall key o, made = Some (key, o) ->
                op_command o = command /\ op_action o = key /\
                op_method o = m.
Proof.
  unfold bake_method. intro H.
  bind_inv H as op Eop. bind_inv H as skip Eskip.
  destruct (truthy skip).
  { inversion H; subst. split; [apply top_frame_refl | discriminate]. }
  bind_inv H as nm Enamed.
  destruct nm as [[action aliases]|].
  2:{ inversion H; subst. split; [apply top_frame_refl | discriminate]. }
  bind_inv H as summary Es. bind_inv H as docs Ed.
  bind_inv H as has_servers Ehs. bind_inv H as use_servers Eus.
  bind_inv H as req Ereq. destruct req as [[[args rf] ad] spec1].
  bind_inv H as resp Eresp. destruct resp as [model spec2].
  bind_inv H as cli_args Ecli.
  bind_inv H as coll Ecoll. destruct coll as [use_params use_path].
  bind_inv H as k Ek.
  inversion H; subst; clear H. split.
  - eapply top_frame_trans.
    + eapply compile_request_frame. exact Ereq.
    + eapply compile_response_frame. exact Eresp.
  - intros key o Hmade. inversion Hmade; subst. simpl. auto.
Qed.

Section DictKeys.
Variable V : Type.

Lemma keys_dict_set k v (d : list (string * V)) :
  keys (dict_set k v d)
  = match dict_get k d with
    | Some _ => keys d
    | None => keys d ++ [k]
    end.
Proof.
  induction d as [|[k' v'] d IH]; simpl; [reflexivity|].
  destruct (String.eqb k k') eqn:E; simpl.
  - apply String.eqb_eq in E. subst. reflexivity.
  - rewrite IH. destruct (dict_get k d); reflexivity.
Qed.

Lemma NoDup_snoc (l : list string) x :
  NoDup l -> ~ In x l -> NoDup (l ++ [x]).
Proof.
  intros Hl Hx. apply NoDup_app; [assumption | repeat constructor; auto |].
  intros a Ha [E|[]]. subst. contradiction.
Qed.

Lemma NoDup_dict_set k v (d : list (string * V)) :
  NoDup (keys d) -> NoDup (keys (dict_set k v d)).
Proof.
  intro H. rewrite keys_dict_set.
  destruct (dict_get k d) eqn:E; [assumption|].
  apply NoDup_snoc; [assumption|]. apply dict_get_None_notin. exact E.
Qed.

Lemma dict_get_del_other k n (d d' : list (string * V)) :
  k <> n -> dict_del n d = Ok d' -> dict_get k d' = dict_get k d.
Proof.
  intro Hne. revert d'.
  induction d as [|[k' v'] d IH]; simpl; intros d' H; [discriminate|].
  destruct (String.eqb n k') eqn:E.
  - inversion H; subst. apply String.eqb_eq in E. subst k'.
    apply String.eqb_neq in Hne. rewrite Hne. reflexivity.
  - bind_inv H as d'' Ed. inversion H; subst. simpl.
    destruct (String.eqb k k'); [reflexivity|]. apply IH. exact Ed.
Qed.

Lemma dict_get_del_same n (d d' : list (string * V)) :
  NoDup (keys d) -> dict_del n d = Ok d' -> dict_get n d' = None.
Proof.
  revert d'.
  induction d as [|[k' v'] d IH]; simpl; intros d' Hnd H; [discriminate|].
  inversion Hnd as [|? ? Hnotin Hnd']; subst.
  destruct (String.eqb n k') eqn:E.
  - inversion H; subst. apply String.eqb_eq in E. subst k'.
    apply dict_get_None_notin. exact Hnotin.
  - bind_inv H as d'' Ed. inversion H; subst. simpl. rewrite E.
    apply IH; assumption.
Qed.

Lemma dict_del_present n (d : list (string * V)) v :
  dict_get n d = Some v -> exists d', dict_del n d = Ok d'.
Proof.
  induction d as [|[k' v'] d IH]; simpl; [discriminate|].
  destruct (String.eqb n k'); [eauto|].
  intro H. destruct (IH H) as [d' E]. rewrite E. simpl. eauto.
Qed.

Lemma NoDup_dict_del n (d d' : list (string * V)) :
  NoDup (keys d) -> dict_del n d = Ok d' -> NoDup (keys d').
Proof.
  intros Hnd H.
  destruct (dict_mem n d) eqn:Em.
  - rewrite (@dict_del_filter _ n d Hnd Em) in H. inversion H; subst.
    apply NoDup_keys_filter. exact Hnd.
  - exfalso. unfold dict_mem in Em. clear Hnd. revert d' H.
    induction d as [|[k' v'] d IH]; simpl in *; intros d' H; [discriminate|].
    destruct (String.eqb n k'); [discriminate|].
    bind_inv H as d'' Ed. eapply IH; eassumption.
Qed.
End DictKeys.

Lemma register_ok command action o ops ops' :
  ops_ok ops -> named command action o ->
  register command action o ops = Ok ops' -> ops_ok ops'.
Proof.
  unfold register. intros [Hnd Hall] Hnamed H.
  destruct (dict_get command ops) as [actions|] eqn:E; [|discriminate].
  inversion H; subst. split.
  - apply NoDup_dict_set. exact Hnd.
  - apply Forall_dict_set; [exact Hall|]. simpl.
    apply Forall_dict_set; [|exact Hnamed].
    apply dict_get_In in E. rewrite Forall_forall in Hall.
    apply (Hall _ E).
Qed.

(** One path of the document keeps the registry well named and the
    document's top level as it was. *)
Lemma bake_path_keeps fuel servers spec0 st kv st' :
  ops_ok (fst st) -> top_frame spec0 (snd st) ->
  bake_path fuel servers st kv = Ok st' ->
  ops_ok (fst st') /\ top_frame spec0 (snd st').
Proof.
  destruct st as [ops spec]. destruct kv as [path data].
  cbn [fst snd]. intros Hops Hframe H. unfold bake_path in H.
  bind_inv H as c Ec. bind_inv H as command Ecommand.
  bind_inv H as params Eparams.
  revert H.
  apply (@foldM_inv string (ops_t * json)
           (fun st => ops_ok (fst st) /\ top_frame spec0 (snd st))).
  - intros [ops1 spec1] m [ops2 spec2] Hm [Hops1 Hframe1] Hstep.
    cbn [fst snd] in *.
    bind_inv Hstep as present Epresent. destruct present.
    2:{ inversion Hstep; subst. split; assumption. }
    bind_inv Hstep as res Eres. destruct res as [made spec3].
    destruct (bake_method_shape _ _ _ _ _ _ _ _ Eres) as [Hf Hnames].
    destruct made as [[action o]|].
    + bind_inv Hstep as ops3 Ereg. inversion Hstep; subst. split.
      * destruct (Hnames action o eq_refl) as [H1 [H2 H3]].
        eapply register_ok; [exact Hops1 | | exact Ereg].
        repeat split; try assumption. rewrite H3. exact Hm.
      * eapply top_frame_trans; eassumption.
    + inversion Hstep; subst. split; [assumption|].
      eapply top_frame_trans; eassumption.
  - cbn [fst snd]. split; [|exact Hframe].
    destruct (dict_mem command ops); [exact Hops|].
    destruct Hops as [Hnd Hall]. split.
    + apply NoDup_dict_set. exact Hnd.
    + apply Forall_dict_set; [exact Hall | constructor].
Qed.

Lemma bake_paths_keep fuel servers spec items st' :
  foldM (bake_path fuel servers) items ([], spec) = Ok st' ->
  ops_ok (fst st') /\ top_frame spec (snd st').
Proof.
  apply (@foldM_inv (string * json) (ops_t * json)
           (fun st => ops_ok (fst st) /\ top_frame spec (snd st))).
  - intros st kv st'' _ [Hops Hframe] Hstep.
    eapply bake_path_keeps; eassumption.
  - split; [split; constructor | apply top_frame_refl].
Qed.

(** The registry [bake] pickles, taken apart. *)
Lemma bake_ops_parts fuel spec reg :
  bake_ops fuel spec = Ok reg ->
  exists ops servers s0 base_url info version,
    ops_ok ops /\
    py_getitem spec "servers" = Ok servers /\
    py_first servers = Ok s0 /\
    py_getitem s0 "url" = Ok base_url /\
    py_getitem spec "info" = Ok info /\
    py_getitem info "version" = Ok version /\
    reg = dict_set "_spec_version" (Scalar version)
            (dict_set "_base_url" (Scalar base_url)
               (map (fun kv => (fst kv, Actions (snd kv)))
                    (filter (fun kv =>
                               negb (Nat.eqb (List.length (snd kv)) 0))
                            ops))).
Proof.
  unfold bake_ops. intro H.
  bind_inv H as servers0 E1. bind_inv H as default_servers E2.
  bind_inv H as paths E3. bind_inv H as items E4.
  bind_inv H as st E5. destruct st as [ops spec'].
  bind_inv H as servers E6. bind_inv H as s0 E7.
  bind_inv H as base_url E8. bind_inv H as info E9.
  bind_inv H as version E10. inversion H; subst; clear H.
  destruct (bake_paths_keep _ _ _ _ E5) as [Hops Hframe].
  cbn [fst snd] in *.
  exists ops, servers, s0, base_url, info, version.
  rewrite (Hframe "servers") in E6 by discriminate.
  rewrite (Hframe "info") in E9 by discriminate.
  split; [exact Hops|].
  repeat (split; [assumption|]). reflexivity.
Qed.

Lemma bake_Ok fuel spec data_file reg :
  bake fuel spec data_file = (Ok tt, Some reg) ->
  bake_ops fuel spec = Ok reg.
Proof.
  unfold bake. destruct (bake_ops fuel spec); intro H; inversion H.
  reflexivity.
Qed.

(** X16.  In the registry a bake writes, every command has at least one
    action, and every operation is stored under its own command and action
    names and has one of the four methods. *)
Theorem baked_operations_know_their_names :
  forall fuel spec data_file reg command acts,
    bake fuel spec data_file = (Ok tt, Some reg) ->
    In (command, Actions acts) reg ->
    acts <> [] /\
    forall action o,
      In (action, o) acts ->
      op_command o = command /\ op_action o = action /\
      In (op_method o) METHODS.
Proof.
  intros fuel spec data_file reg command acts H Hin.
  apply bake_Ok in H.
  destruct (bake_ops_parts _ _ H)
    as (ops & servers & s0 & base_url & info & version
        & [_ Hall] & _ & _ & _ & _ & _ & ->).
  assert (Hreg : Forall baked_entry_ok
            (dict_set "_spec_version" (Scalar version)
               (dict_set "_base_url" (Scalar base_url)
                  (map (fun kv => (fst kv, Actions (snd kv)))
                       (filter (fun kv =>
                                  negb (Nat.eqb (List.length (snd kv)) 0))
                               ops))))).
  { repeat apply Forall_dict_set; try exact I.
    apply Forall_map. apply Forall_forall. intros [c a] Hca.
    apply filter_In in Hca. destruct Hca as [Hca Hlen].
    rewrite Forall_forall in Hall. specialize (Hall _ Hca).
    unfold baked_entry_ok. cbn [fst snd] in *. split; [|exact Hall].
    destruct a; [discriminate Hlen | discriminate]. }
  rewrite Forall_forall in Hreg. specialize (Hreg _ Hin).
  unfold baked_entry_ok in Hreg. cbn [fst snd] in Hreg.
  destruct Hreg as [Hne Hacts]. split; [exact Hne|].
  intros action o Hao. rewrite Forall_forall in Hacts.
  exact (Hacts _ Hao).
Qed.

Lemma baked_operations_know_their_names_witness :
  things_actions <> [] /\
  forall action o,
    In (action, o) things_actions ->
    op_command o = "things" /\ op_action o = action /\
    In (op_method o) METHODS.
Proof.
  apply (@baked_operations_know_their_names 5 things_document None
           things_registry "things" things_actions).
  - reflexivity.
  - left. reflexivity.
Defined.

(** ** Loading what a bake wrote *)

Lemma take_entry_present k (ops : registry) old v :
  NoDup (keys ops) -> dict_get k ops = Some v ->
  exists ops',
    take_entry k ops old = Ok (ops', v) /\
    NoDup (keys ops') /\ dict_get k ops' = None /\
    forall c, c <> k -> dict_get c ops' = dict_get c ops.
Proof.
  intros Hnd Hget. unfold take_entry, dict_mem. rewrite Hget.
  destruct (dict_del_present _ _ Hget) as [ops' Edel].
  exists ops'. rewrite Edel. split; [reflexivity|]. split.
  - eapply NoDup_dict_del; eassumption.
  - split.
    + eapply dict_get_del_same; eassumption.
    + intros c Hc. eapply dict_get_del_other; eassumption.
Qed.

(** X17.  Loading the file a bake has written succeeds, whatever the
    instance held before.  The base URL and the version it sets are the
    values the file holds under [_base_url] and [_spec_version]; the
    registry it keeps has neither of the two reserved keys and otherwise
    every entry of the file. *)
Theorem load_after_bake :
  forall fuel spec data_file reg self,
    bake fuel spec data_file = (Ok tt, Some reg) ->
    exists base_url version ops,
      dict_get "_base_url" reg = Some (Scalar base_url) /\
      dict_get "_spec_version" reg = Some (Scalar version) /\
      load_baked (Some reg) self
      = Ok (mk_cli_state (Some ops) (Scalar base_url) (Scalar version)) /\
      dict_get "_base_url" ops = None /\
      dict_get "_spec_version" ops = None /\
      forall c, c <> "_base_url" -> c <> "_spec_version" ->
                dict_get c ops = dict_get c reg.
Proof.
  intros fuel spec data_file reg self H. apply bake_Ok in H.
  destruct (bake_ops_parts _ _ H)
    as (ops & servers & s0 & base_url & info & version
        & [Hnd _] & _ & _ & _ & _ & _ & ->).
  set (commands := map (fun kv => (fst kv, Actions (snd kv)))
                       (filter (fun kv =>
                                  negb (Nat.eqb (List.length (snd kv)) 0))
                               ops)).
  set (reg := dict_set "_spec_version" (Scalar version)
                (dict_set "_base_url" (Scalar base_url) commands)).
  assert (Hreg : NoDup (keys reg)).
  { unfold reg. repeat apply NoDup_dict_set. unfold commands, keys.
    rewrite map_map. cbn [fst].
    apply (@NoDup_keys_filter _
             (fun kv => negb (Nat.eqb (List.length (snd kv)) 0)) ops Hnd). }
  assert (Hurl : dict_get "_base_url" reg = Some (Scalar base_url)).
  { unfold reg. rewrite dict_get_set_other by discriminate.
    apply dict_get_set_same. }
  assert (Hfile : dict_get "_spec_version" reg = Some (Scalar version)).
  { unfold reg. apply dict_get_set_same. }
  destruct (@take_entry_present "_base_url" reg (cli_base_url self) _
              Hreg Hurl) as (ops1 & Etake1 & Hnd1 & Hnone1 & Hsame1).
  assert (Hver : dict_get "_spec_version" ops1 = Some (Scalar version)).
  { rewrite Hsame1 by discriminate. exact Hfile. }
  destruct (@take_entry_present "_spec_version" ops1 (cli_spec_version self)
              _ Hnd1 Hver) as (ops2 & Etake2 & Hnd2 & Hnone2 & Hsame2).
  exists base_url, version, ops2.
  split; [exact Hurl|]. split; [exact Hfile|].
  split.
  - unfold load_baked. rewrite Etake1. cbn [bind]. rewrite Etake2.
    reflexivity.
  - split; [rewrite Hsame2 by discriminate; exact Hnone1|].
    split; [exact Hnone2|].
    intros c Hb Hv. rewrite Hsame2, Hsame1 by assumption. reflexivity.
Qed.

Lemma load_after_bake_witness :
  exists base_url version ops,
    dict_get "_base_url" things_registry = Some (Scalar base_url) /\
    dict_get "_spec_version" things_registry = Some (Scalar version) /\
    load_baked (Some things_registry) fresh_cli
    = Ok (mk_cli_state (Some ops) (Scalar base_url) (Scalar version)) /\
    dict_get "_base_url" ops = None /\
    dict_get "_spec_version" ops = None /\
    forall c, c <> "_base_url" -> c <> "_spec_version" ->
              dict_get c ops = dict_get c things_registry.
Proof.
  apply (@load_after_bake 5 things_document None things_registry fresh_cli).
  reflexivity.
Defined.

(** ** Operation Compiler: operations without a body *)

Lemma collision_without_args ps :
  forall done path r,
    foldM (collision_step []) ps (done, path) = Ok r ->
    r = (done ++ ps, path).
Proof.
  induction ps as [|p ps IH]; intros done path r H; simpl in H.
  - inversion H. rewrite app_nil_r. reflexivity.
  - bind_inv H as acc E. unfold collision_step in E.
    assert (Eacc : acc = (done ++ [p], path)).
    { destruct (param_name p); simpl in E; inversion E; reflexivity. }
    subst acc. rewrite (IH _ _ _ H), <- app_assoc. reflexivity.
Qed.

(** X18.  Only a [post] or a [put] gets arguments: an operation compiled
    for any other method has none, even if the document gives it a request
    body, and its URL and URL parameters are those of the path. *)
Theorem only_post_and_put_have_arguments :
  forall fuel spec servers path data command params m key o spec',
    bake_method fuel spec servers path data command params m
    = Ok (Some (key, o), spec') ->
    String.eqb m "post" || String.eqb m "put" = false ->
    op_args o = [] /\ op_url o = path /\ op_params o = params.
Proof.
  intros fuel spec servers path data command params m key o spec' H Hm.
  destruct (bake_method_parts _ _ _ _ _ _ _ _ H)
    as (op & args & rf & ad & spec1 & Eop & Ereq & Eresp & Eargs & Ecoll).
  unfold compile_request in Ereq. rewrite Hm in Ereq. cbn [bind] in Ereq.
  inversion Ereq; subst. simpl in Eargs. inversion Eargs as [Ha].
  unfold collision_pass in Ecoll. rewrite map_clone in Ecoll.
  apply collision_without_args in Ecoll. inversion Ecoll as [[Hp Hu]].
  repeat split; reflexivity.
Qed.

Lemma only_post_and_put_have_arguments_witness :
  op_args things_delete = [] /\ op_url things_delete = "/things/{id}" /\
  op_params things_delete = [mk_URLParam (JStr "id") (JStr "integer")].
Proof.
  apply (@only_post_and_put_have_arguments 5 things_document
           [JStr "https://api.example/v4"] "/things/{id}" thing_path
           "things" [mk_URLParam (JStr "id") (JStr "integer")] "delete"
           "delete" things_delete things_document).
  - reflexivity.
  - reflexivity.
Defined.

(** ** Response Schema Flattener: what every column looks like *)

Lemma py_or_False_not_None x : py_or x (JBool false) <> JNull.
Proof.
  unfold py_or. destruct (truthy x) eqn:E; [|discriminate].
  intro H. subst x. discriminate E.
Qed.

Lemma columns_below_prefix fuel :
  forall node p0 ext attrs,
    _parse_properties fuel node (p0 ++ ext) = Ok attrs ->
    Forall (column_ok p0) attrs.
Proof.
  induction fuel as [|fuel IH]; intros node p0 ext attrs H; [discriminate|].
  rewrite _parse_properties_S in H. bind_inv H as props Eprops.
  revert H.
  apply (@foldM_inv (string * json) (list ModelAttr) (Forall (column_ok p0)));
    [|constructor].
  intros acc [name info] acc' _ Hacc H. unfold attr_step in H.
  bind_inv H as has_props E1. destruct has_props.
  - bind_inv H as sub E2. bind_inv H as more E3. inversion H; subst.
    apply Forall_app. split; [exact Hacc|].
    rewrite <- app_assoc in E3. eapply IH. exact E3.
  - bind_inv H as item_container E2. bind_inv H as item_type E3.
    bind_inv H as filterable E4. bind_inv H as display E5.
    bind_inv H as ty E6. bind_inv H as color E7. inversion H; subst.
    apply Forall_app. split; [exact Hacc|].
    constructor; [|constructor]. unfold column_ok. cbn.
    split; [apply truthy_py_or; reflexivity|].
    split; [apply py_or_False_not_None|].
    split; [apply py_or_False_not_None|].
    exists (ext ++ [name]). split; [destruct ext; discriminate|].
    rewrite <- app_assoc. reflexivity.
Qed.

(** X19.  Every column [_parse_properties] returns has a type (["string"]
    when the schema gives none), has its two flags set or [False], never
    [None], and is named by a dotted path that starts with the prefix and
    goes on below it. *)
Theorem parse_properties_columns :
  forall fuel node prefix attrs a,
    _parse_properties fuel node prefix = Ok attrs ->
    In a attrs ->
    truthy (attr_datatype a) = true /\
    attr_filterable a <> JNull /\
    attr_display a <> JNull /\
    exists rest, rest <> [] /\ attr_name a = str_join "." (prefix ++ rest).
Proof.
  intros fuel node prefix attrs a H Hin.
  assert (Hall : Forall (column_ok prefix) attrs).
  { apply (@columns_below_prefix fuel node prefix [] attrs).
    rewrite app_nil_r. exact H. }
  rewrite Forall_forall in Hall. exact (Hall _ Hin).
Qed.

Lemma parse_properties_columns_witness :
  truthy (JStr "integer") = true /\
  JBool false <> JNull /\
  JBool false <> JNull /\
  exists rest, rest <> [] /\ "specs.disk" = str_join "." ([] ++ rest).
Proof.
  apply (@parse_properties_columns 3
           (JObj (row_schema_head ++ row_schema_tail)) []
           [mk_ModelAttr "id" (JBool false) (JBool false) (JStr "integer")
                         JNull JNull;
            mk_ModelAttr "specs.disk" (JBool false) (JBool false)
                         (JStr "integer") JNull JNull;
            mk_ModelAttr "tags" (JBool false) (JBool false) (JStr "array")
                         JNull (JStr "string")]
           (mk_ModelAttr "specs.disk" (JBool false) (JBool false)
                         (JStr "integer") JNull JNull)).
  - reflexivity.
  - right. left. reflexivity.
Defined.

(** ** Operation Compiler: the [required] list of a schema given in place *)

(** X20.  A body schema given in place, with a [required] list, with
    properties of which none is called [required], and with neither
    [allOf] nor [$ref], is changed by the bake: [+=] extends the very list
    the schema holds, twice, so that the list in the document and the
    required fields both hold every name four times. *)
Theorem in_place_required_list_grows :
  forall spec d l props,
    dict_get "required" d = Some (JArr l) ->
    dict_get "allOf" d = None ->
    dict_get "$ref" d = None ->
    dict_get "properties" d = Some (JObj props) ->
    dict_get "required" props = None ->
    gather_required spec (JObj d)
    = Ok (JArr ((l ++ l) ++ (l ++ l)), JObj props,
          JObj (dict_set "required" (JArr ((l ++ l) ++ (l ++ l))) d)).
Proof.
  intros spec d l props Hreq HallOf Href Hprops Hnone.
  unfold gather_required, add_required, py_in, py_getitem, dict_mem.
  rewrite Hreq, HallOf. cbn. rewrite Hreq. cbn.
  rewrite Href. cbn. rewrite Hreq. cbn. rewrite Hprops. cbn.
  rewrite Hnone. cbn. reflexivity.
Qed.

Lemma in_place_required_list_grows_witness :
  gather_required disk_document (JObj labelled_schema)
  = Ok (JArr (([JStr "label"] ++ [JStr "label"])
                ++ ([JStr "label"] ++ [JStr "label"])),
        JObj [("label", JObj [("type", JStr "string")])],
        JObj (dict_set "required"
                (JArr (([JStr "label"] ++ [JStr "label"])
                         ++ ([JStr "label"] ++ [JStr "label"])))
                labelled_schema)).
Proof.
  apply in_place_required_list_grows; reflexivity.
Defined.

(** ** The two flatteners name alike *)

Lemma py_get_dict d k default :
  py_get (JObj d) k default = Ok (get_or d k default).
Proof. unfold py_get, get_or. destruct (dict_get k d); reflexivity. Qed.

Lemma follow_refs_no_ref fuel spec d :
  dict_get "$ref" d = None -> follow_refs fuel spec (JObj d) = Ok (JObj d).
Proof.
  intro H. destruct fuel; simpl; unfold dict_mem; rewrite H; reflexivity.
Qed.

Lemma resolve_property_plain fuel spec d :
  dict_get "allOf" d = None -> dict_get "$ref" d = None ->
  resolve_property fuel spec (JObj d) = Ok (JObj d).
Proof.
  intros Ha Hr. unfold resolve_property. cbn [py_in bind].
  unfold dict_mem. rewrite Ha. cbn [bind].
  apply follow_refs_no_ref. exact Hr.
Qed.

(** One property, read by both flatteners. *)
Lemma flatteners_agree_step fuel spec prefix name info args more
      (rec_ok : forall sub attrs args0,
          Forall (fun kv => simple_info (snd kv)) sub ->
          _parse_properties fuel (JObj sub) (prefix ++ [name]) = Ok attrs ->
          NoDup (keys args0 ++ map attr_name attrs) ->
          exists args',
            _parse_args fuel spec (JObj sub) (prefix ++ [name]) args0
            = Ok args' /\
            keys args' = keys args0 ++ map attr_name attrs) :
  simple_info info ->
  attr_step (_parse_properties fuel) prefix [] (name, info) = Ok more ->
  NoDup (keys args ++ map attr_name more) ->
  exists args',
    parse_step (_parse_args fuel spec) fuel spec prefix args (name, info)
    = Ok args' /\
    keys args' = keys args ++ map attr_name more.
Proof.
  intros Hsimple Hattr Hnd. unfold attr_step in Hattr. unfold parse_step.
  destruct Hsimple as [d Ha Hr Hp Hro Hfmt Harr | d sub Ha Hr Hp Hsub].
  - rewrite (resolve_property_plain fuel spec d Ha Hr). cbn [bind py_in].
    cbn [py_in bind] in Hattr. unfold dict_mem in *. rewrite Hp in *.
    cbn [bind]. rewrite py_get_dict. cbn [bind]. rewrite Hro.
    unfold leaf_entry. cbn [py_in bind]. unfold dict_mem. rewrite Hr.
    cbn [bind]. repeat (rewrite py_get_dict; cbn [bind]).
    cbn [ai_format ai_type].
    rewrite Hfmt.
    destruct (eq_str "array" (py_or (get_or d "type" JNull) (JStr "string")))
      eqn:Earr.
    + cbn [py_in bind]. unfold dict_mem in Harr |- *.
      destruct (dict_get "items" d); [discriminate Harr|]. cbn [bind].
      repeat (rewrite py_get_dict in Hattr; cbn [bind] in Hattr).
      unfold get_or at 1 in Hattr.
      bind_inv Hattr as item_type Eit. inversion Hattr; subst more.
      eexists. split; [reflexivity|]. cbn [map attr_name app] in *.
      rewrite keys_dict_set.
      assert (Hn : dict_get (str_join "." (prefix ++ [name])) args = None).
      { apply dict_get_None_notin. intro Hin.
        apply NoDup_remove_2 in Hnd. apply Hnd. rewrite app_nil_r.
        exact Hin. }
      rewrite Hn. reflexivity.
    + cbn [bind].
      repeat (rewrite py_get_dict in Hattr; cbn [bind] in Hattr).
      bind_inv Hattr as item_type Eit. inversion Hattr; subst more.
      eexists. split; [reflexivity|]. cbn [map attr_name app] in *.
      rewrite keys_dict_set.
      assert (Hn : dict_get (str_join "." (prefix ++ [name])) args = None).
      { apply dict_get_None_notin. intro Hin.
        apply NoDup_remove_2 in Hnd. apply Hnd. rewrite app_nil_r.
        exact Hin. }
      rewrite Hn. reflexivity.
  - rewrite (resolve_property_plain fuel spec d Ha Hr). cbn [bind py_in].
    cbn [py_in bind py_getitem] in Hattr |- *.
    unfold dict_mem in *. rewrite Hp in *. cbn [bind] in Hattr |- *.
    bind_inv Hattr as attrs Eattrs. inversion Hattr; subst more.
    cbn [app] in *. apply rec_ok; assumption.
Qed.

Lemma flatteners_agree_fold fuel spec prefix
      (rec_ok : forall name sub attrs args0,
          Forall (fun kv => simple_info (snd kv)) sub ->
          _parse_properties fuel (JObj sub) (prefix ++ [name]) = Ok attrs ->
          NoDup (keys args0 ++ map attr_name attrs) ->
          exists args',
            _parse_args fuel spec (JObj sub) (prefix ++ [name]) args0
            = Ok args' /\
            keys args' = keys args0 ++ map attr_name attrs) :
  forall d more args,
    Forall (fun kv => simple_info (snd kv)) d ->
    foldM (attr_step (_parse_properties fuel) prefix) d [] = Ok more ->
    NoDup (keys args ++ map attr_name more) ->
    exists args',
      foldM (parse_step (_parse_args fuel spec) fuel spec prefix) d args
      = Ok args' /\
      keys args' = keys args ++ map attr_name more.
Proof.
  induction d as [|[name info] d IH]; intros more args Hd Hattr Hnd.
  - inversion Hattr; subst. exists args. split; [reflexivity|].
    simpl. rewrite app_nil_r. reflexivity.
  - inversion Hd as [|? ? Hinfo Hd']; subst. cbn [snd] in Hinfo.
    cbn [foldM] in Hattr |- *. bind_inv Hattr as a1 E1.
    rewrite attr_fold_acc in Hattr. bind_inv Hattr as m2 E2.
    inversion Hattr; subst more. rewrite map_app in Hnd.
    rewrite app_assoc in Hnd.
    destruct (@flatteners_agree_step fuel spec prefix name info args a1
                (rec_ok name) Hinfo E1) as [args1 [Estep Hkeys]].
    { apply NoDup_app_remove_r in Hnd. exact Hnd. }
    rewrite Estep. cbn [bind].
    destruct (IH m2 args1 Hd' E2) as [args' [Efold Hkeys']].
    { rewrite Hkeys. exact Hnd. }
    exists args'. split; [exact Efold|].
    rewrite Hkeys', Hkeys, map_app, app_assoc. reflexivity.
Qed.

Lemma flatteners_agree_acc spec fuel :
  forall prefix d attrs args,
    Forall (fun kv => simple_info (snd kv)) d ->
    _parse_properties fuel (JObj d) prefix = Ok attrs ->
    NoDup (keys args ++ map attr_name attrs) ->
    exists args',
      _parse_args fuel spec (JObj d) prefix args = Ok args' /\
      keys args' = keys args ++ map attr_name attrs.
Proof.
  induction fuel as [|fuel IH]; intros prefix d attrs args Hd Hattr Hnd;
    [discriminate|].
  rewrite _parse_properties_S in Hattr. rewrite _parse_args_S.
  cbn [py_items bind] in Hattr |- *.
  apply (@flatteners_agree_fold fuel spec prefix); try assumption.
  intros name sub attrs0 args0. apply IH.
Qed.

(** X21.  On a properties map made of nested objects and plain leaves (no
    [allOf], no reference, no read-only leaf, no format [json], no list
    with [items]) whose columns have distinct names, the two flatteners
    name alike: [_parse_args] returns, and the keys of its arguments are
    the names of the columns of [_parse_properties], in the same order. *)
Theorem arguments_are_named_as_columns :
  forall fuel spec d prefix attrs,
    Forall (fun kv => simple_info (snd kv)) d ->
    _parse_properties fuel (JObj d) prefix = Ok attrs ->
    NoDup (map attr_name attrs) ->
    exists args,
      _parse_args fuel spec (JObj d) prefix [] = Ok args /\
      keys args = map attr_name attrs.
Proof.
  intros fuel spec d prefix attrs Hd Hattr Hnd.
  apply (@flatteners_agree_acc spec fuel prefix d attrs []); assumption.
Qed.

Lemma arguments_are_named_as_columns_witness :
  exists args,
    _parse_args 3 disk_document (JObj specs_schema) [] [] = Ok args /\
    keys args
    = map attr_name
          [mk_ModelAttr "id" (JBool false) (JBool false) (JStr "integer")
                        JNull JNull;
           mk_ModelAttr "specs.disk" (JBool false) (JBool false)
                        (JStr "integer") JNull JNull].
Proof.
  apply (@arguments_are_named_as_columns 3 disk_document specs_schema []).
  - constructor; [apply simple_leaf; reflexivity|].
    constructor; [|constructor].
    apply (@simple_object _ [("disk", JObj [("type", JStr "integer")])]);
      try reflexivity.
    constructor; [apply simple_leaf; reflexivity | constructor].
  - reflexivity.
  - repeat constructor; simpl; intuition discriminate.
Defined.

(* ================================================================== *)
(** * Flattening and re-nesting *)

(** ** Pointers and references *)

Lemma lookup_path_getitem segments :
  forall doc v,
    lookup_path segments doc = Some v <->
    foldM py_getitem segments doc = Ok v.
Proof.
  induction segments as [|key rest IH]; intros doc v; simpl.
  - split; intro H; inversion H; reflexivity.
  - destruct doc as [| | | | | |d]; simpl; try (split; discriminate).
    destruct (dict_get key d) as [w|]; simpl; [apply IH|].
    split; discriminate.
Qed.

Lemma pointer_target_resolves spec r v :
  pointer_target spec r = Some v <-> _resolve_ref spec (JStr r) = Ok v.
Proof.
  unfold pointer_target, _resolve_ref. cbn [py_split bind].
  apply lookup_path_getitem.
Qed.



(** ** More fuel gives the same arguments *)

Lemma parse_step_rest rec fuel spec prefix args arg info :
  parse_step rec fuel spec prefix args (arg, info)
  = (resolved <- resolve_property fuel spec info ;;
     parse_rest rec spec prefix args arg resolved).
Proof. reflexivity. Qed.




(** ** What the flattener makes of a shape *)









(* ================================================================== *)
(** * Descriptions *)

(** ** What a step of the flattener leaves in the dictionary *)

Section DictIn.
Variable V : Type.

Lemma In_dict_set k v (d : list (string * V)) x :
  In x (dict_set k v d) -> x = (k, v) \/ In x d.
Proof.
  induction d as [|[k' v'] d IH]; simpl.
  - intros [H|[]]; left; congruence.
  - destruct (String.eqb k k'); simpl.
    + intros [H|H]; [left; congruence | right; right; exact H].
    + intros [H|H]; [right; left; exact H|].
      destruct (IH H); [left | right; right]; assumption.
Qed.

Lemma In_dict_update (e d : list (string * V)) x :
  In x (dict_update d e) -> In x d \/ In x e.
Proof.
  unfold dict_update. revert d.
  induction e as [|[k v] e IH]; simpl; intros d H; [left; exact H|].
  destruct (IH _ H) as [H1|H1]; [|right; right; exact H1].
  apply In_dict_set in H1. destruct H1 as [H1|H1].
  - right. left. symmetry. exact H1.
  - left. exact H1.
Qed.

Lemma In_dict_del k (d d' : list (string * V)) x :
  dict_del k d = Ok d' -> In x d' -> In x d.
Proof.
  revert d'. induction d as [|[k' v'] d IH]; simpl; intros d' H Hin;
    [discriminate|].
  destruct (String.eqb k k').
  - inversion H; subst. right. exact Hin.
  - bind_inv H as d'' E. inversion H; subst.
    destruct Hin as [Hin|Hin]; [left; exact Hin|].
    right. eapply IH; eauto.
Qed.
End DictIn.

(** ** References, as the flattener follows them *)

Lemma resolve_ref_pointer spec rv v :
  _resolve_ref spec rv = Ok v ->
  exists r, rv = JStr r /\ pointer_target spec r = Some v.
Proof.
  intro H. destruct rv as [| | | |r| |]; try discriminate.
  exists r. split; [reflexivity|]. apply pointer_target_resolves. exact H.
Qed.

Lemma follow_refs_result spec fuel :
  forall info nd,
    follow_refs fuel spec info = Ok (JObj nd) ->
    dict_get "$ref" nd = None /\
    exists d, info = JObj d /\ ends_in spec (JObj d) (JObj nd).
Proof.
  assert (Hstop : forall info nd,
             py_in "$ref" info = Ok false -> info = JObj nd ->
             dict_get "$ref" nd = None /\
             exists d, info = JObj d /\ ends_in spec (JObj d) (JObj nd)).
  { intros info nd Hin ->. cbn [py_in] in Hin. unfold dict_mem in Hin.
    destruct (dict_get "$ref" nd) eqn:E; [discriminate|].
    split; [reflexivity|]. exists nd. split; [reflexivity|].
    apply ends_here. exact E. }
  induction fuel as [|fuel IH]; intros info nd H; cbn [follow_refs] in H;
    bind_inv H as has_ref E; destruct has_ref; try discriminate.
  - inversion H; subst. apply Hstop; [exact E | reflexivity].
  - bind_inv H as rv Er. bind_inv H as target Et.
    destruct (IH _ _ H) as [Hnone [td [-> Hends]]].
    split; [exact Hnone|].
    apply resolve_ref_pointer in Et. destruct Et as [r [-> Hptr]].
    destruct info as [| | | | | |d]; try discriminate.
    exists d. split; [reflexivity|].
    cbn [py_getitem] in Er.
    destruct (dict_get "$ref" d) as [w|] eqn:Ed; [|discriminate].
    inversion Er; subst w.
    eapply ends_step; eassumption.
  - inversion H; subst. apply Hstop; [exact E | reflexivity].
Qed.

Lemma resolve_property_result spec fuel info nd :
  resolve_property fuel spec info = Ok (JObj nd) ->
  dict_get "$ref" nd = None /\
  exists d, info = JObj d /\
            (dict_get "allOf" d <> None \/
             (dict_get "allOf" d = None /\
              ends_in spec (JObj d) (JObj nd))).
Proof.
  unfold resolve_property. intro H.
  bind_inv H as has_allOf E1. bind_inv H as info1 E2.
  destruct (follow_refs_result _ _ _ H) as [Hnone [d1 [-> Hends]]].
  split; [exact Hnone|].
  destruct has_allOf.
  - bind_inv E2 as a Ea.
    destruct info as [| | | | | |d]; try discriminate.
    exists d. split; [reflexivity|]. left.
    cbn [py_getitem] in Ea. destruct (dict_get "allOf" d); congruence.
  - inversion E2; subst info. exists d1. split; [reflexivity|]. right.
    split; [|exact Hends].
    cbn [py_in] in E1. unfold dict_mem in E1.
    destruct (dict_get "allOf" d1); [discriminate | reflexivity].
Qed.

Lemma parse_args_dict spec fuel node prefix args r :
  _parse_args fuel spec node prefix args = Ok r ->
  exists props, node = JObj props.
Proof.
  destruct fuel; [discriminate|]. rewrite _parse_args_S. intro H.
  bind_inv H as props E. destruct node; try discriminate. eauto.
Qed.

Lemma parse_rest_dict rec spec prefix args name info out :
  parse_rest rec spec prefix args name info = Ok out ->
  exists nd, info = JObj nd.
Proof.
  unfold parse_rest. intro H. bind_inv H as has_props E1.
  destruct info as [| | | |s|l|nd]; try discriminate; [| |eauto].
  - destruct has_props.
    + bind_inv H as sub E2. discriminate.
    + bind_inv H as ro E2. discriminate.
  - destruct has_props.
    + bind_inv H as sub E2. discriminate.
    + bind_inv H as ro E2. discriminate.
Qed.

Lemma list_items_some spec nd item_type item_props :
  list_items spec (JObj nd) = Ok (item_type, Some item_props) ->
  exists items target,
    dict_get "items" nd = Some (JObj items) /\
    dict_get "allOf" items = None /\
    item_schema spec items = Some (JObj target) /\
    dict_get "properties" target = Some item_props.
Proof.
  unfold list_items, resolve_items. intro H.
  bind_inv H as resolved E. bind_inv H as ity Eity. bind_inv H as ty Ety.
  bind_inv H as obj_props Eobj. bind_inv H as ro Ero.
  destruct (obj_props && negb (truthy ro)) eqn:Eguard;
    [|inversion H].
  bind_inv H as props Eprops. inversion H; subst; clear H.
  apply andb_true_iff in Eguard. destruct Eguard as [-> _].
  destruct resolved as [| | | | | |target]; try discriminate.
  cbn [py_getitem] in Eprops.
  destruct (dict_get "properties" target) as [p|] eqn:Ep; [|discriminate].
  inversion Eprops; subst p.
  bind_inv E as items0 E0. bind_inv E as has_allOf Ea.
  bind_inv E as items1 E1. bind_inv E as has_ref Er.
  cbn [py_getitem] in E0.
  destruct (dict_get "items" nd) as [it|] eqn:Eit; [|discriminate].
  inversion E0; subst it.
  destruct has_allOf.
  { bind_inv E1 as a Ea1. bind_inv E1 as merged Em.
    inversion E1; subst items1. cbn in Er. inversion Er; subst has_ref.
    inversion E; subst. cbn in Ep. discriminate. }
  inversion E1; subst items1.
  destruct has_ref.
  - bind_inv E as rv Erv.
    apply resolve_ref_pointer in E. destruct E as [r [-> Hptr]].
    destruct items0 as [| | | | | |items]; try discriminate.
    exists items, target.
    cbn [py_in] in Ea. unfold dict_mem in Ea.
    cbn [py_getitem] in Erv.
    destruct (dict_get "$ref" items) as [w|] eqn:Ew; [|discriminate].
    inversion Erv; subst w.
    repeat split.
    + destruct (dict_get "allOf" items); [discriminate | reflexivity].
    + unfold item_schema. rewrite Ew. exact Hptr.
    + exact Ep.
  - inversion E; subst items0.
    exists target, target.
    cbn [py_in] in Ea, Er. unfold dict_mem in Ea, Er.
    repeat split.
    + destruct (dict_get "allOf" target); [discriminate | reflexivity].
    + unfold item_schema.
      destruct (dict_get "$ref" target); [discriminate | reflexivity].
    + exact Ep.
Qed.

(** The entries a resolved property leaves: those there before, one for
    the property itself, or those of its properties or of the properties
    of its items. *)
Lemma parse_rest_entries spec fuel prefix acc name nd acc' :
  (forall props prefix' args0 r,
      _parse_args fuel spec (JObj props) prefix' args0 = Ok r ->
      forall k e, In (k, e) r ->
                  In (k, e) args0 \/ described spec props prefix' k (ai_desc e)) ->
  dict_get "$ref" nd = None ->
  parse_rest (_parse_args fuel spec) spec prefix acc name (JObj nd) = Ok acc' ->
  forall k e,
    In (k, e) acc' ->
    In (k, e) acc
    \/ (dict_get "properties" nd = None /\
        k = str_join "." (prefix ++ [name]) /\
        ai_desc e = py_or (get_or nd "description" JNull) (JStr ""))
    \/ (exists sub path o,
           dict_get "properties" nd = Some (JObj sub) /\
           k = str_join "." (prefix ++ name :: path) /\
           source_at spec sub path o /\ described_by o (ai_desc e))
    \/ (exists items target sub path o,
           dict_get "properties" nd = None /\
           dict_get "items" nd = Some (JObj items) /\
           dict_get "allOf" items = None /\
           item_schema spec items = Some (JObj target) /\
           dict_get "properties" target = Some (JObj sub) /\
           k = str_join "." (prefix ++ name :: path) /\
           source_at spec sub path o /\ described_by o (ai_desc e)).
Proof.
  intros IH Href H k e Hin. unfold parse_rest in H.
  cbn [py_in bind] in H. unfold dict_mem in H.
  destruct (dict_get "properties" nd) as [sub|] eqn:Eprops.
  - cbn [py_getitem bind] in H. rewrite Eprops in H. cbn [bind] in H.
    destruct (parse_args_dict _ _ _ _ _ H) as [props ->].
    destruct (IH _ _ _ _ H _ _ Hin) as [Hold|[path [o [Hk [Hsrc Hdesc]]]]];
      [left; exact Hold|].
    right. right. left. exists props, path, o.
    rewrite <- app_assoc in Hk. repeat split; assumption.
  - cbn [bind] in H. rewrite py_get_dict in H. cbn [bind] in H.
    destruct (truthy (get_or nd "readOnly" JNull)).
    { inversion H; subst. left. exact Hin. }
    unfold leaf_entry in H. cbn [py_in bind] in H. unfold dict_mem in H.
    rewrite Href in H. cbn [bind] in H.
    repeat (rewrite py_get_dict in H; cbn [bind] in H).
    cbn [ai_format ai_type] in H.
    set (path := str_join "." (prefix ++ [name])) in *.
    set (entry := mk_arg_info
                    (py_or (get_or nd "type" JNull) (JStr "string"))
                    (py_or (get_or nd "description" JNull) (JStr ""))
                    name
                    (get_or nd "x-linode-cli-format"
                            (get_or nd "format" JNull))
                    None None) in *.
    assert (Hleaf : forall e', ai_desc e' = ai_desc entry ->
                               (k, e) = (path, e') ->
                               k = path /\
                               ai_desc e = py_or (get_or nd "description" JNull)
                                                 (JStr "")).
    { intros e' He' Hke. inversion Hke; subst. split; [reflexivity | exact He']. }
    assert (Hsets : forall e', ai_desc e' = ai_desc entry ->
              In (k, e) (dict_set path e' (dict_set path entry acc)) ->
              In (k, e) acc
              \/ (k = path /\
                  ai_desc e = py_or (get_or nd "description" JNull)
                                    (JStr ""))).
    { intros e' He' Hi. apply In_dict_set in Hi.
      destruct Hi as [Hi|Hi]; [right; exact (Hleaf e' He' Hi)|].
      apply In_dict_set in Hi.
      destruct Hi as [Hi|Hi]; [right; exact (Hleaf entry eq_refl Hi)|].
      left. exact Hi. }
    destruct (eq_str "json"
                (get_or nd "x-linode-cli-format" (get_or nd "format" JNull))).
    { injection H as <-.
      destruct (Hsets (set_type (JStr "object") entry) eq_refl Hin) as [Hold|Hnew];
        [left; exact Hold | right; left; split; [reflexivity | exact Hnew]]. }
    bind_inv H as has_items Ehas. destruct has_items.
    2:{ injection H as <-. apply In_dict_set in Hin.
        destruct Hin as [Hi|Hi];
          [right; left; split; [reflexivity | exact (Hleaf entry eq_refl Hi)]|].
        left; exact Hi. }
    bind_inv H as li Eli. destruct li as [item_type [item_props|]].
    2:{ injection H as <-.
        destruct (Hsets (set_item_type item_type entry) eq_refl Hin) as [Hold|Hnew];
        [left; exact Hold | right; left; split; [reflexivity | exact Hnew]]. }
    bind_inv H as item_args Eitems.
    apply (@In_dict_del _ _ _ _ _ H) in Hin. apply In_dict_update in Hin.
    destruct Hin as [Hi|Hi].
    { destruct (Hsets (set_item_type item_type entry) eq_refl Hi) as [Hold|Hnew];
        [left; exact Hold | right; left; split; [reflexivity | exact Hnew]]. }
    unfold tag_list_item in Hi. apply in_map_iff in Hi.
    destruct Hi as [[k' e'] [Hke Hi]]. cbn [fst snd] in Hke.
    inversion Hke; subst k e. clear Hke.
    destruct (parse_args_dict _ _ _ _ _ Eitems) as [sub ->].
    destruct (IH _ _ _ _ Eitems _ _ Hi) as [[]|[p [o [Hk [Hsrc Hdesc]]]]].
    destruct (list_items_some _ _ Eli)
      as (items & target & Hit & Hall & Hsch & Hprops).
    right. right. right. exists items, target, sub, p, o.
    rewrite <- app_assoc in Hk. repeat split; assumption.
Qed.

(** Every entry of the flattener comes from a schema of the properties
    map, and has the description of that schema. *)
Lemma parse_args_described spec fuel :
  forall props prefix args0 r,
    _parse_args fuel spec (JObj props) prefix args0 = Ok r ->
    forall k e,
      In (k, e) r ->
      In (k, e) args0 \/ described spec props prefix k (ai_desc e).
Proof.
  induction fuel as [|fuel IH]; intros props prefix args0 r H;
    [discriminate|].
  rewrite _parse_args_S in H. cbn [py_items bind] in H. revert H.
  apply (@foldM_inv (string * json) args_t
           (fun acc => forall k e,
                In (k, e) acc ->
                In (k, e) args0 \/ described spec props prefix k (ai_desc e))).
  2:{ intros k e Hin. left. exact Hin. }
  intros acc [name info] acc' Hprop Hacc Hstep k e Hin.
  rewrite parse_step_rest in Hstep. bind_inv Hstep as resolved Eres.
  destruct (parse_rest_dict _ _ _ _ _ _ Hstep) as [nd ->].
  destruct (resolve_property_result _ _ _ Eres) as [Href [d [-> Hkind]]].
  destruct (@parse_rest_entries spec fuel prefix acc name nd acc' IH Href
              Hstep _ _ Hin)
    as [Hold | [Hleaf | [Hfield | Hitem]]].
  - apply Hacc. exact Hold.
  - right. destruct Hleaf as [Hprops [-> Hdesc]].
    destruct Hkind as [Hcomposed | [Hall Hends]].
    + exists [name], None. repeat split.
      eapply at_composed; eassumption.
    + exists [name], (Some (JObj nd)). repeat split; [|exact Hdesc].
      eapply at_leaf; eassumption.
  - right. destruct Hfield as (sub & path & o & Hprops & -> & Hsrc & Hdesc).
    destruct Hkind as [Hcomposed | [Hall Hends]].
    + exists (name :: path), None. repeat split.
      eapply at_composed; eassumption.
    + exists (name :: path), o. repeat split; [|exact Hdesc].
      eapply at_field; eassumption.
  - right.
    destruct Hitem
      as (items & target & sub & path & o
          & Hprops & Hit & Hia & Hsch & Hsub & -> & Hsrc & Hdesc).
    destruct Hkind as [Hcomposed | [Hall Hends]].
    + exists (name :: path), None. repeat split.
      eapply at_composed; eassumption.
    + exists (name :: path), o. repeat split; [|exact Hdesc].
      eapply at_item; eassumption.
Qed.

(** ** From the entries to the arguments *)

Lemma build_cli_arg_description required_fields arg info a :
  build_cli_arg required_fields (arg, info) = Ok a ->
  arg_path a = arg /\
  exists d, ai_desc info = JStr d /\ first_sentence d (arg_description a).
Proof.
  unfold build_cli_arg. intro Ha.
  bind_inv Ha as pieces E. bind_inv Ha as req Ereq.
  inversion Ha; subst a; clear Ha.
  destruct (ai_desc info) eqn:Hdesc; simpl in E; try discriminate.
  inversion E; subst pieces; clear E.
  assert (G : forall c : CLIArg,
             arg_description
               (match ai_item_type info with
                | Some t => set_arg_item_type t c
                | None => c
                end) = arg_description c
             /\ arg_path
                  (match ai_item_type info with
                   | Some t => set_arg_item_type t c
                   | None => c
                   end) = arg_path c)
    by (intro c; destruct (ai_item_type info); split; reflexivity).
  destruct (G (if req
               then set_required
                      (new_CLIArg (ai_name info) (ai_type info)
                                  (hd EmptyString (str_split "." s) ++ ".")
                                  arg (ai_format info) (ai_list_item info))
               else new_CLIArg (ai_name info) (ai_type info)
                               (hd EmptyString (str_split "." s) ++ ".")
                               arg (ai_format info) (ai_list_item info)))
    as [Gd Gp].
  rewrite Gd, Gp. split.
  - destruct req; reflexivity.
  - exists s. split; [reflexivity|].
    destruct req; simpl; apply split_head_first_sentence.
Qed.

Lemma described_description node d :
  JStr d = py_or (get_or node "description" JNull) (JStr "") ->
  schema_description (JObj node) d.
Proof.
  unfold schema_description, get_or, py_or.
  destruct (dict_get "description" node) as [v|]; simpl.
  - destruct v as [|b|z|m x|s|l|o]; simpl.
    + intro H. inversion H. reflexivity.
    + destruct b; intro H; [discriminate | inversion H; reflexivity].
    + destruct (negb (z =? 0)%Z); intro H;
        [discriminate | inversion H; reflexivity].
    + destruct (negb (m =? 0)%Z); intro H;
        [discriminate | inversion H; reflexivity].
    + destruct (String.eqb_spec s ""); simpl; intro H; inversion H; subst;
        reflexivity.
    + destruct l; intro H; [inversion H; reflexivity | discriminate].
    + destruct o; intro H; [inversion H; reflexivity | discriminate].
  - intro H. inversion H. reflexivity.
Qed.

(** C10, as the code has it.  Every argument compiled from a body schema
    comes from a schema found in the body's properties: by the names of
    its dotted path, down the properties of objects and of list items,
    through the references on the way.  The description of the argument
    is the description of that schema cut before its first full stop, with
    one full stop appended; a schema without a description gives ["."].
    Nothing is said of an argument that comes through a property given by
    [allOf]. *)
Theorem description_is_first_sentence :
  forall fuel spec props required_fields args cli_args,
    _parse_args fuel spec (JObj props) [] [] = Ok args ->
    build_cli_args required_fields args = Ok cli_args ->
    Forall2 (fun kv a =>
               arg_path a = fst kv /\
               exists path origin,
                 fst kv = str_join "." path /\
                 source_at spec props path origin /\
                 match origin with
                 | Some schema =>
                     exists d, schema_description schema d /\
                               first_sentence d (arg_description a)
                 | None => True
                 end)
            args cli_args.
Proof.
  intros fuel spec props rf args cli_args Hparse Hbuild.
  assert (Hall : forall kv, In kv args ->
                            described spec props [] (fst kv) (ai_desc (snd kv))).
  { intros [k e] Hin.
    destruct (parse_args_described _ _ _ _ _ Hparse _ _ Hin) as [[]|H].
    exact H. }
  clear Hparse. unfold build_cli_args in Hbuild.
  apply mapM_Forall2 in Hbuild.
  induction Hbuild as [|[k e] a args cli_args Ha _ IH]; constructor.
  - destruct (build_cli_arg_description _ _ _ Ha) as [Hpath [d [Hd Hfirst]]].
    split; [exact Hpath|]. cbn [fst].
    destruct (Hall (k, e) (or_introl eq_refl))
      as [path [origin [Hk [Hsrc Hdesc]]]].
    exists path, origin. cbn [fst snd app] in *.
    repeat split; try assumption.
    destruct origin as [schema|]; [|exact I].
    destruct schema as [| | | | | |node]; try contradiction.
    exists d. split; [|exact Hfirst].
    apply described_description. unfold described_by in Hdesc.
    rewrite <- Hd. exact Hdesc.
  - apply IH. intros kv Hin. apply Hall. right. exact Hin.
Qed.

Lemma description_is_first_sentence_witness :
  Forall2 (fun kv a =>
             arg_path a = fst kv /\
             exists path origin,
               fst kv = str_join "." path /\
               source_at described_document described_schema path origin /\
               match origin with
               | Some schema =>
                   exists d, schema_description schema d /\
                             first_sentence d (arg_description a)
               | None => True
               end)
          [("label",
            mk_arg_info (JStr "string")
                        (JStr "The label of the disk. It must be unique.")
                        "label" JNull None None);
           ("disk.size",
            mk_arg_info (JStr "integer") (JStr "Size in MB. At least 1.")
                        "size" JNull None None);
           ("volumes.name",
            mk_arg_info (JStr "string") (JStr "Its name.") "name" JNull None
                        (Some "volumes"));
           ("tags",
            mk_arg_info (JStr "array") (JStr "") "tags" JNull
                        (Some (JStr "string")) None)]
          [mk_CLIArg "label" (JStr "string") "The label of the disk." "label"
                     JNull None false None;
           mk_CLIArg "size" (JStr "integer") "Size in MB." "disk.size" JNull
                     None false None;
           mk_CLIArg "name" (JStr "string") "Its name." "volumes.name" JNull
                     (Some "volumes") false None;
           mk_CLIArg "tags" (JStr "array") "." "tags" JNull None false
                     (Some (JStr "string"))].
Proof.
  apply (@description_is_first_sentence 4 described_document described_schema
           (JArr [])); reflexivity.
Defined.

(** C10 as worded fails.  A property given through [allOf] loses the
    description it carries: its argument has the description ["."]. *)
Lemma description_lost_through_allOf :
  ~ own_description_kept 4 described_document composed_described_schema.
Proof.
  intro H.
  specialize (H [("disk",
                  mk_arg_info (JStr "string") (JStr "") "disk" JNull None None)]
                [mk_CLIArg "disk" (JStr "string") "." "disk" JNull None false
                           None]
                (JArr []) "disk"
                [("allOf",
                  JArr [JObj [("$ref", JStr "#/components/schemas/Disk")]]);
                 ("description", JStr "The disk. Its size is fixed.")]
                "The disk. Its size is fixed."
                (mk_CLIArg "disk" (JStr "string") "." "disk" JNull None false
                           None)
                eq_refl eq_refl (or_introl eq_refl) eq_refl
                (or_introl eq_refl) eq_refl).
  destruct H as [first [rest [Hd [_ [Hrest Hs]]]]]. cbn in Hs.
  change "."%string with (EmptyString ++ ".")%string in Hs.
  apply append_dot_inj in Hs. subst first. cbn in Hd. subst rest.
  destruct Hrest as [Hr | [r Hr]]; discriminate Hr.
Qed.
